(** * TripGo MCP server: response shaping, region lookup and timezone helpers

    A shallow embedding of [src/tools/helpers.ts] and of the handlers of
    [src/tools/tripgo.ts] (routing, save-trip, locations, departures),
    followed by the properties of the specification that concern them.

    Conventions.
    - A JavaScript function that may throw returns [result A]; the
      constructors of [exn] are the kinds of exception the code can raise.
    - Epoch seconds, epoch milliseconds and template hash codes are [Z].
      Latitudes, longitudes, costs and weighted scores are JavaScript numbers
      that the code only copies, subtracts or compares by sign; they are
      rationals [Q] here, which contain every finite double.
    - An optional field [f?: T] is [option T]; a string is truthy when it is
      not empty.
    - Third-party libraries (the polyline decoder, Turf) and the host's
      [Date] and [Intl] objects are not part of the repository: they enter as
      the fields of the records [Geo] and [Host]. *)

From Stdlib Require Import ZArith QArith String Ascii List Bool Lia Lqa.
From Stdlib Require Import Sorting.Sorted Sorting.Permutation.
Import ListNotations.

Local Open Scope string_scope.
Local Open Scope list_scope.
Local Open Scope Z_scope.

Infix "+++" := String.append (right associativity, at level 60).

(** ** Exceptions and the error monad *)

Inductive exn : Type :=
| TypeError (msg : string)      (* property access on [undefined] *)
| RangeError (msg : string)     (* Intl: unknown time zone, invalid date *)
| Error (msg : string).         (* [throw new Error(msg)] *)

Inductive result (A : Type) : Type :=
| Ok (a : A)
| Err (e : exn).

Arguments Ok {A} a.
Arguments Err {A} e.

Definition bind {A B} (m : result A) (k : A -> result B) : result B :=
  match m with
  | Ok a => k a
  | Err e => Err e
  end.

Notation "x <- m ;; k" := (bind m (fun x => k))
  (at level 61, m at next level, right associativity).

Definition is_ok {A} (m : result A) : bool :=
  match m with Ok _ => true | Err _ => false end.

(** [xs.map(f)] where [f] may throw: the first exception, in index order,
    aborts the whole map. *)
Fixpoint mapM {A B} (f : A -> result B) (l : list A) : result (list B) :=
  match l with
  | [] => Ok []
  | a :: r => b <- f a ;; bs <- mapM f r ;; Ok (b :: bs)
  end.

(** ** JavaScript values and array methods *)

(** Truthiness of a string. *)
Definition truthy (s : string) : bool :=
  match s with EmptyString => false | _ => true end.

(** The string a condition [if (x)] lets through: [x] when it is a
    non-empty string, nothing when it is [undefined] or empty. *)
Definition if_truthy (o : option string) : option string :=
  match o with
  | Some s => if truthy s then Some s else None
  | None => None
  end.

(** [if (data.error) throw new Error(`${prefix}${data.error}`)]. *)
Definition throwOnError (prefix : string) (error : option string)
  : result unit :=
  match if_truthy error with
  | Some msg => Err (Error (prefix +++ msg))
  | None => Ok tt
  end.

(** [a || b] on an optional string with a string default. *)
Definition or_else (o : option string) (d : string) : string :=
  match o with
  | Some s => if truthy s then s else d
  | None => d
  end.

(** [xs.slice(0, end)]: a missing [end] keeps everything, a negative [end]
    counts from the end of the array. *)
Definition slice0 {A} (l : list A) (e : option Z) : list A :=
  match e with
  | None => l
  | Some n =>
      if n <? 0 then firstn (Z.to_nat (Z.max (Z.of_nat (length l) + n) 0)) l
      else firstn (Z.to_nat n) l
  end.

(** [xs.find(p)] where [p] may throw.  The search is left to right and stops
    at the first hit; an exception of [p] escapes [find]. *)
Fixpoint findM {A} (p : A -> result bool) (l : list A) : result (option A) :=
  match l with
  | [] => Ok None
  | a :: r => b <- p a ;; if b : bool then Ok (Some a) else findM p r
  end.

(** [xs.sort(cmp)].  ECMAScript requires the sort to be stable; for a
    consistent comparator the result is then determined, and a stable
    insertion sort computes it.  [x] is placed before the first element [y]
    with [cmp x y <= 0], so it stays ahead of the elements that followed it
    and compare equal. *)
Fixpoint sort_insert {A} (cmp : A -> A -> Q) (x : A) (l : list A) : list A :=
  match l with
  | [] => [x]
  | y :: r => if Qle_bool (cmp x y) 0 then x :: y :: r
              else y :: sort_insert cmp x r
  end.

Fixpoint sort {A} (cmp : A -> A -> Q) (l : list A) : list A :=
  match l with
  | [] => []
  | x :: r => sort_insert cmp x (sort cmp r)
  end.

(** ** The host's calendar

    [Date] and [Intl] work in the proleptic Gregorian calendar.  Days are
    counted from 1970-01-01; a 400-year era has 146097 days and starts on
    1 March, so that the leap day is the last day of a year of the era. *)

Definition is_leap (y : Z) : bool :=
  ((y mod 4 =? 0) && negb (y mod 100 =? 0)) || (y mod 400 =? 0).

Definition days_in_month (y m : Z) : Z :=
  if m =? 2 then (if is_leap y then 29 else 28)
  else if (m =? 4) || (m =? 6) || (m =? 9) || (m =? 11) then 30
  else 31.

Definition doy_of (m d : Z) : Z :=
  (153 * (if 2 <? m then m - 3 else m + 9) + 2) / 5 + d - 1.

Definition doe_of (yoe doy : Z) : Z := yoe * 365 + yoe / 4 - yoe / 100 + doy.

Definition yoe_of (doe : Z) : Z :=
  (doe - doe / 1460 + doe / 36524 - doe / 146096) / 365.

Definition month_day_of (doy : Z) : Z * Z :=
  let mp := (5 * doy + 2) / 153 in
  (if mp <? 10 then mp + 3 else mp - 9, doy - (153 * mp + 2) / 5 + 1).

Definition days_from_civil (y m d : Z) : Z :=
  let y' := if m <=? 2 then y - 1 else y in
  let era := y' / 400 in
  let yoe := y' - era * 400 in
  era * 146097 + doe_of yoe (doy_of m d) - 719468.

Definition civil_from_days (z : Z) : Z * Z * Z :=
  let z' := z + 719468 in
  let era := z' / 146097 in
  let doe := z' - era * 146097 in
  let yoe := yoe_of doe in
  let doy := doe - doe_of yoe 0 in
  let '(m, d) := month_day_of doy in
  (if m <=? 2 then yoe + era * 400 + 1 else yoe + era * 400, m, d).

Definition valid_date (y m d : Z) : Prop :=
  1 <= m <= 12 /\ 1 <= d <= days_in_month y m.

(** The year of the era that starts in March of year [yoe] ends with the
    February of year [yoe + 1]. *)
Definition leap_yoe (yoe : Z) : bool :=
  ((yoe + 1) mod 4 =? 0) &&
  (negb ((yoe + 1) mod 100 =? 0) || (yoe + 1 =? 400)).

(** A wall-clock reading: what a clock and a calendar on the wall show. *)
Record WallClock : Type := {
  year : Z; month : Z; day : Z; hour : Z; minute : Z; second : Z
}.

Definition valid_wall (w : WallClock) : Prop :=
  valid_date (year w) (month w) (day w) /\
  0 <= hour w < 24 /\ 0 <= minute w < 60 /\ 0 <= second w < 60.

(** Seconds since the epoch of a wall-clock reading taken in UTC, and back. *)
Definition wall_to_epoch (w : WallClock) : Z :=
  days_from_civil (year w) (month w) (day w) * 86400
  + hour w * 3600 + minute w * 60 + second w.

Definition epoch_to_wall (t : Z) : WallClock :=
  let '(y, m, d) := civil_from_days (t / 86400) in
  let sod := t mod 86400 in
  {| year := y; month := m; day := d;
     hour := sod / 3600; minute := sod mod 3600 / 60; second := sod mod 60 |}.

(** ** Digits *)

Definition digit (n : Z) : ascii := ascii_of_N (48 + Z.to_N (n mod 10)).

Definition pad2 (n : Z) : string :=
  String (digit (n / 10)) (String (digit n) EmptyString).

Definition pad3 (n : Z) : string := String (digit (n / 100)) (pad2 n).

Definition pad4 (n : Z) : string := String (digit (n / 1000)) (pad3 n).

Definition pad6 (n : Z) : string :=
  String (digit (n / 100000)) (String (digit (n / 10000)) (pad4 n)).

(** Decimal digits of a natural number, without padding. *)
Fixpoint decimal_aux (fuel : nat) (n : Z) (acc : string) : string :=
  match fuel with
  | O => acc
  | S f => let acc' := String (digit n) acc in
           if n <? 10 then acc' else decimal_aux f (n / 10) acc'
  end.

Definition decimal (n : Z) : string := decimal_aux 24 n EmptyString.

(** The naive local ISO text [YYYY-MM-DDTHH:MM:SS] of a wall-clock reading:
    no offset and no [Z] suffix. *)
Definition isoLocal (w : WallClock) : string :=
  pad4 (year w) +++ "-" +++ pad2 (month w) +++ "-" +++ pad2 (day w) +++ "T"
  +++ pad2 (hour w) +++ ":" +++ pad2 (minute w) +++ ":" +++ pad2 (second w).

(** ** The host's [Date] and [Intl]

    A [Date] holds a time value in milliseconds since the epoch, or NaN
    ("Invalid Date"), which is [None] here. *)
Definition Date : Type := option Z.

Definition TimeClip (ms : Z) : Date :=
  if Z.abs ms <=? 8640000000000000 then Some ms else None.

(** What the repository takes from its host.
    - [timeZone] is the IANA database behind [Intl]: for a zone name it
      knows, the offset from UTC, in seconds, in force at a UTC instant given
      in epoch seconds; [None] for a name [Intl] rejects.
    - [Date_parse] is [Date.parse]: the time value in milliseconds, [None]
      for NaN.  Only its result on a complete date-time with a [Z] suffix is
      pinned down.
    - [longOffset] is the text [Intl] prints for
      [timeZoneName: "longOffset"], from the offset in seconds.
    The laws: [Intl] knows ["UTC"], whose offset is 0; an offset is less
    than a day; [Date.parse] reads a valid date-time that ends in [Z] as
    that time in UTC. *)
Record Host : Type := {
  timeZone : string -> option (Z -> Z);
  Date_parse : string -> option Z;
  longOffset : Z -> string;
  timeZone_UTC :
    exists off, timeZone "UTC" = Some off /\ forall t, off t = 0;
  timeZone_bounded : forall name off t,
    timeZone name = Some off -> -86400 < off t < 86400;
  Date_parse_iso : forall w,
    valid_wall w -> 0 <= year w <= 9999 ->
    Date_parse (isoLocal w +++ "Z") = Some (1000 * wall_to_epoch w)
}.

(** [date.toLocaleString("en-US", { timeZone: tz })].  The text
    [M/D/YYYY, h:mm:ss AM] is kept as the wall-clock reading it prints, to
    the second; an invalid date prints "Invalid Date" ([None]); an unknown
    zone makes [Intl] throw. *)
Definition toLocaleString (h : Host) (d : Date) (tz : string)
  : result (option WallClock) :=
  match timeZone h tz with
  | None => Err (RangeError ("Invalid time zone specified: " +++ tz))
  | Some off =>
      Ok (match d with
          | None => None
          | Some ms => let s := ms / 1000 in Some (epoch_to_wall (s + off s))
          end)
  end.

(** [new Date(text)] on such a text: the reading is taken as a time of the
    process's own zone, which is UTC on the Workers runtime the server is
    deployed to. *)
Definition Date_of_locale (o : option WallClock) : Date :=
  match o with
  | None => None
  | Some w => TimeClip (1000 * wall_to_epoch w)
  end.

(** [a.getTime() - b.getTime()] and [new Date(a.getTime() - n)], with NaN
    absorbing. *)
Definition time_sub (a b : option Z) : option Z :=
  match a, b with
  | Some x, Some y => Some (x - y)
  | _, _ => None
  end.

Definition Date_of_number (n : option Z) : Date :=
  match n with Some ms => TimeClip ms | None => None end.

(** [Math.floor(n / 1000)] on a time value. *)
Definition floor_seconds (n : option Z) : option Z :=
  match n with Some ms => Some (ms / 1000) | None => None end.

(** [s.split(sep)] for a separator that is not empty: the pieces of [s]
    between the occurrences of [sep], found from the left; a text without
    the separator is the only piece.  [skip] counts the characters of a
    separator just found that are still to be passed, [acc] holds the piece
    being read. *)
Fixpoint starts_with (s sep : string) : bool :=
  match sep, s with
  | EmptyString, _ => true
  | String _ _, EmptyString => false
  | String b sep', String a s' => Ascii.eqb a b && starts_with s' sep'
  end.

Fixpoint split_go (sep : string) (skip : nat) (acc : string -> string)
  (s : string) : list string :=
  match s with
  | EmptyString => [acc EmptyString]
  | String c r =>
      match skip with
      | S k => split_go sep k acc r
      | O =>
          if starts_with s sep
          then acc EmptyString
               :: split_go sep (String.length sep - 1) (fun x => x) r
          else split_go sep 0 (fun x => acc (String c x)) r
      end
  end.

Definition split (sep s : string) : list string :=
  split_go sep 0 (fun x => x) s.

(** [Number.parseInt(text)] without a radix, on a text of ASCII characters:
    white space at the start is passed, a sign is read, [0x] or [0X]
    announces base 16, and the longest run of digits of the base is the
    value; the rest of the text is ignored, and without a digit the result
    is NaN ([None]).  An [undefined] argument reads as the text
    [undefined], which has no digit. *)
Definition is_space (c : ascii) : bool :=
  let n := N_of_ascii c in ((n =? 32) || ((9 <=? n) && (n <=? 13)))%N.

Fixpoint skip_space (s : string) : string :=
  match s with
  | String c r => if is_space c then skip_space r else s
  | EmptyString => s
  end.

Definition digit_value (radix : Z) (c : ascii) : option Z :=
  let n := Z.of_N (N_of_ascii c) in
  let v := if (48 <=? n) && (n <=? 57) then Some (n - 48)
           else if (97 <=? n) && (n <=? 122) then Some (n - 87)
           else if (65 <=? n) && (n <=? 90) then Some (n - 55)
           else None in
  match v with
  | Some d => if d <? radix then Some d else None
  | None => None
  end.

Fixpoint leading_digits (radix : Z) (s : string) (acc : option Z)
  : option Z :=
  match s with
  | EmptyString => acc
  | String c r =>
      match digit_value radix c with
      | Some d =>
          leading_digits radix r
            (Some (radix * match acc with Some a => a | None => 0 end + d))
      | None => acc
      end
  end.

Definition parseInt (text : option string) : option Z :=
  match text with
  | None => None
  | Some s =>
      let s1 := skip_space s in
      let '(negative, s2) :=
        match s1 with
        | String c r =>
            if Ascii.eqb c "-" then (true, r)
            else if Ascii.eqb c "+" then (false, r) else (false, s1)
        | EmptyString => (false, s1)
        end in
      let '(radix, s3) :=
        match s2 with
        | String z (String x r) =>
            if Ascii.eqb z "0" && (Ascii.eqb x "x" || Ascii.eqb x "X")
            then (16, r) else (10, s2)
        | _ => (10, s2)
        end in
      match leading_digits radix s3 None with
      | Some v => Some (if negative then - v else v)
      | None => None
      end
  end.

(** [new Date(year, monthIndex, day, hours, minutes, seconds)]: NaN in any
    field gives an invalid date; a year from 0 to 99 is a year of the 1900s;
    fields out of their range carry over to the next unit; the reading is
    taken as a time of the process's own zone, UTC as above. *)
Definition Date_of_fields (y mo d hh mi ss : option Z) : Date :=
  match y, mo, d, hh, mi, ss with
  | Some y, Some mo, Some d, Some hh, Some mi, Some ss =>
      let yr := if (0 <=? y) && (y <=? 99) then 1900 + y else y in
      let dayno := days_from_civil (yr + mo / 12) (mo mod 12 + 1) 1 + d - 1 in
      TimeClip (1000 * (dayno * 86400 + hh * 3600 + mi * 60 + ss))
  | _, _, _, _, _, _ => None
  end.

(** [n - 1] on a number that may be NaN. *)
Definition pred_number (n : option Z) : option Z :=
  match n with Some x => Some (x - 1) | None => None end.

(** * src/tools/helpers.ts *)

(** ** Third-party geometry

    [@mapbox/polyline] and Turf are dependencies, not code of the
    repository.  A position is a pair of numbers; [polyline.decode] yields
    [[lat, lng]] pairs and may throw on a malformed text; Turf's [polygon]
    builds a GeoJSON polygon from its rings and throws on a ring it refuses;
    [booleanPointInPolygon] is the containment test. *)
Definition Position : Type := (Q * Q)%type.

Record Geo : Type := {
  polyline_decode : string -> result (list Position);
  polygon : list (list Position) -> result (list (list Position));
  booleanPointInPolygon : Position -> list (list Position) -> bool
}.

Record Coordinate : Type := { lat : Q; lng : Q }.

(** [a !== b] on numbers. *)
Definition number_neq (a b : Q) : bool := negb (Qeq_bool a b).

(** The closing step of [coordinateInPolygon]: append the first position
    when it differs from the last one.  On an empty array [polygonCoords[0]]
    is [undefined] and reading its index 0 throws. *)
Definition close_ring (polygonCoords : list Position)
  : result (list Position) :=
  match polygonCoords with
  | [] => Err (TypeError "Cannot read properties of undefined (reading '0')")
  | first :: _ =>
      let final := last polygonCoords first in
      if number_neq (fst first) (fst final)
         || number_neq (snd first) (snd final)
      then Ok (polygonCoords ++ [first])
      else Ok polygonCoords
  end.

Definition coordinateInPolygon (g : Geo) (coordinate : Coordinate)
  (encodedPolygon : string) : result bool :=
  points <- polyline_decode g encodedPolygon ;;
  let polygonCoords := map (fun coord => (snd coord, fst coord)) points in
  closed <- close_ring polygonCoords ;;
  let turfPoint := (lng coordinate, lat coordinate) in
  turfPolygon <- polygon g [closed] ;;
  Ok (booleanPointInPolygon g turfPoint turfPolygon).

(** ** Time zones *)

(** [new Date(date.toLocaleString("en-US", { timeZone }))]. *)
Definition Date_via_locale (h : Host) (date : Date) (tz : string)
  : result Date :=
  text <- toLocaleString h date tz ;; Ok (Date_of_locale text).

Definition zonedTimeToUtc (h : Host) (isoDateLocalString timezone : string)
  : result Date :=
  let date : Date := Date_parse h (isoDateLocalString +++ "Z") in
  targetTime <- Date_via_locale h date timezone ;;
  utcTime <- Date_via_locale h date "UTC" ;;
  let offset := time_sub targetTime utcTime in
  Ok (Date_of_number (time_sub date offset)).

(** [utcDate.toLocaleString("en-CA", ...)] with the options of
    [utcToZonedTime]: the date as [YYYY-MM-DD], a comma and a space, and the
    time as [HH:MM:SS] with the hours from 00 to 23 (the clock that
    [formatToParts] below prints too), all read in the zone; an invalid date
    prints [Invalid Date]; an unknown zone makes [Intl] throw. *)
Definition toLocaleString_enCA (h : Host) (d : Date) (tz : string)
  : result string :=
  match timeZone h tz with
  | None => Err (RangeError ("Invalid time zone specified: " +++ tz))
  | Some off =>
      Ok (match d with
          | None => "Invalid Date"
          | Some ms =>
              let s := ms / 1000 in
              let w := epoch_to_wall (s + off s) in
              decimal (year w) +++ "-" +++ pad2 (month w) +++ "-"
              +++ pad2 (day w) +++ ", " +++ pad2 (hour w) +++ ":"
              +++ pad2 (minute w) +++ ":" +++ pad2 (second w)
          end)
  end.

(** Destructuring takes the pieces by position; a piece that is not there
    is [undefined].  [datePart] is always there, since [split] yields at
    least one piece; calling [split] on an [undefined] [timePart] throws. *)
Definition utcToZonedTime (h : Host) (utcDate : Date) (timezone : string)
  : result Date :=
  targetTimeString <- toLocaleString_enCA h utcDate timezone ;;
  let pieces := split ", " targetTimeString in
  let datePart := nth 0 pieces EmptyString in
  match nth_error pieces 1 with
  | None =>
      Err (TypeError
             "Cannot read properties of undefined (reading 'split')")
  | Some timePart =>
      let date := split "-" datePart in
      let time := split ":" timePart in
      Ok (Date_of_fields
            (parseInt (nth_error date 0))
            (pred_number (parseInt (nth_error date 1)))
            (parseInt (nth_error date 2))
            (parseInt (nth_error time 0))
            (parseInt (nth_error time 1))
            (parseInt (nth_error time 2)))
  end.

(** The parts [Intl.DateTimeFormat("en-US", ...).formatToParts] yields for
    the options of [toISOStringInTimezone]: a numeric year, two-digit month,
    day, hour, minute and second on a 24-hour clock, and the zone's offset
    in force at that instant.  An unknown zone and an invalid date both make
    [Intl] throw. *)
Record DateParts : Type := {
  p_year : string; p_month : string; p_day : string;
  p_hour : string; p_minute : string; p_second : string;
  p_timeZoneName : string
}.

Definition formatToParts (h : Host) (utcDate : Date) (tz : string)
  : result DateParts :=
  match timeZone h tz with
  | None => Err (RangeError ("Invalid time zone specified: " +++ tz))
  | Some off =>
      match utcDate with
      | None => Err (RangeError "Invalid time value")
      | Some ms =>
          let s := ms / 1000 in
          let w := epoch_to_wall (s + off s) in
          Ok {| p_year := decimal (year w);
                p_month := pad2 (month w); p_day := pad2 (day w);
                p_hour := pad2 (hour w); p_minute := pad2 (minute w);
                p_second := pad2 (second w);
                p_timeZoneName := longOffset h (off s) |}
      end
  end.

Definition toISOStringInTimezone (h : Host) (utcDate : Date)
  (timezone : string) : result string :=
  parts <- formatToParts h utcDate timezone ;;
  let offsetPart := or_else (Some (p_timeZoneName parts)) "+00:00" in
  Ok (p_year parts +++ "-" +++ p_month parts +++ "-" +++ p_day parts +++ "T"
      +++ p_hour parts +++ ":" +++ p_minute parts +++ ":" +++ p_second parts
      +++ offsetPart).

(** [date.toISOString()]: UTC with milliseconds and a [Z]; years outside
    0..9999 take a sign and six digits; an invalid date throws. *)
Definition toISOString (d : Date) : result string :=
  match d with
  | None => Err (RangeError "Invalid time value")
  | Some ms =>
      let w := epoch_to_wall (ms / 1000) in
      let y := year w in
      let ytext := if (0 <=? y) && (y <=? 9999) then pad4 y
                   else (if y <? 0 then "-" else "+") +++ pad6 (Z.abs y) in
      Ok (ytext +++ "-" +++ pad2 (month w) +++ "-" +++ pad2 (day w) +++ "T"
          +++ pad2 (hour w) +++ ":" +++ pad2 (minute w) +++ ":"
          +++ pad2 (second w) +++ "." +++ pad3 (ms mod 1000) +++ "Z")
  end.

(** * src/tools/tripgo.ts *)

(** ** Upstream response types

    One module per TypeScript interface, so that the fields keep their
    names.  Fields that no handler reads are left out. *)

Module Location.
Record t : Type := {
  lat : Q; lng : Q; address : option string; name : option string;
  (* StopLocation *)
  code : option string; region : option string;
  services : option (list string)
}.
End Location.

Module ModeInfo.
Record t : Type := { identifier : string; alt : string }.
End ModeInfo.

Module SegmentTemplate.
Record t : Type := {
  hashCode : Z;
  modeInfo : ModeInfo.t;
  from : option Location.t;
  to : option Location.t;
  action : option string;
  notes : option string
}.
End SegmentTemplate.

Module SegmentReference.
Record t : Type := {
  segmentTemplateHashCode : Z;
  startTime : Z;
  endTime : Z;
  serviceName : option string;
  serviceNumber : option string
}.
End SegmentReference.

Module Trip.
Record t : Type := {
  id : string;
  arrive : Z;
  depart : Z;
  moneyCost : option Q;
  currencySymbol : option string;
  caloriesCost : option Q;
  carbonCost : option Q;
  segments : list SegmentReference.t;
  weightedScore : Q;
  saveURL : option string
}.
End Trip.

Module TripGroup.
Record t : Type := { trips : list Trip.t }.
End TripGroup.

Module RoutingResponse.
Record t : Type := {
  error : option string;
  errorMessage : option string;
  groups : option (list TripGroup.t);
  segmentTemplates : option (list SegmentTemplate.t)
}.
End RoutingResponse.

Module Region.
Record t : Type := { name : string; polygon : string; timezone : string }.
End Region.

Module RegionsResponse.
Record t : Type := { regions : option (list Region.t) }.
End RegionsResponse.

Module SaveTripResponse.
Record t : Type := {
  error : option string; errorMessage : option string; url : option string
}.
End SaveTripResponse.

Module LocationGroup.
Record t : Type := {
  key : string;
  hashCode : Z;
  stops : option (list Location.t);
  bikePods : option (list Location.t);
  carParks : option (list Location.t);
  carPods : option (list Location.t);
  carRentals : option (list Location.t);
  freeFloating : option (list Location.t)
}.
End LocationGroup.

Module LocationsResponse.
Record t : Type := {
  error : option string;
  errorMessage : option string;
  groups : option (list LocationGroup.t)
}.
End LocationsResponse.

Module RealtimeVehicle.
Record t : Type := {
  lastUpdate : Z;
  id : string;
  label : option string;
  location : option (Coordinate * option Q);   (* with its bearing *)
  occupancy : option string;
  wifi : option bool
}.
End RealtimeVehicle.

Module Color.
Record t : Type := { red : Z; green : Z; blue : Z }.
End Color.

Module ServiceInfo.
Record t : Type := {
  startTime : Z;
  serviceTripID : string;
  serviceName : option string;
  serviceDirection : option string;
  serviceNumber : option string;
  serviceColor : option Color.t;
  serviceTextColor : option Color.t;
  routeID : option string;
  operatorID : option string;
  operator : option string;
  mode : option string;
  wheelchairAccessible : option bool;
  realTimeStatus : option string;
  realtimeVehicle : option RealtimeVehicle.t;
  realTimeDeparture : option Z
}.
End ServiceInfo.

Module EmbarkationStop.
Record t : Type := {
  stopCode : string;
  wheelchairAccessible : option bool;
  services : option (list ServiceInfo.t)
}.
End EmbarkationStop.

Module DeparturesResponse.
Record t : Type := {
  error : option string;
  errorMessage : option string;
  embarkationStops : option (list EmbarkationStop.t);
  stops : option (list Location.t)
}.
End DeparturesResponse.

(** ** Strings tests of [formatDateForTripGo] *)

(** [s.includes("Z")]. *)
Fixpoint includes_char (c : ascii) (s : string) : bool :=
  match s with
  | EmptyString => false
  | String a r => Ascii.eqb a c || includes_char c r
  end.

Definition is_digit (c : ascii) : bool :=
  let n := N_of_ascii c in ((48 <=? n) && (n <=? 57))%N.

(** [s.match(/[+-]\d{2}:\d{2}$/)]: the text ends with a sign, two digits, a
    colon and two digits. *)
Definition ends_with_offset (s : string) : bool :=
  match rev (list_ascii_of_string s) with
  | m2 :: m1 :: colon :: h2 :: h1 :: sign :: _ =>
      (Ascii.eqb sign "+" || Ascii.eqb sign "-")
      && is_digit h1 && is_digit h2 && Ascii.eqb colon ":"
      && is_digit m1 && is_digit m2
  | _ => false
  end.

(** Seconds since the epoch for the upstream API; NaN is [None]. *)
Definition formatDateForTripGo (h : Host) (isoDateString timezone : string)
  : result (option Z) :=
  if includes_char "Z" isoDateString || ends_with_offset isoDateString
  then Ok (floor_seconds (Date_parse h isoDateString))
  else
    utcDate <- zonedTimeToUtc h isoDateString timezone ;;
    Ok (floor_seconds utcDate).

(** ** Regions *)

Definition fetchRegions (regionsData : RegionsResponse.t)
  : result (list Region.t) :=
  match RegionsResponse.regions regionsData with
  | None => Err (Error "Failed to fetch regions")
  | Some regions => Ok regions
  end.

Definition getRegionForCoordinate (g : Geo) (regionsData : RegionsResponse.t)
  (coordinate : Coordinate) : result (option Region.t) :=
  regions <- fetchRegions regionsData ;;
  findM (fun region => coordinateInPolygon g coordinate (Region.polygon region))
        regions.

(** ** Routing *)

(** A value appended to [url.searchParams]; the decimal text of a number is
    not spelled out. *)
Inductive param : Type :=
| PText (s : string)
| PPoint (lat lng : Q)            (* [`(${lat}, ${lng})`] *)
| PNumber (n : Q)
| PSeconds (n : option Z).        (* epoch seconds, [None] is NaN *)

Definition SearchParams : Type := list (string * param).

Record RoutingArgs : Type := {
  fromLat : Q; fromLng : Q; toLat : Q; toLng : Q;
  departureTime : option string;
  arrivalTime : option string;
  modes : option (list string);
  maxWalkingTime : option Q;
  wheelchair : option bool;
  limit : option Z
}.

Module FormattedSegment.
Record t : Type := {
  mode : string;
  duration : Z;
  action : option string;
  serviceName : option string;
  serviceNumber : option string;
  from : option string;
  to : option string
}.
End FormattedSegment.

Module FormattedTrip.
Record t : Type := {
  id : string;
  depart : string;
  arrive : string;
  totalDuration : Z;
  segments : list FormattedSegment.t;
  cost : option Q;
  currency : option string;
  caloriesCost : option Q;
  carbonCost : option Q;
  score : Q;
  url : option string
}.
End FormattedTrip.

Module RoutingOutput.
Record t : Type := {
  trips : list FormattedTrip.t;
  query_from : Coordinate;
  query_to : Coordinate;
  query_url : SearchParams
}.
End RoutingOutput.

(** The element of [selectedGroups]: the best two trips of a group and the
    score of the best one. *)
Module SelectedGroup.
Record t : Type := { trips : list Trip.t; score : Q }.
End SelectedGroup.

Definition option_bind {A B} (o : option A) (f : A -> option B) : option B :=
  match o with Some a => f a | None => None end.

(** [region?.timezone || "UTC"]. *)
Definition displayTimezone (region : option Region.t) : string :=
  or_else (option_map Region.timezone region) "UTC".

(** The time parameter of the request: [departAfter] when [departureTime] is
    truthy, else [arriveBefore] when [arrivalTime] is truthy, else none. *)
Definition timeParams (h : Host) (timezone : string)
  (departureTime arrivalTime : option string) : result SearchParams :=
  match if_truthy departureTime with
  | Some d =>
      t <- formatDateForTripGo h d timezone ;; Ok [("departAfter", PSeconds t)]
  | None =>
      match if_truthy arrivalTime with
      | Some a =>
          t <- formatDateForTripGo h a timezone ;;
          Ok [("arriveBefore", PSeconds t)]
      | None => Ok []
      end
  end.

(** The search parameters of the outbound [routing.json] request, in the
    order the code appends them. *)
Definition routingUrl (h : Host) (timezone : string) (a : RoutingArgs)
  : result SearchParams :=
  time <- timeParams h timezone (departureTime a) (arrivalTime a) ;;
  let modeParams :=
    match modes a with
    | Some (m :: ms) =>
        map (fun mode => ("modes", PText mode)) (m :: ms)
        ++ [("allModes", PText "1")]
    | _ => []
    end in
  let wm :=
    match maxWalkingTime a with
    | Some n => if Qeq_bool n 0 then [] else [("wm", PNumber n)]
    | None => []
    end in
  let wheel :=
    match wheelchair a with
    | Some b => [("wheelchair", PText (if b then "1" else "0"))]
    | None => []
    end in
  Ok ([("from", PPoint (fromLat a) (fromLng a));
       ("to", PPoint (toLat a) (toLng a))]
      ++ time ++ modeParams ++ [("v", PText "11")] ++ wm ++ wheel).

(** The comparators handed to [sort]. *)
Definition byWeightedScore (a b : Trip.t) : Q :=
  Trip.weightedScore a - Trip.weightedScore b.

Definition byScore (a b : SelectedGroup.t) : Q :=
  SelectedGroup.score a - SelectedGroup.score b.

(** The callback of [data.groups?.map]: [sortedTrips[0]] is [undefined] on a
    group without trips, and reading its [weightedScore] throws. *)
Definition selectGroup (group : TripGroup.t) : result SelectedGroup.t :=
  let sortedTrips := sort byWeightedScore (TripGroup.trips group) in
  match sortedTrips with
  | [] =>
      Err (TypeError
             "Cannot read properties of undefined (reading 'weightedScore')")
  | best :: _ =>
      Ok {| SelectedGroup.trips := firstn 2 sortedTrips;
            SelectedGroup.score := Trip.weightedScore best |}
  end.

Definition selectedGroups (data : RoutingResponse.t) (limit : option Z)
  : result (list SelectedGroup.t) :=
  match RoutingResponse.groups data with
  | None => Ok []
  | Some groups =>
      mapped <- mapM selectGroup groups ;;
      Ok (slice0 (sort byScore mapped) limit)
  end.

(** [data.segmentTemplates?.find((t) => t.hashCode === code)]. *)
Definition findTemplate (data : RoutingResponse.t) (code : Z)
  : option SegmentTemplate.t :=
  option_bind (RoutingResponse.segmentTemplates data)
    (find (fun t => SegmentTemplate.hashCode t =? code)).

Definition formatSegment (data : RoutingResponse.t)
  (segment : SegmentReference.t) : FormattedSegment.t :=
  let template :=
    findTemplate data (SegmentReference.segmentTemplateHashCode segment) in
  {| FormattedSegment.mode :=
       or_else (option_map (fun t => ModeInfo.alt (SegmentTemplate.modeInfo t))
                           template) "Unknown Mode";
     FormattedSegment.duration :=
       (SegmentReference.endTime segment
        - SegmentReference.startTime segment) / 60;
     FormattedSegment.action := option_bind template SegmentTemplate.action;
     FormattedSegment.serviceName := SegmentReference.serviceName segment;
     FormattedSegment.serviceNumber := SegmentReference.serviceNumber segment;
     FormattedSegment.from :=
       option_bind (option_bind template SegmentTemplate.from)
                   Location.address;
     FormattedSegment.to :=
       option_bind (option_bind template SegmentTemplate.to)
                   Location.address |}.

Definition formatTrip (h : Host) (timezone : string)
  (data : RoutingResponse.t) (trip : Trip.t) : result FormattedTrip.t :=
  let segments := map (formatSegment data) (Trip.segments trip) in
  depart <- toISOStringInTimezone h (TimeClip (Trip.depart trip * 1000))
                                  timezone ;;
  arrive <- toISOStringInTimezone h (TimeClip (Trip.arrive trip * 1000))
                                  timezone ;;
  Ok {| FormattedTrip.id := Trip.id trip;
        FormattedTrip.depart := depart;
        FormattedTrip.arrive := arrive;
        FormattedTrip.totalDuration :=
          (Trip.arrive trip - Trip.depart trip) / 60;
        FormattedTrip.segments := segments;
        FormattedTrip.cost := Trip.moneyCost trip;
        FormattedTrip.currency := Trip.currencySymbol trip;
        FormattedTrip.caloriesCost := Trip.caloriesCost trip;
        FormattedTrip.carbonCost := Trip.carbonCost trip;
        FormattedTrip.score := Trip.weightedScore trip;
        FormattedTrip.url := Trip.saveURL trip |}.

(** [selectedGroups.flatMap((group) => group.trips.map(...))]. *)
Definition formattedTrips (h : Host) (timezone : string)
  (data : RoutingResponse.t) (selected : list SelectedGroup.t)
  : result (list FormattedTrip.t) :=
  perGroup <- mapM (fun group =>
                      mapM (formatTrip h timezone data)
                           (SelectedGroup.trips group)) selected ;;
  Ok (concat perGroup).

(** The object [handleRouting] serialises. *)
Definition routingOutput (a : RoutingArgs) (url : SearchParams)
  (formatted : list FormattedTrip.t) : RoutingOutput.t :=
  {| RoutingOutput.trips := formatted;
     RoutingOutput.query_from := {| lat := fromLat a; lng := fromLng a |};
     RoutingOutput.query_to := {| lat := toLat a; lng := toLng a |};
     RoutingOutput.query_url := url |}.

(** [handleRouting].  [regionsData] and [data] are the parsed bodies of the
    two upstream answers. *)
Definition handleRouting (g : Geo) (h : Host)
  (regionsData : RegionsResponse.t) (data : RoutingResponse.t)
  (a : RoutingArgs) : result RoutingOutput.t :=
  region <- getRegionForCoordinate g regionsData
              {| lat := fromLat a; lng := fromLng a |} ;;
  let timezone := displayTimezone region in
  url <- routingUrl h timezone a ;;
  (* await fetch(url) *)
  _ <- throwOnError "Routing failed: " (RoutingResponse.error data) ;;
  selected <- selectedGroups data (limit a) ;;
  formatted <- formattedTrips h timezone data selected ;;
  Ok (routingOutput a url formatted).

(** ** Save trip *)

Module SaveTripOutput.
Record t : Type := { url : option string }.
End SaveTripOutput.

(** [handleSaveTrip], from the parsed body of the answer. *)
Definition handleSaveTrip (data : SaveTripResponse.t)
  : result SaveTripOutput.t :=
  _ <- throwOnError "Routing failed: " (SaveTripResponse.error data) ;;
  Ok {| SaveTripOutput.url := SaveTripResponse.url data |}.

(** ** Locations *)

Module FormattedLocation.
Record t : Type := {
  lat : Q;
  lng : Q;
  name : string;
  address : option string;
  type : string;
  code : option string;
  region : option string;
  services : option (list string)
}.
End FormattedLocation.

Module LocationCounts.
Record t : Type := {
  key : string;
  hashCode : Z;
  stops : nat; bikePods : nat; carParks : nat;
  carPods : nat; carRentals : nat; freeFloating : nat
}.
End LocationCounts.

Module LocationsOutput.
Record t : Type := {
  locations : list FormattedLocation.t;
  groups : option (list LocationCounts.t);
  totalLocations : nat
}.
End LocationsOutput.

(** The entry pushed for a stop: no [address], but the [services]. *)
Definition formatStop (location : Location.t) : FormattedLocation.t :=
  {| FormattedLocation.lat := Location.lat location;
     FormattedLocation.lng := Location.lng location;
     FormattedLocation.name := or_else (Location.name location) EmptyString;
     FormattedLocation.address := None;
     FormattedLocation.type := "stop";
     FormattedLocation.code := Location.code location;
     FormattedLocation.region := Location.region location;
     FormattedLocation.services := Location.services location |}.

(** The entry pushed for the other five categories. *)
Definition formatPlace (type : string) (location : Location.t)
  : FormattedLocation.t :=
  {| FormattedLocation.lat := Location.lat location;
     FormattedLocation.lng := Location.lng location;
     FormattedLocation.name := or_else (Location.name location) EmptyString;
     FormattedLocation.address :=
       Some (or_else (Location.address location) EmptyString);
     FormattedLocation.type := type;
     FormattedLocation.code := Location.code location;
     FormattedLocation.region := Location.region location;
     FormattedLocation.services := None |}.

(** [if (xs) for (const x of xs) push(f(x))]. *)
Definition each {A B} (xs : option (list A)) (f : A -> B) : list B :=
  match xs with Some l => map f l | None => [] end.

Definition formatLocationGroup (group : LocationGroup.t)
  : list FormattedLocation.t :=
  each (LocationGroup.stops group) formatStop
  ++ each (LocationGroup.bikePods group) (formatPlace "bikePod")
  ++ each (LocationGroup.carParks group) (formatPlace "carPark")
  ++ each (LocationGroup.carPods group) (formatPlace "carPod")
  ++ each (LocationGroup.carRentals group) (formatPlace "carRental")
  ++ each (LocationGroup.freeFloating group) (formatPlace "freeFloating").

(** [xs?.length || 0]. *)
Definition count {A} (xs : option (list A)) : nat :=
  match xs with Some l => length l | None => O end.

Definition locationCounts (group : LocationGroup.t) : LocationCounts.t :=
  {| LocationCounts.key := LocationGroup.key group;
     LocationCounts.hashCode := LocationGroup.hashCode group;
     LocationCounts.stops := count (LocationGroup.stops group);
     LocationCounts.bikePods := count (LocationGroup.bikePods group);
     LocationCounts.carParks := count (LocationGroup.carParks group);
     LocationCounts.carPods := count (LocationGroup.carPods group);
     LocationCounts.carRentals := count (LocationGroup.carRentals group);
     LocationCounts.freeFloating := count (LocationGroup.freeFloating group) |}.

(** [handleLocationsSearch], from the parsed body of the answer.  Building
    the request cannot throw; the query echoed in the output is left out. *)
Definition handleLocationsSearch (data : LocationsResponse.t)
  : result LocationsOutput.t :=
  _ <- throwOnError "Locations search failed: "
                    (LocationsResponse.error data) ;;
  let formattedLocations :=
    concat (each (LocationsResponse.groups data) formatLocationGroup) in
  Ok {| LocationsOutput.locations := formattedLocations;
        LocationsOutput.groups :=
          option_map (map locationCounts) (LocationsResponse.groups data);
        LocationsOutput.totalLocations := length formattedLocations |}.

(** ** Departures *)

Module DeparturesBody.
Record t : Type := {
  region : string;
  embarkationStops : list string;
  timeStamp : option (option Z);      (* absent, or seconds that may be NaN *)
  limit : option Z
}.
End DeparturesBody.

Module FormattedService.
Record t : Type := {
  id : string;
  name : option string;
  number : option string;
  direction : option string;
  operator : option string;
  mode : option string
}.
End FormattedService.

Module FormattedVehicle.
Record t : Type := {
  id : string;
  label : option string;
  lastUpdate : string;
  location : option (Coordinate * option Q);
  occupancy : option string;
  wifi : option bool
}.
End FormattedVehicle.

Module FormattedDeparture.
Record t : Type := {
  scheduledDeparture : string;
  realTimeDeparture : option string;
  realTime : bool;
  service : FormattedService.t;
  wheelchairAccessible : option bool;
  vehicle : option FormattedVehicle.t
}.
End FormattedDeparture.

Module DeparturesOutput.
Record t : Type := {
  departures : list FormattedDeparture.t;
  query_region : string;
  query_stopCodes : list string
}.
End DeparturesOutput.

(** [new Date(seconds * 1000).toISOString()]. *)
Definition isoOfSeconds (seconds : Z) : result string :=
  toISOString (TimeClip (seconds * 1000)).

(** [o ? f(o) : undefined] where [f] may throw. *)
Definition whenSome {A B} (o : option A) (f : A -> result B)
  : result (option B) :=
  match o with
  | Some a => b <- f a ;; Ok (Some b)
  | None => Ok None
  end.

(** A number is truthy when it is neither 0 nor NaN. *)
Definition if_nonzero (o : option Z) : option Z :=
  match o with
  | Some n => if n =? 0 then None else Some n
  | None => None
  end.

Definition formatVehicle (v : RealtimeVehicle.t) : result FormattedVehicle.t :=
  lastUpdate <- isoOfSeconds (RealtimeVehicle.lastUpdate v) ;;
  Ok {| FormattedVehicle.id := RealtimeVehicle.id v;
        FormattedVehicle.label := RealtimeVehicle.label v;
        FormattedVehicle.lastUpdate := lastUpdate;
        FormattedVehicle.location := RealtimeVehicle.location v;
        FormattedVehicle.occupancy := RealtimeVehicle.occupancy v;
        FormattedVehicle.wifi := RealtimeVehicle.wifi v |}.

(** [s === "IS_REAL_TIME"] on an optional string. *)
Definition is_real_time (status : option string) : bool :=
  match status with
  | Some s => String.eqb s "IS_REAL_TIME"
  | None => false
  end.

(** The object pushed for one service of an embarkation stop. *)
Definition formatDeparture (service : ServiceInfo.t)
  : result FormattedDeparture.t :=
  scheduledDeparture <- isoOfSeconds (ServiceInfo.startTime service) ;;
  realTimeDeparture <-
    whenSome (if_nonzero (ServiceInfo.realTimeDeparture service))
             isoOfSeconds ;;
  vehicle <- whenSome (ServiceInfo.realtimeVehicle service) formatVehicle ;;
  Ok {| FormattedDeparture.scheduledDeparture := scheduledDeparture;
        FormattedDeparture.realTimeDeparture := realTimeDeparture;
        FormattedDeparture.realTime :=
          is_real_time (ServiceInfo.realTimeStatus service);
        FormattedDeparture.service :=
          {| FormattedService.id := ServiceInfo.serviceTripID service;
             FormattedService.name := ServiceInfo.serviceName service;
             FormattedService.number := ServiceInfo.serviceNumber service;
             FormattedService.direction :=
               ServiceInfo.serviceDirection service;
             FormattedService.operator := ServiceInfo.operator service;
             FormattedService.mode := ServiceInfo.mode service |};
        FormattedDeparture.wheelchairAccessible :=
          ServiceInfo.wheelchairAccessible service;
        FormattedDeparture.vehicle := vehicle |}.

(** [data.stops?.find((s) => s.code === stopCode)]. *)
Definition findStop (data : DeparturesResponse.t) (stopCode : string)
  : option Location.t :=
  option_bind (DeparturesResponse.stops data)
    (find (fun s => match Location.code s with
                    | Some c => String.eqb c stopCode
                    | None => false
                    end)).

(** The body of the loop over [data.embarkationStops].  The stop is looked
    up, and the entries are built from the service alone. *)
Definition formatEmbarkationStop (data : DeparturesResponse.t)
  (embarkationStop : EmbarkationStop.t) : result (list FormattedDeparture.t) :=
  let stopCode := EmbarkationStop.stopCode embarkationStop in
  let stop := findStop data stopCode in
  match EmbarkationStop.services embarkationStop with
  | Some services => mapM formatDeparture services
  | None => Ok []
  end.

Definition departuresBody (h : Host) (region : string)
  (stopCodes : list string) (timeStamp : option string) (limit : option Z)
  : result DeparturesBody.t :=
  ts <- whenSome (if_truthy timeStamp)
                 (fun t => formatDateForTripGo h t "UTC") ;;
  Ok {| DeparturesBody.region := region;
        DeparturesBody.embarkationStops := stopCodes;
        DeparturesBody.timeStamp := ts;
        DeparturesBody.limit :=
          Some (match if_nonzero limit with Some n => n | None => 10 end) |}.

(** [handleDepartures]; [data] is the parsed body of the answer. *)
Definition handleDepartures (h : Host) (data : DeparturesResponse.t)
  (region : string) (stopCodes : list string) (timeStamp : option string)
  (limit : option Z) : result DeparturesOutput.t :=
  requestBody <- departuresBody h region stopCodes timeStamp limit ;;
  (* await fetch(url, { method: "POST", body: requestBody }) *)
  _ <- throwOnError "Departures search failed: "
                    (DeparturesResponse.error data) ;;
  perStop <- mapM (formatEmbarkationStop data)
                  (match DeparturesResponse.embarkationStops data with
                   | Some l => l
                   | None => []
                   end) ;;
  Ok {| DeparturesOutput.departures := concat perStop;
        DeparturesOutput.query_region := region;
        DeparturesOutput.query_stopCodes := stopCodes |}.

(** ** The tools

    Each tool runs its handler and rethrows what it catches as
    [Error in <tool>: <message>]. *)

Definition exn_message (e : exn) : string :=
  match e with
  | TypeError m => m
  | RangeError m => m
  | Error m => m
  end.

Definition rethrow {A} (tool : string) (r : result A) : result A :=
  match r with
  | Ok a => Ok a
  | Err e => Err (Error ("Error in " +++ tool +++ ": " +++ exn_message e))
  end.

(** The schema of the routing tool gives [limit] the default 3. *)
Definition tripgoRoutingTool_execute (g : Geo) (h : Host)
  (regionsData : RegionsResponse.t) (data : RoutingResponse.t)
  (params : RoutingArgs) : result RoutingOutput.t :=
  let limit := match limit params with Some n => n | None => 3 end in
  rethrow "tripgo_routing"
    (handleRouting g h regionsData data
       {| fromLat := fromLat params; fromLng := fromLng params;
          toLat := toLat params; toLng := toLng params;
          departureTime := departureTime params;
          arrivalTime := arrivalTime params;
          modes := modes params;
          maxWalkingTime := maxWalkingTime params;
          wheelchair := wheelchair params;
          limit := Some limit |}).

Definition tripgoSaveTool_execute (data : SaveTripResponse.t)
  : result SaveTripOutput.t :=
  rethrow "tripgo_save" (handleSaveTrip data).

Definition tripgoLocationsTool_execute (data : LocationsResponse.t)
  : result LocationsOutput.t :=
  rethrow "tripgo_locations" (handleLocationsSearch data).

(** The schema of the departures tool gives [limit] the default 10. *)
Definition tripgoDeparturesTool_execute (h : Host)
  (data : DeparturesResponse.t) (region : string) (stopCodes : list string)
  (timeStamp : option string) (limit : option Z)
  : result DeparturesOutput.t :=
  let limit := match limit with Some n => n | None => 10 end in
  rethrow "tripgo_departures"
    (handleDepartures h data region stopCodes timeStamp (Some limit)).

(** ** The departures formatter of the earlier revision

    The first revision of [tripgo.ts] in the repository formats a departure
    with the code of its stop and the name found for it in [data.stops]. *)

Module Earlier.

Module FormattedService.
Record t : Type := {
  id : string;
  name : option string;
  number : option string;
  direction : option string;
  operator : option string;
  operatorID : option string;
  mode : option string;
  routeID : option string;
  color : option Color.t;
  textColor : option Color.t
}.
End FormattedService.

Module FormattedDeparture.
Record t : Type := {
  stopCode : string;
  stopName : option string;
  scheduledDeparture : string;
  realTimeDeparture : option string;
  realTime : bool;
  service : FormattedService.t;
  wheelchairAccessible : option bool;
  vehicle : option FormattedVehicle.t
}.
End FormattedDeparture.

Module DeparturesOutput.
Record t : Type := {
  departures : list FormattedDeparture.t;
  stops : option (list Location.t);
  query_region : string;
  query_stopCodes : list string
}.
End DeparturesOutput.

Definition formatDeparture (stopCode : string) (stop : option Location.t)
  (service : ServiceInfo.t) : result FormattedDeparture.t :=
  scheduledDeparture <- isoOfSeconds (ServiceInfo.startTime service) ;;
  realTimeDeparture <-
    whenSome (if_nonzero (ServiceInfo.realTimeDeparture service))
             isoOfSeconds ;;
  vehicle <- whenSome (ServiceInfo.realtimeVehicle service) formatVehicle ;;
  Ok {| FormattedDeparture.stopCode := stopCode;
        FormattedDeparture.stopName := option_bind stop Location.name;
        FormattedDeparture.scheduledDeparture := scheduledDeparture;
        FormattedDeparture.realTimeDeparture := realTimeDeparture;
        FormattedDeparture.realTime :=
          is_real_time (ServiceInfo.realTimeStatus service);
        FormattedDeparture.service :=
          {| FormattedService.id := ServiceInfo.serviceTripID service;
             FormattedService.name := ServiceInfo.serviceName service;
             FormattedService.number := ServiceInfo.serviceNumber service;
             FormattedService.direction :=
               ServiceInfo.serviceDirection service;
             FormattedService.operator := ServiceInfo.operator service;
             FormattedService.operatorID := ServiceInfo.operatorID service;
             FormattedService.mode := ServiceInfo.mode service;
             FormattedService.routeID := ServiceInfo.routeID service;
             FormattedService.color := ServiceInfo.serviceColor service;
             FormattedService.textColor :=
               ServiceInfo.serviceTextColor service |};
        FormattedDeparture.wheelchairAccessible :=
          ServiceInfo.wheelchairAccessible service;
        FormattedDeparture.vehicle := vehicle |}.

Definition formatEmbarkationStop (data : DeparturesResponse.t)
  (embarkationStop : EmbarkationStop.t) : result (list FormattedDeparture.t) :=
  let stopCode := EmbarkationStop.stopCode embarkationStop in
  let stop := findStop data stopCode in
  match EmbarkationStop.services embarkationStop with
  | Some services => mapM (formatDeparture stopCode stop) services
  | None => Ok []
  end.

(** The response half of the earlier [handleDepartures]; its request cannot
    throw. *)
Definition handleDepartures (data : DeparturesResponse.t)
  (region : string) (stopCodes : list string) : result DeparturesOutput.t :=
  _ <- throwOnError "Departures search failed: "
                    (DeparturesResponse.error data) ;;
  perStop <- mapM (formatEmbarkationStop data)
                  (match DeparturesResponse.embarkationStops data with
                   | Some l => l
                   | None => []
                   end) ;;
  Ok {| DeparturesOutput.departures := concat perStop;
        DeparturesOutput.stops := DeparturesResponse.stops data;
        DeparturesOutput.query_region := region;
        DeparturesOutput.query_stopCodes := stopCodes |}.

End Earlier.

(** * A reference environment

    One concrete [Geo] and the ingredients of one concrete [Host], to run
    the handlers on examples.  The properties below hold for every [Geo] and
    every [Host]; these instances show that their hypotheses can be met. *)

(** ** Encoded polylines

    The encoded polyline format the source cites: each number is a delta in
    units of 1e-5 degree, zig-zag encoded, cut in 5-bit chunks from the low
    end, each chunk offset by 63 with bit 0x20 set when more follow. *)
Fixpoint decode_value (s : list ascii) (shift acc : Z) : Z * list ascii :=
  match s with
  | [] => (if Z.odd acc then - (acc / 2) - 1 else acc / 2, [])
  | c :: r =>
      let b := Z.of_N (N_of_ascii c) - 63 in
      let acc' := acc + Z.land b 31 * shift in
      if 32 <=? b then decode_value r (shift * 32) acc'
      else (if Z.odd acc' then - (acc' / 2) - 1 else acc' / 2, r)
  end.

Fixpoint decode_points (fuel : nat) (s : list ascii) (lat lng : Z)
  : list Position :=
  match fuel, s with
  | O, _ => []
  | _, [] => []
  | S f, _ =>
      let '(dlat, s1) := decode_value s 1 0 in
      let '(dlng, s2) := decode_value s1 1 0 in
      let lat' := lat + dlat in
      let lng' := lng + dlng in
      (lat' # 100000, lng' # 100000) :: decode_points f s2 lat' lng'
  end.

Definition decode (str : string) : list Position :=
  decode_points (String.length str) (list_ascii_of_string str) 0 0.

(** ** A polygon constructor and an even-odd test *)

Definition Qltb (a b : Q) : bool := negb (Qle_bool b a).

Definition position_eqb (a b : Position) : bool :=
  Qeq_bool (fst a) (fst b) && Qeq_bool (snd a) (snd b).

(** A linear ring needs four positions, the last one equal to the first. *)
Definition linear_ring_ok (ring : list Position) : bool :=
  match ring with
  | [] => false
  | first :: _ =>
      (4 <=? length ring)%nat && position_eqb first (last ring first)
  end.

Definition reference_polygon (rings : list (list Position))
  : result (list (list Position)) :=
  if forallb linear_ring_ok rings then Ok rings
  else Err (Error "Each LinearRing of a Polygon must have 4 or more Positions.").

(** The edge from [a] to [b] crosses the ray that leaves [p] eastwards. *)
Definition crosses (p a b : Position) : bool :=
  let '(px, py) := p in
  let '(xi, yi) := a in
  let '(xj, yj) := b in
  negb (Bool.eqb (Qltb py yi) (Qltb py yj))
  && Qltb px ((xj - xi) * (py - yi) / (yj - yi) + xi).

Fixpoint crossings (p : Position) (ring : list Position) : bool :=
  match ring with
  | a :: (b :: _) as r => xorb (crosses p a b) (crossings p r)
  | _ => false
  end.

Definition reference_geo : Geo :=
  {| polyline_decode := fun s => Ok (decode s);
     polygon := reference_polygon;
     booleanPointInPolygon :=
       fun p rings => match rings with
                      | ring :: _ => crossings p ring
                      | [] => false
                      end |}.

(** ** Reading an ISO date-time *)

Definition digit_val (c : ascii) : option Z :=
  if is_digit c then Some (Z.of_N (N_of_ascii c) - 48) else None.

Definition number2 (a b : ascii) : option Z :=
  match digit_val a, digit_val b with
  | Some x, Some y => Some (10 * x + y)
  | _, _ => None
  end.

Definition number4 (a b c d : ascii) : option Z :=
  match number2 a b, number2 c d with
  | Some x, Some y => Some (100 * x + y)
  | _, _ => None
  end.

Definition valid_wallb (w : WallClock) : bool :=
  (1 <=? month w) && (month w <=? 12)
  && (1 <=? day w) && (day w <=? days_in_month (year w) (month w))
  && (0 <=? hour w) && (hour w <? 24)
  && (0 <=? minute w) && (minute w <? 60)
  && (0 <=? second w) && (second w <? 60).

(** The offset, in seconds, that the text after the seconds denotes: nothing
    (local time, which is UTC for the process), [Z], or [+HH:MM] / [-HH:MM]. *)
Definition read_offset (s : list ascii) : option Z :=
  match s with
  | [] => Some 0
  | [z] => if Ascii.eqb z "Z" then Some 0 else None
  | [sign; h1; h2; colon; m1; m2] =>
      match number2 h1 h2, number2 m1 m2 with
      | Some hh, Some mm =>
          if negb (Ascii.eqb colon ":") then None
          else if Ascii.eqb sign "+" then Some (hh * 3600 + mm * 60)
          else if Ascii.eqb sign "-" then Some (- (hh * 3600 + mm * 60))
          else None
      | _, _ => None
      end
  | _ => None
  end.

(** [Date.parse] on [YYYY-MM-DDTHH:MM:SS] with an optional offset; any other
    text is NaN here. *)
Definition reference_parse (str : string) : option Z :=
  match list_ascii_of_string str with
  | y1 :: y2 :: y3 :: y4 :: s1 :: mo1 :: mo2 :: s2 :: d1 :: d2 :: t
    :: h1 :: h2 :: c1 :: mi1 :: mi2 :: c2 :: se1 :: se2 :: rest =>
      match number4 y1 y2 y3 y4, number2 mo1 mo2, number2 d1 d2,
            number2 h1 h2, number2 mi1 mi2, number2 se1 se2,
            read_offset rest with
      | Some y, Some mo, Some d, Some hh, Some mi, Some se, Some off =>
          let w := {| year := y; month := mo; day := d;
                      hour := hh; minute := mi; second := se |} in
          if Ascii.eqb s1 "-" && Ascii.eqb s2 "-" && Ascii.eqb t "T"
             && Ascii.eqb c1 ":" && Ascii.eqb c2 ":" && valid_wallb w
          then Some (1000 * (wall_to_epoch w - off))
          else None
      | _, _, _, _, _, _, _ => None
      end
  | _ => None
  end.

(** ** Two zones *)

(** Day number of the first Sunday of a month; 1970-01-01 was a Thursday. *)
Definition first_sunday (y m : Z) : Z :=
  let d1 := days_from_civil y m 1 in
  d1 + (7 - (d1 + 4) mod 7) mod 7.

(** Australia/Sydney under the rule in force since 2008: daylight time
    (UTC+11) until 03:00 on the first Sunday of April and from 02:00
    standard time on the first Sunday of October, standard time (UTC+10)
    in between. *)
Definition sydney_offset (t : Z) : Z :=
  let '(y, _, _) := civil_from_days (t / 86400) in
  let dst_end := first_sunday y 4 * 86400 + 3 * 3600 - 39600 in
  let dst_start := first_sunday y 10 * 86400 + 2 * 3600 - 36000 in
  if (t <? dst_end) || (dst_start <=? t) then 39600 else 36000.

Definition reference_timeZone (name : string) : option (Z -> Z) :=
  if String.eqb name "UTC" then Some (fun _ => 0)
  else if String.eqb name "Australia/Sydney" then Some sydney_offset
  else None.

(** [GMT+10:00], [GMT-05:00], and [GMT] alone for no offset. *)
Definition reference_longOffset (off : Z) : string :=
  if off =? 0 then "GMT"
  else "GMT" +++ (if off <? 0 then "-" else "+")
       +++ pad2 (Z.abs off / 3600) +++ ":" +++ pad2 (Z.abs off mod 3600 / 60).

(** ** Sample data *)

Definition sydney : Region.t :=
  {| Region.name := "AU_NSW_Sydney";
     Region.polygon := "~tvoE_pqu[?_ibE_g{C??~hbE";
     Region.timezone := "Australia/Sydney" |}.

Definition melbourne : Region.t :=
  {| Region.name := "AU_VIC_Melbourne";
     Region.polygon := "~|chF_t}pZ?_ibE_g{C??~hbE";
     Region.timezone := "Australia/Melbourne" |}.

Definition sample_regions : RegionsResponse.t :=
  {| RegionsResponse.regions := Some [melbourne; sydney] |}.

(** From (-33.87, 151.21) to (-33.86, 151.20), at most two groups. *)
Definition sample_args : RoutingArgs :=
  {| fromLat := -3387 # 100; fromLng := 15121 # 100;
     toLat := -3386 # 100; toLng := 15120 # 100;
     departureTime := None; arrivalTime := None; modes := None;
     maxWalkingTime := None; wheelchair := None; limit := Some 2 |}.

Definition walk : SegmentTemplate.t :=
  {| SegmentTemplate.hashCode := 101;
     SegmentTemplate.modeInfo :=
       {| ModeInfo.identifier := "wa_wal"; ModeInfo.alt := "Walk" |};
     SegmentTemplate.from := None; SegmentTemplate.to := None;
     SegmentTemplate.action := Some "Walk to the station";
     SegmentTemplate.notes := None |}.

Definition leg (code startTime endTime : Z) : SegmentReference.t :=
  {| SegmentReference.segmentTemplateHashCode := code;
     SegmentReference.startTime := startTime;
     SegmentReference.endTime := endTime;
     SegmentReference.serviceName := None;
     SegmentReference.serviceNumber := None |}.

(** A trip that leaves at 2025-07-18T09:00:00Z and takes [minutes]. *)
Definition sample_trip (id : string) (minutes : Z) (score : Q) : Trip.t :=
  {| Trip.id := id;
     Trip.arrive := 1752829200 + 60 * minutes;
     Trip.depart := 1752829200;
     Trip.moneyCost := None; Trip.currencySymbol := None;
     Trip.caloriesCost := None; Trip.carbonCost := None;
     Trip.segments := [leg 101 1752829200 (1752829200 + 60 * minutes)];
     Trip.weightedScore := score;
     Trip.saveURL := None |}.

Definition group (trips : list Trip.t) : TripGroup.t :=
  {| TripGroup.trips := trips |}.

Definition routing_response (groups : list TripGroup.t) : RoutingResponse.t :=
  {| RoutingResponse.error := None;
     RoutingResponse.errorMessage := None;
     RoutingResponse.groups := Some groups;
     RoutingResponse.segmentTemplates := Some [walk] |}.

(** Three groups whose best scores are 5, 1 and 3. *)
Definition sample_groups : list TripGroup.t :=
  [ group [sample_trip "a2" 40 7; sample_trip "a1" 30 5];
    group [sample_trip "b3" 25 4; sample_trip "b1" 10 1;
           sample_trip "b2" 20 2];
    group [sample_trip "c1" 15 3] ].

Definition sample_stop : Location.t :=
  {| Location.lat := -3388 # 100; Location.lng := 15120 # 100;
     Location.address := None; Location.name := Some "Central Station";
     Location.code := Some "200060"; Location.region := Some "AU_NSW_Sydney";
     Location.services := None |}.

Definition sample_service : ServiceInfo.t :=
  {| ServiceInfo.startTime := 1752829200;
     ServiceInfo.serviceTripID := "T1-0900";
     ServiceInfo.serviceName := Some "North Shore Line";
     ServiceInfo.serviceDirection := None;
     ServiceInfo.serviceNumber := Some "T1";
     ServiceInfo.serviceColor := None;
     ServiceInfo.serviceTextColor := None;
     ServiceInfo.routeID := None;
     ServiceInfo.operatorID := None;
     ServiceInfo.operator := Some "Sydney Trains";
     ServiceInfo.mode := Some "train";
     ServiceInfo.wheelchairAccessible := None;
     ServiceInfo.realTimeStatus := None;
     ServiceInfo.realtimeVehicle := None;
     ServiceInfo.realTimeDeparture := None |}.

(** Departures of one stop, and the list of stops that names it. *)
Definition departures_response (stops : option (list Location.t))
  : DeparturesResponse.t :=
  {| DeparturesResponse.error := None;
     DeparturesResponse.errorMessage := None;
     DeparturesResponse.embarkationStops :=
       Some [{| EmbarkationStop.stopCode := "200060";
                EmbarkationStop.wheelchairAccessible := None;
                EmbarkationStop.services := Some [sample_service] |}];
     DeparturesResponse.stops := stops |}.

(** * Properties *)

(** ** The stable sort *)

(** What the specification asks of a stable ascending sort by [key]: the
    same elements, in ascending order of [key], and elements with the same
    key in their original relative order. *)
Definition stable_sorted_by {A} (key : A -> Q) (l l' : list A) : Prop :=
  Permutation l l'
  /\ StronglySorted (fun a b => key a <= key b)%Q l'
  /\ forall k, filter (fun a => Qeq_bool (key a) k) l'
               = filter (fun a => Qeq_bool (key a) k) l.

Section SortByKey.

Context {A : Type} (key : A -> Q).

Local Abbreviation cmp := (fun a b => (key a - key b)%Q).

Lemma cmp_le x y : Qle_bool (cmp x y) 0 = true <-> (key x <= key y)%Q.
Proof. rewrite Qle_bool_iff. split; intros H; lra. Qed.

Lemma cmp_gt x y : Qle_bool (cmp x y) 0 = false <-> (key y < key x)%Q.
Proof.
  split; intros H.
  - destruct (Qlt_le_dec (key y) (key x)) as [Hlt|Hle]; [exact Hlt|].
    apply cmp_le in Hle. congruence.
  - destruct (Qle_bool (cmp x y) 0) eqn:E; [|reflexivity].
    apply cmp_le in E. lra.
Qed.

Lemma sort_insert_perm x l : Permutation (x :: l) (sort_insert cmp x l).
Proof.
  induction l as [|y r IH]; cbn; [reflexivity|].
  destruct (Qle_bool (cmp x y) 0); [reflexivity|].
  rewrite perm_swap. now constructor.
Qed.

Lemma sort_perm l : Permutation l (sort cmp l).
Proof.
  induction l as [|x r IH]; cbn; [constructor|].
  rewrite <- sort_insert_perm. now constructor.
Qed.

Lemma sort_insert_sorted x l :
  StronglySorted (fun a b => key a <= key b)%Q l ->
  StronglySorted (fun a b => key a <= key b)%Q (sort_insert cmp x l).
Proof.
  induction 1 as [|y r Hs IH Hy]; cbn.
  - repeat constructor.
  - destruct (Qle_bool (cmp x y) 0) eqn:E.
    + apply cmp_le in E. constructor; [now constructor|].
      constructor; [exact E|].
      eapply Forall_impl; [|exact Hy]. cbn. intros z Hz. lra.
    + apply cmp_gt in E. constructor; [exact IH|].
      eapply Permutation_Forall; [apply sort_insert_perm|].
      constructor; [lra|exact Hy].
Qed.

Lemma sort_sorted l : StronglySorted (fun a b => key a <= key b)%Q (sort cmp l).
Proof.
  induction l as [|x r IH]; cbn; [constructor|].
  now apply sort_insert_sorted.
Qed.

Lemma sort_insert_filter k x l :
  filter (fun a => Qeq_bool (key a) k) (sort_insert cmp x l)
  = filter (fun a => Qeq_bool (key a) k) (x :: l).
Proof.
  induction l as [|y r IH]; [reflexivity|].
  cbn [sort_insert]. destruct (Qle_bool (cmp x y) 0) eqn:E; [reflexivity|].
  apply cmp_gt in E. cbn [filter] in *. rewrite IH.
  destruct (Qeq_bool (key x) k) eqn:Ex; [|reflexivity].
  destruct (Qeq_bool (key y) k) eqn:Ey; [|reflexivity].
  apply Qeq_bool_iff in Ex, Ey. lra.
Qed.

Lemma sort_filter k l :
  filter (fun a => Qeq_bool (key a) k) (sort cmp l)
  = filter (fun a => Qeq_bool (key a) k) l.
Proof.
  induction l as [|x r IH]; [reflexivity|].
  cbn [sort]. rewrite sort_insert_filter. cbn [filter]. now rewrite IH.
Qed.

Lemma sort_stable_sorted l : stable_sorted_by key l (sort cmp l).
Proof.
  split; [apply sort_perm|]. split; [apply sort_sorted|].
  intros k. apply sort_filter.
Qed.

End SortByKey.

Lemma sort_ext {A} (c1 c2 : A -> A -> Q) (l : list A) :
  (forall a b, In a l -> In b l -> Qle_bool (c1 a b) 0 = Qle_bool (c2 a b) 0) ->
  sort c1 l = sort c2 l.
Proof.
  induction l as [|x r IH]; intros H; [reflexivity|].
  cbn [sort]. rewrite <- IH by (intros; apply H; now right).
  assert (Hin : forall b, In b (sort c1 r) -> In b r).
  { intros b Hb. revert Hb. clear. induction r as [|y r IH]; cbn; [tauto|].
    generalize (sort c1 r) IH. clear IH. intros s IH Hb.
    assert (Hs : forall s', In b (sort_insert c1 y s') -> b = y \/ In b s').
    { clear. induction s' as [|z s' IH]; cbn.
      - intros [->|[]]. now left.
      - destruct (Qle_bool (c1 y z) 0); cbn.
        + intros [->|[->|H]]; auto.
        + intros [->|H]; auto. destruct (IH H); auto. }
    destruct (Hs _ Hb) as [->|Hb']; auto. }
  assert (Hx : forall b, In b (sort c1 r) ->
                         Qle_bool (c1 x b) 0 = Qle_bool (c2 x b) 0).
  { intros b Hb. apply H; [now left|right; now apply Hin]. }
  revert Hx. generalize (sort c1 r). clear.
  induction l as [|y l IH]; intros Hx; [reflexivity|].
  cbn [sort_insert]. rewrite <- Hx by now left.
  destruct (Qle_bool (c1 x y) 0); [reflexivity|].
  f_equal. apply IH. intros b Hb. apply Hx. now right.
Qed.

Lemma sort_map {A B} (f : A -> B) (c : B -> B -> Q) (l : list A) :
  map f (sort (fun a b => c (f a) (f b)) l) = sort c (map f l).
Proof.
  induction l as [|x r IH]; [reflexivity|].
  cbn [sort map]. rewrite <- IH.
  generalize (sort (fun a b => c (f a) (f b)) r). clear.
  induction l as [|y l IH]; [reflexivity|].
  cbn [sort_insert map]. destruct (Qle_bool (c (f x) (f y)) 0); cbn [map].
  - reflexivity.
  - now rewrite IH.
Qed.

Lemma sort_nil_inv {A} (c : A -> A -> Q) (l : list A) : sort c l = [] -> l = [].
Proof.
  destruct l as [|x r]; [reflexivity|]. cbn [sort].
  destruct (sort c r) as [|y s]; cbn; [discriminate|].
  destruct (Qle_bool (c x y) 0); discriminate.
Qed.

(** ** The error monad *)

Lemma mapM_total {A B} (f : A -> result B) (f' : A -> B) (l : list A) :
  (forall a, In a l -> f a = Ok (f' a)) -> mapM f l = Ok (map f' l).
Proof.
  induction l as [|x r IH]; intros H; [reflexivity|].
  cbn. rewrite (H x) by now left. cbn.
  rewrite IH by (intros; apply H; now right). reflexivity.
Qed.

Lemma mapM_app {A B} (f : A -> result B) (l1 l2 : list A) :
  mapM f (l1 ++ l2)
  = (a <- mapM f l1 ;; b <- mapM f l2 ;; Ok (a ++ b)).
Proof.
  induction l1 as [|x r IH]; cbn.
  - destruct (mapM f l2); reflexivity.
  - destruct (f x); cbn; [|reflexivity]. rewrite IH.
    destruct (mapM f r); cbn; [|reflexivity].
    destruct (mapM f l2); reflexivity.
Qed.

Lemma mapM_concat {A B C} (f : A -> result B) (t : C -> list A) (l : list C) :
  (perGroup <- mapM (fun x => mapM f (t x)) l ;; Ok (concat perGroup))
  = mapM f (concat (map t l)).
Proof.
  induction l as [|x r IH]; [reflexivity|].
  cbn [map concat mapM]. rewrite mapM_app. rewrite <- IH.
  destruct (mapM f (t x)); cbn; [|reflexivity].
  destruct (mapM _ r); reflexivity.
Qed.

(** ** Trip selection *)

(** The score that ranks a group: the score of its first trip once its
    trips are in ascending order. *)
Definition representativeScore (ts : list Trip.t) : Q :=
  match ts with
  | best :: _ => Trip.weightedScore best
  | [] => 0
  end.

(** The groups as [selectedGroups] ranks them: each group sorted and cut to
    its best two trips. *)
Definition bestTwo (group : TripGroup.t) : list Trip.t :=
  firstn 2 (sort byWeightedScore (TripGroup.trips group)).

Lemma selectGroup_total group :
  TripGroup.trips group <> [] ->
  selectGroup group
  = Ok {| SelectedGroup.trips := bestTwo group;
          SelectedGroup.score := representativeScore (bestTwo group) |}.
Proof.
  intros H. unfold selectGroup, bestTwo.
  destruct (sort byWeightedScore (TripGroup.trips group)) as [|b s] eqn:E.
  - apply sort_nil_inv in E. contradiction.
  - reflexivity.
Qed.

Lemma selectedGroups_total data groups limit :
  RoutingResponse.groups data = Some groups ->
  Forall (fun g => TripGroup.trips g <> []) groups ->
  exists selected,
    selectedGroups data limit = Ok (slice0 selected limit)
    /\ map SelectedGroup.trips selected
       = sort (fun a b => representativeScore a - representativeScore b)%Q
              (map bestTwo groups).
Proof.
  intros Hg Hne. unfold selectedGroups. rewrite Hg.
  set (sel := fun g => {| SelectedGroup.trips := bestTwo g;
                          SelectedGroup.score :=
                            representativeScore (bestTwo g) |}).
  rewrite (mapM_total selectGroup sel).
  2:{ intros g Hin. apply selectGroup_total.
      rewrite Forall_forall in Hne. now apply Hne. }
  cbn. eexists. split; [reflexivity|].
  replace (map bestTwo groups)
    with (map SelectedGroup.trips (map sel groups))
    by (rewrite map_map; reflexivity).
  rewrite <- (sort_map SelectedGroup.trips). f_equal. apply sort_ext.
  intros a b Ha Hb. apply in_map_iff in Ha, Hb.
  destruct Ha as (ga & <- & _), Hb as (gb & <- & _). reflexivity.
Qed.

Lemma representativeScore_firstn ts :
  representativeScore (firstn 2 ts) = representativeScore ts.
Proof. destruct ts as [|a [|b r]]; reflexivity. Qed.

Lemma slice0_nonneg {A} (l : list A) (n : Z) :
  0 <= n -> slice0 l (Some n) = firstn (Z.to_nat n) l.
Proof.
  intros H. unfold slice0. destruct (Z.ltb_spec n 0); [lia|reflexivity].
Qed.

(** The representative score of a sorted group is the lowest score of the
    group. *)
Lemma representativeScore_lowest (ts sorted : list Trip.t) :
  stable_sorted_by Trip.weightedScore ts sorted ->
  forall t, In t ts -> (representativeScore sorted <= Trip.weightedScore t)%Q.
Proof.
  intros (Hp & Hs & _) t Ht.
  apply (Permutation_in _ Hp) in Ht.
  destruct sorted as [|b r]; [contradiction|].
  cbn [representativeScore]. destruct Ht as [<-|Ht]; [lra|].
  inversion Hs as [|? ? _ Hall]; subst.
  rewrite Forall_forall in Hall. now apply Hall.
Qed.

(** C1.  For a routing response whose groups all have trips and a limit
    [N >= 0], [handleRouting] formats exactly the trips obtained by stably
    sorting each group by [weightedScore], keeping the first two of each,
    stably ranking the groups by the score of their best trip (the lowest
    of the group), keeping the first [N] groups and flattening them in
    order.  With three groups whose
    best scores are 5, 1 and 3 and a limit of 2, these are the best two
    trips of the second group followed by the best two of the third. *)
Theorem routing_formats_best_trips_of_best_groups :
  forall (g : Geo) (h : Host) (regionsData : RegionsResponse.t)
         (data : RoutingResponse.t) (a : RoutingArgs)
         (groups : list TripGroup.t) (N : Z),
    RoutingResponse.groups data = Some groups ->
    Forall (fun grp => TripGroup.trips grp <> []) groups ->
    limit a = Some N ->
    0 <= N ->
    exists sortedGroups ranked : list (list Trip.t),
      Forall2 (fun grp s =>
                 stable_sorted_by Trip.weightedScore (TripGroup.trips grp) s
                 /\ forall t, In t (TripGroup.trips grp) ->
                       (representativeScore s <= Trip.weightedScore t)%Q)
              groups sortedGroups
      /\ stable_sorted_by representativeScore
                          (map (firstn 2) sortedGroups) ranked
      /\ handleRouting g h regionsData data a
         = (region <- getRegionForCoordinate g regionsData
                        {| lat := fromLat a; lng := fromLng a |} ;;
            url <- routingUrl h (displayTimezone region) a ;;
            _ <- throwOnError "Routing failed: "
                              (RoutingResponse.error data) ;;
            formatted <- mapM (formatTrip h (displayTimezone region) data)
                              (concat (firstn (Z.to_nat N) ranked)) ;;
            Ok (routingOutput a url formatted))
      /\ (forall s1 s2 s3,
             sortedGroups = [s1; s2; s3] ->
             (representativeScore s1 == 5)%Q ->
             (representativeScore s2 == 1)%Q ->
             (representativeScore s3 == 3)%Q ->
             N = 2 ->
             concat (firstn (Z.to_nat N) ranked) = firstn 2 s2 ++ firstn 2 s3).
Proof.
  intros g h regionsData data a groups N Hg Hne Hlim HN.
  destruct (selectedGroups_total data groups (Some N) Hg Hne)
    as (selected & Hsel & Hranked).
  exists (map (fun grp => sort byWeightedScore (TripGroup.trips grp)) groups).
  exists (map SelectedGroup.trips selected).
  assert (Hmap : map (firstn 2)
                   (map (fun grp => sort byWeightedScore (TripGroup.trips grp))
                        groups) = map bestTwo groups)
    by (rewrite map_map; reflexivity).
  split; [|split; [|split]].
  - clear. induction groups as [|grp r IH]; cbn [map]; constructor;
      [|exact IH].
    pose proof (sort_stable_sorted Trip.weightedScore (TripGroup.trips grp))
      as Hs.
    split; [exact Hs|]. now apply representativeScore_lowest.
  - rewrite Hmap, Hranked. apply (sort_stable_sorted representativeScore).
  - unfold handleRouting. rewrite Hlim, Hsel.
    destruct (getRegionForCoordinate _ _ _) as [region|e]; [|reflexivity].
    cbn [bind]. destruct (routingUrl _ _ _) as [url|e]; [|reflexivity].
    cbn [bind]. destruct (throwOnError _ _) as [u|e]; [|reflexivity].
    cbn [bind]. unfold formattedTrips. rewrite mapM_concat.
    rewrite slice0_nonneg by exact HN. rewrite firstn_map. reflexivity.
  - intros s1 s2 s3 Hs H1 H2 H3 ->. rewrite Hranked, <- Hmap, Hs.
    rewrite <- representativeScore_firstn in H1, H2, H3.
    cbn [map]. revert H1 H2 H3.
    generalize (firstn 2 s1), (firstn 2 s2), (firstn 2 s3).
    intros t1 t2 t3 H1 H2 H3.
    assert (E23 : Qle_bool (representativeScore t2 - representativeScore t3) 0
                  = true) by (apply (cmp_le representativeScore); lra).
    assert (E12 : Qle_bool (representativeScore t1 - representativeScore t2) 0
                  = false) by (apply (cmp_gt representativeScore); lra).
    assert (E13 : Qle_bool (representativeScore t1 - representativeScore t3) 0
                  = false) by (apply (cmp_gt representativeScore); lra).
    cbn [sort sort_insert]. cbn beta. rewrite E23.
    cbn [sort_insert]. rewrite E12.
    cbn [sort_insert]. rewrite E13.
    change (Z.to_nat 2) with 2%nat. cbn [firstn concat].
    now rewrite app_nil_r.
Qed.

(** ** The calendar *)

Lemma month_day_of_doy m d :
  1 <= m <= 12 -> 1 <= d <= (if m =? 2 then 29 else days_in_month 1 m) ->
  month_day_of (doy_of m d) = (m, d).
Proof.
  intros Hm Hd.
  assert (Hc : m = 1 \/ m = 2 \/ m = 3 \/ m = 4 \/ m = 5 \/ m = 6 \/ m = 7
               \/ m = 8 \/ m = 9 \/ m = 10 \/ m = 11 \/ m = 12) by lia.
  unfold month_day_of, doy_of.
  repeat (destruct Hc as [Hc|Hc]); subst m;
    match type of Hd with _ <= _ <= ?t =>
      let v := eval vm_compute in t in change t with v in Hd end;
    cbn [Z.ltb Z.compare Pos.compare Pos.compare_cont];
    match goal with |- context [(153 * ?a + 2) / 5 + d - 1] =>
      let c := eval vm_compute in ((153 * a + 2) / 5) in
      change ((153 * a + 2) / 5) with c;
      let mp := eval vm_compute in a in
      replace ((5 * (c + d - 1) + 2) / 153) with mp
        by (Z.div_mod_to_equations; lia)
    end;
    match goal with |- context [(153 * ?a + 2) / 5] =>
      let c := eval vm_compute in ((153 * a + 2) / 5) in
      change ((153 * a + 2) / 5) with c end;
    cbv zeta; cbn [Z.ltb Z.compare Pos.compare Pos.compare_cont];
    f_equal; lia.
Qed.

Ltac split_leap H :=
  unfold leap_yoe in H;
  repeat match type of H with context [?a =? ?b] =>
    destruct (Z.eqb_spec a b) end;
  cbn [andb orb negb] in H.

Lemma yoe_of_doe yoe doy :
  0 <= yoe < 400 -> 0 <= doy ->
  doy <= (if leap_yoe yoe then 365 else 364) ->
  yoe_of (doe_of yoe doy) = yoe.
Proof.
  intros Hy Hd Hl. unfold yoe_of, doe_of. split_leap Hl;
    Z.div_mod_to_equations; lia.
Qed.

Lemma doe_of_bound yoe doy :
  0 <= yoe < 400 -> 0 <= doy ->
  doy <= (if leap_yoe yoe then 365 else 364) ->
  0 <= doe_of yoe doy < 146097.
Proof.
  intros Hy Hd Hl. unfold doe_of. split_leap Hl;
    Z.div_mod_to_equations; lia.
Qed.

Lemma is_leap_yoe y : is_leap y = leap_yoe (y - 1 - (y - 1) / 400 * 400).
Proof.
  unfold is_leap, leap_yoe.
  repeat match goal with |- context [?a =? ?b] =>
    destruct (Z.eqb_spec a b) end; cbn [andb orb negb]; try reflexivity;
    exfalso; Z.div_mod_to_equations; lia.
Qed.

Lemma doy_of_bound y m d :
  valid_date y m d ->
  let y' := if m <=? 2 then y - 1 else y in
  let yoe := y' - y' / 400 * 400 in
  0 <= doy_of m d
  /\ doy_of m d <= (if leap_yoe yoe then 365 else 364)
  /\ d <= (if m =? 2 then 29 else days_in_month 1 m).
Proof.
  unfold valid_date, days_in_month. intros [Hm Hd].
  assert (Hc : m = 1 \/ m = 2 \/ m = 3 \/ m = 4 \/ m = 5 \/ m = 6 \/ m = 7
               \/ m = 8 \/ m = 9 \/ m = 10 \/ m = 11 \/ m = 12) by lia.
  unfold doy_of.
  repeat (destruct Hc as [Hc|Hc]); subst m;
    cbn [Z.eqb Z.leb Z.ltb Z.compare Pos.compare Pos.compare_cont Pos.eqb orb]
      in *;
    cbv zeta;
    match goal with |- context [(153 * ?a + 2) / 5 + d - 1] =>
      let c := eval vm_compute in ((153 * a + 2) / 5) in
      change ((153 * a + 2) / 5) with c end;
    try rewrite <- is_leap_yoe;
    repeat match goal with |- context [if ?b then _ else _] => destruct b end;
    lia.
Qed.

(** A valid date is the date of its day number. *)
Lemma civil_from_days_from_civil y m d :
  valid_date y m d -> civil_from_days (days_from_civil y m d) = (y, m, d).
Proof.
  intros Hv. pose proof (doy_of_bound y m d Hv) as Hb. cbv zeta in Hb.
  destruct Hb as (Hb0 & Hb1 & Hb2).
  destruct Hv as [Hm Hd].
  unfold civil_from_days, days_from_civil. cbv zeta.
  set (y' := if m <=? 2 then y - 1 else y) in *.
  set (yoe := y' - y' / 400 * 400) in *.
  assert (Hyoe : 0 <= yoe < 400) by (subst yoe; Z.div_mod_to_equations; lia).
  pose proof (doe_of_bound yoe _ Hyoe Hb0 Hb1) as Hdoe.
  pose proof (yoe_of_doe yoe _ Hyoe Hb0 Hb1) as Hy.
  replace (y' / 400 * 146097 + doe_of yoe (doy_of m d) - 719468 + 719468)
    with (doe_of yoe (doy_of m d) + y' / 400 * 146097) by lia.
  rewrite Z.div_add by lia. rewrite (Z.div_small (doe_of _ _)) by lia.
  replace (doe_of yoe (doy_of m d) + y' / 400 * 146097
           - (0 + y' / 400) * 146097)
    with (doe_of yoe (doy_of m d)) by lia.
  rewrite Hy.
  replace (doe_of yoe (doy_of m d) - doe_of yoe 0) with (doy_of m d)
    by (unfold doe_of; lia).
  rewrite month_day_of_doy by lia.
  subst yoe y'. destruct (m <=? 2); f_equal; f_equal; lia.
Qed.

Lemma yoe_of_range doe :
  0 <= doe < 146097 ->
  0 <= yoe_of doe < 400 /\ 0 <= doe - doe_of (yoe_of doe) 0 <= 365.
Proof.
  intros H. unfold yoe_of, doe_of. Z.div_mod_to_equations. lia.
Qed.

Lemma doy_of_month_day doy :
  0 <= doy <= 365 ->
  doy_of (fst (month_day_of doy)) (snd (month_day_of doy)) = doy
  /\ 1 <= fst (month_day_of doy) <= 12.
Proof.
  intros H. unfold month_day_of, doy_of. cbv zeta. cbn [fst snd].
  assert (Hmp : 0 <= (5 * doy + 2) / 153 <= 11)
    by (Z.div_mod_to_equations; lia).
  remember ((5 * doy + 2) / 153) as mp eqn:E.
  assert (Hc : mp = 0 \/ mp = 1 \/ mp = 2 \/ mp = 3 \/ mp = 4 \/ mp = 5
               \/ mp = 6 \/ mp = 7 \/ mp = 8 \/ mp = 9 \/ mp = 10 \/ mp = 11)
    by lia.
  clear E.
  repeat (destruct Hc as [Hc|Hc]); subst mp;
    cbn [Z.ltb Z.compare Pos.compare Pos.compare_cont Z.add Z.sub Z.opp
         Z.pos_sub Pos.add Pos.succ Pos.pred_double Z.succ_double
         Z.pred_double Z.double Pos.add_carry];
    split; try lia.
  all: match goal with |- context [(153 * ?a + 2) / 5 + _] =>
      let v := eval vm_compute in a in change a with v end.
  all: lia.
Qed.

(** A day number is the day number of its date. *)
Lemma days_from_civil_from_days z :
  let '(y, m, d) := civil_from_days z in days_from_civil y m d = z.
Proof.
  unfold civil_from_days. cbv zeta.
  set (z' := z + 719468).
  set (era := z' / 146097).
  set (doe := z' - era * 146097).
  assert (Hdoe : 0 <= doe < 146097)
    by (subst doe era; Z.div_mod_to_equations; lia).
  destruct (yoe_of_range doe Hdoe) as [Hyoe Hdoy].
  set (yoe := yoe_of doe) in *.
  set (doy := doe - doe_of yoe 0) in *.
  destruct (doy_of_month_day doy Hdoy) as [Hmd Hm].
  destruct (month_day_of doy) as [m d]. cbn [fst snd] in *.
  unfold days_from_civil. cbv zeta.
  assert (Hy' : (if m <=? 2 then (if m <=? 2 then yoe + era * 400 + 1
                                   else yoe + era * 400) - 1
                 else (if m <=? 2 then yoe + era * 400 + 1
                       else yoe + era * 400)) = yoe + era * 400)
    by (destruct (m <=? 2); lia).
  rewrite Hy'.
  rewrite Z.div_add by lia. rewrite (Z.div_small yoe) by lia.
  replace (yoe + era * 400 - (0 + era) * 400) with yoe by lia.
  rewrite Hmd. subst doy doe z'. unfold doe_of in *. lia.
Qed.

Lemma epoch_to_wall_to_epoch w :
  valid_wall w -> epoch_to_wall (wall_to_epoch w) = w.
Proof.
  intros (Hd & Hh & Hm & Hs). destruct w as [y mo d hh mi ss].
  cbn [year month day hour minute second] in *.
  unfold epoch_to_wall, wall_to_epoch. cbn [year month day hour minute second].
  set (D := days_from_civil y mo d).
  assert (E1 : (D * 86400 + hh * 3600 + mi * 60 + ss) / 86400 = D)
    by (Z.div_mod_to_equations; lia).
  assert (E2 : (D * 86400 + hh * 3600 + mi * 60 + ss) mod 86400
               = hh * 3600 + mi * 60 + ss)
    by (Z.div_mod_to_equations; lia).
  rewrite E1, E2. subst D. rewrite civil_from_days_from_civil by exact Hd.
  f_equal; Z.div_mod_to_equations; lia.
Qed.

Lemma wall_to_epoch_to_wall t : wall_to_epoch (epoch_to_wall t) = t.
Proof.
  unfold epoch_to_wall, wall_to_epoch.
  pose proof (days_from_civil_from_days (t / 86400)) as H.
  destruct (civil_from_days (t / 86400)) as [[y m] d].
  cbn [year month day hour minute second]. rewrite H.
  Z.div_mod_to_equations. lia.
Qed.

(** ** Digits *)

Lemma digit_val_digit n : digit_val (digit n) = Some (n mod 10).
Proof.
  unfold digit_val, is_digit, digit.
  pose proof (Z.mod_pos_bound n 10 ltac:(lia)) as Hb.
  rewrite N_ascii_embedding by lia.
  replace ((48 <=? 48 + Z.to_N (n mod 10))%N
           && (48 + Z.to_N (n mod 10) <=? 57)%N) with true.
  - f_equal. lia.
  - symmetry. apply andb_true_iff. split; apply N.leb_le; lia.
Qed.

Lemma number2_pad n :
  0 <= n < 100 -> number2 (digit (n / 10)) (digit n) = Some n.
Proof.
  intros H. unfold number2. rewrite !digit_val_digit. f_equal.
  Z.div_mod_to_equations. lia.
Qed.

Lemma number4_pad y :
  0 <= y <= 9999 ->
  number4 (digit (y / 1000)) (digit (y / 100)) (digit (y / 10)) (digit y)
  = Some y.
Proof.
  intros H. unfold number4, number2. rewrite !digit_val_digit. f_equal.
  Z.div_mod_to_equations. lia.
Qed.

Lemma decimal_pad4 y : 1000 <= y <= 9999 -> decimal y = pad4 y.
Proof.
  intros H. unfold decimal, pad4, pad3, pad2.
  cbn [decimal_aux].
  replace (y <? 10) with false by (symmetry; apply Z.ltb_ge; lia).
  replace (y / 10 <? 10) with false
    by (symmetry; apply Z.ltb_ge; Z.div_mod_to_equations; lia).
  replace (y / 10 / 10 <? 10) with false
    by (symmetry; apply Z.ltb_ge; Z.div_mod_to_equations; lia).
  replace (y / 10 / 10 / 10 <? 10) with true
    by (symmetry; apply Z.ltb_lt; Z.div_mod_to_equations; lia).
  rewrite !Z.div_div by lia. reflexivity.
Qed.

Lemma valid_wallb_true w : valid_wall w -> valid_wallb w = true.
Proof.
  intros ((Hm & Hd) & Hh & Hmi & Hs). unfold valid_wallb.
  repeat (apply andb_true_iff; split);
    first [apply Z.leb_le | apply Z.ltb_lt]; lia.
Qed.

(** ** The reference host *)

Lemma reference_parse_iso w :
  valid_wall w -> 0 <= year w <= 9999 ->
  reference_parse (isoLocal w +++ "Z") = Some (1000 * wall_to_epoch w).
Proof.
  intros Hv Hy. pose proof Hv as ((Hm & Hd) & Hh & Hmi & Hs).
  assert (Hd31 : day w <= 31).
  { unfold days_in_month in Hd.
    repeat match type of Hd with context [if ?b then _ else _] =>
      destruct b end; lia. }
  unfold reference_parse, isoLocal, pad4, pad3, pad2.
  cbn [String.append list_ascii_of_string].
  rewrite number4_pad by lia.
  rewrite !number2_pad by lia.
  cbn [read_offset]. 
  change (Ascii.eqb "Z" "Z") with true. cbv iota.
  change (Ascii.eqb "-" "-") with true.
  change (Ascii.eqb "T" "T") with true.
  change (Ascii.eqb ":" ":") with true.
  cbn [andb].
  replace {| year := year w; month := month w; day := day w;
             hour := hour w; minute := minute w; second := second w |}
    with w by (destruct w; reflexivity).
  rewrite valid_wallb_true by exact Hv. f_equal. lia.
Qed.

Lemma reference_timeZone_UTC :
  exists off, reference_timeZone "UTC" = Some off /\ forall t, off t = 0.
Proof. exists (fun _ => 0). split; reflexivity. Qed.

Lemma reference_timeZone_bounded name off t :
  reference_timeZone name = Some off -> -86400 < off t < 86400.
Proof.
  unfold reference_timeZone.
  destruct (String.eqb name "UTC"); [intros [= <-]; lia|].
  destruct (String.eqb name "Australia/Sydney"); [|discriminate].
  intros [= <-]. unfold sydney_offset.
  destruct (civil_from_days (t / 86400)) as [[y m] d].
  destruct (_ || _); lia.
Qed.

Definition reference_host : Host :=
  {| timeZone := reference_timeZone;
     Date_parse := reference_parse;
     longOffset := reference_longOffset;
     timeZone_UTC := reference_timeZone_UTC;
     timeZone_bounded := reference_timeZone_bounded;
     Date_parse_iso := reference_parse_iso |}.

(** The three sample groups, whose best scores are 5, 1 and 3, under a limit
    of 2. *)
Lemma routing_formats_best_trips_of_best_groups_witness :
  exists sortedGroups ranked : list (list Trip.t),
    Forall2 (fun grp s =>
               stable_sorted_by Trip.weightedScore (TripGroup.trips grp) s
               /\ forall t, In t (TripGroup.trips grp) ->
                     (representativeScore s <= Trip.weightedScore t)%Q)
            sample_groups sortedGroups
    /\ stable_sorted_by representativeScore
                        (map (firstn 2) sortedGroups) ranked
    /\ handleRouting reference_geo reference_host sample_regions
                     (routing_response sample_groups) sample_args
       = (region <- getRegionForCoordinate reference_geo sample_regions
                      {| lat := fromLat sample_args;
                         lng := fromLng sample_args |} ;;
          url <- routingUrl reference_host (displayTimezone region)
                            sample_args ;;
          _ <- throwOnError "Routing failed: "
                 (RoutingResponse.error (routing_response sample_groups)) ;;
          formatted <- mapM (formatTrip reference_host
                               (displayTimezone region)
                               (routing_response sample_groups))
                            (concat (firstn (Z.to_nat 2) ranked)) ;;
          Ok (routingOutput sample_args url formatted))
    /\ (forall s1 s2 s3,
           sortedGroups = [s1; s2; s3] ->
           (representativeScore s1 == 5)%Q ->
           (representativeScore s2 == 1)%Q ->
           (representativeScore s3 == 3)%Q ->
           2 = 2 ->
           concat (firstn (Z.to_nat 2) ranked) = firstn 2 s2 ++ firstn 2 s3).
Proof.
  apply (routing_formats_best_trips_of_best_groups reference_geo
           reference_host sample_regions (routing_response sample_groups)
           sample_args sample_groups 2).
  - reflexivity.
  - repeat constructor; discriminate.
  - reflexivity.
  - lia.
Defined.

(** On the sample, the trips formatted are the two best of the second group
    and the only one of the third, in that order. *)
Lemma sample_routing_trip_ids :
  match handleRouting reference_geo reference_host sample_regions
                      (routing_response sample_groups) sample_args with
  | Ok out => map FormattedTrip.id (RoutingOutput.trips out)
  | Err _ => []
  end = ["b1"; "b2"; "c1"].
Proof. vm_compute. reflexivity. Qed.

(** ** Time zones *)

Lemma seconds_of_millis s : 1000 * s / 1000 = s.
Proof. rewrite Z.mul_comm. apply Z.div_mul. lia. Qed.

Lemma TimeClip_id ms : Z.abs ms <= 8640000000000000 -> TimeClip ms = Some ms.
Proof.
  intros H. unfold TimeClip.
  destruct (Z.leb_spec (Z.abs ms) 8640000000000000); [reflexivity|lia].
Qed.

Lemma wall_to_epoch_bound w :
  valid_wall w -> 1000 <= year w <= 9999 ->
  -31000000000 <= wall_to_epoch w <= 254000000000.
Proof.
  intros ((Hm & Hd) & Hh & Hmi & Hs) Hy.
  assert (Hd31 : day w <= 31).
  { unfold days_in_month in Hd.
    repeat match type of Hd with context [if ?b then _ else _] =>
      destruct b end; lia. }
  unfold wall_to_epoch, days_from_civil, doe_of, doy_of.
  destruct (month w <=? 2); destruct (2 <? month w);
    cbv zeta; Z.div_mod_to_equations; lia.
Qed.

(** [new Date(date.toLocaleString("en-US", { timeZone }))] is the instant
    shifted by the zone's offset there, to the second. *)
Lemma Date_via_locale_shift (h : Host) zone off s :
  timeZone h zone = Some off ->
  Z.abs (s + off s) <= 8640000000000 ->
  Date_via_locale h (Some (1000 * s)) zone = Ok (Some (1000 * (s + off s))).
Proof.
  intros Hz Hb. unfold Date_via_locale, toLocaleString. rewrite Hz.
  cbn [bind Date_of_locale]. cbv zeta. rewrite seconds_of_millis.
  rewrite wall_to_epoch_to_wall. rewrite TimeClip_id by lia. reflexivity.
Qed.

Lemma zonedTimeToUtc_value (h : Host) zone off w :
  timeZone h zone = Some off ->
  valid_wall w -> 1000 <= year w <= 9999 ->
  zonedTimeToUtc h (isoLocal w) zone
  = Ok (Some (1000 * (wall_to_epoch w - off (wall_to_epoch w)))).
Proof.
  intros Hz Hv Hy. unfold zonedTimeToUtc.
  pose proof (wall_to_epoch_bound w Hv Hy) as Hb.
  pose proof (timeZone_bounded h zone off (wall_to_epoch w) Hz) as Ho.
  destruct (timeZone_UTC h) as (utc & Hutc & Hzero).
  rewrite (Date_parse_iso h) by (try exact Hv; lia).
  rewrite (Date_via_locale_shift h zone off) by (try exact Hz; lia).
  rewrite (Date_via_locale_shift h "UTC" utc)
    by (try exact Hutc; rewrite Hzero; lia).
  rewrite Hzero. cbn [bind time_sub Date_of_number].
  rewrite TimeClip_id by lia. do 2 f_equal. lia.
Qed.

Lemma toISOStringInTimezone_value (h : Host) zone off u w :
  timeZone h zone = Some off ->
  epoch_to_wall (u + off u) = w ->
  1000 <= year w <= 9999 ->
  toISOStringInTimezone h (Some (1000 * u)) zone
  = Ok (isoLocal w +++ or_else (Some (longOffset h (off u))) "+00:00").
Proof.
  intros Hz Hw Hy. unfold toISOStringInTimezone, formatToParts.
  rewrite Hz. cbv zeta. rewrite seconds_of_millis, Hw.
  cbn [bind p_year p_month p_day p_hour p_minute p_second p_timeZoneName].
  rewrite decimal_pad4 by exact Hy. unfold isoLocal, pad4, pad3, pad2.
  cbn [String.append]. reflexivity.
Qed.

(** The round trip of the specification: a naive local text is taken to UTC
    in a zone and the instant is printed back in that zone. *)
Definition round_trip (h : Host) (local zone : string) : result string :=
  d <- zonedTimeToUtc h local zone ;; toISOStringInTimezone h d zone.

(** C3, as amended.  Let [w] be a valid wall-clock reading with a
    four-digit year, [s] its naive ISO text and [local] the instant that [s]
    denotes when read as UTC.  [zonedTimeToUtc] subtracts the offset that
    the zone has at [local].  Whenever the zone has the same offset at the
    instant so obtained, that instant shows [w] in the zone, and printing it
    back in the zone gives the digits of [s] followed by the zone's offset
    text at that instant. *)
Theorem round_trip_with_stable_offset :
  forall (h : Host) (zone : string) (off : Z -> Z) (w : WallClock),
    timeZone h zone = Some off ->
    valid_wall w ->
    1000 <= year w <= 9999 ->
    off (wall_to_epoch w - off (wall_to_epoch w)) = off (wall_to_epoch w) ->
    let utc := wall_to_epoch w - off (wall_to_epoch w) in
    zonedTimeToUtc h (isoLocal w) zone = Ok (Some (1000 * utc))
    /\ epoch_to_wall (utc + off utc) = w
    /\ round_trip h (isoLocal w) zone
       = Ok (isoLocal w +++ or_else (Some (longOffset h (off utc))) "+00:00").
Proof.
  intros h zone off w Hz Hv Hy Hoff utc.
  assert (Hw : epoch_to_wall (utc + off utc) = w).
  { subst utc. rewrite Hoff.
    replace (wall_to_epoch w - off (wall_to_epoch w) + off (wall_to_epoch w))
      with (wall_to_epoch w) by lia.
    now apply epoch_to_wall_to_epoch. }
  split; [now apply zonedTimeToUtc_value|]. split; [exact Hw|].
  unfold round_trip. rewrite (zonedTimeToUtc_value h zone off) by assumption.
  cbn [bind]. now apply toISOStringInTimezone_value.
Qed.

(** The round trip holds in Sydney on a winter date (standard time) and on
    a summer date (daylight time). *)
Lemma round_trip_with_stable_offset_witness :
  round_trip reference_host "2025-07-18T19:00:00" "Australia/Sydney"
  = Ok "2025-07-18T19:00:00GMT+10:00"
  /\ round_trip reference_host "2025-01-15T19:00:00" "Australia/Sydney"
     = Ok "2025-01-15T19:00:00GMT+11:00".
Proof.
  split.
  - refine (proj2 (proj2 (round_trip_with_stable_offset
             reference_host "Australia/Sydney" sydney_offset
             {| year := 2025; month := 7; day := 18;
                hour := 19; minute := 0; second := 0 |} _ _ _ _))).
    + reflexivity.
    + unfold valid_wall, valid_date. cbn. lia.
    + cbn. lia.
    + vm_compute. reflexivity.
  - refine (proj2 (proj2 (round_trip_with_stable_offset
             reference_host "Australia/Sydney" sydney_offset
             {| year := 2025; month := 1; day := 15;
                hour := 19; minute := 0; second := 0 |} _ _ _ _))).
    + reflexivity.
    + unfold valid_wall, valid_date. cbn. lia.
    + cbn. lia.
    + vm_compute. reflexivity.
Defined.

Lemma sydney_offset_cases t : sydney_offset t = 36000 \/ sydney_offset t = 39600.
Proof.
  unfold sydney_offset. destruct (civil_from_days (t / 86400)) as [[y m] d].
  destruct (_ || _); auto.
Qed.

(** C3, counterexample.  In Sydney the clocks go from 01:59:59 to 03:00:00
    on 5 October 2025, so no instant shows 02:30:00 on that day there: the
    round trip of that text cannot give its digits back, and it gives
    01:30:00. *)
Lemma round_trip_fails_in_the_gap :
  (forall u, epoch_to_wall (u + sydney_offset u)
             <> {| year := 2025; month := 10; day := 5;
                   hour := 2; minute := 30; second := 0 |})
  /\ round_trip reference_host "2025-10-05T02:30:00" "Australia/Sydney"
     = Ok "2025-10-05T01:30:00GMT+10:00"
  /\ ~ (exists offsetText,
          round_trip reference_host "2025-10-05T02:30:00" "Australia/Sydney"
          = Ok ("2025-10-05T02:30:00" +++ offsetText)).
Proof.
  assert (E : round_trip reference_host "2025-10-05T02:30:00"
                         "Australia/Sydney"
              = Ok "2025-10-05T01:30:00GMT+10:00") by (vm_compute; reflexivity).
  split; [|split; [exact E|]].
  - intros u H. apply (f_equal wall_to_epoch) in H.
    rewrite wall_to_epoch_to_wall in H.
    change (wall_to_epoch {| year := 2025; month := 10; day := 5;
                             hour := 2; minute := 30; second := 0 |})
      with 1759631400 in H.
    destruct (sydney_offset_cases u) as [Ho|Ho].
    + assert (Hu : u = 1759595400) by lia. subst u.
      vm_compute in Ho. discriminate Ho.
    + assert (Hu : u = 1759591800) by lia. subst u.
      vm_compute in Ho. discriminate Ho.
  - intros [t H]. rewrite E in H. cbn in H. discriminate H.
Qed.

(** Before a transition the code itself is an hour off.  17:00 on 5 April
    2025 in Sydney is ten hours before daylight time ends there (03:00 on
    6 April, which is 16:00 UTC on the 5th), so its offset is +11:00 and the
    instant is 06:00 UTC.  Read as UTC, 17:00 falls after the change:
    [zonedTimeToUtc] subtracts the standard-time offset and returns 07:00
    UTC, and the text that comes back is one hour late.  The same local time
    written with its offset is sent upstream as the right instant. *)
Lemma round_trip_fails_before_transition :
  sydney_offset (wall_to_epoch {| year := 2025; month := 4; day := 5;
                                  hour := 17; minute := 0; second := 0 |}
                 - 39600) = 39600
  /\ zonedTimeToUtc reference_host "2025-04-05T17:00:00" "Australia/Sydney"
     = Ok (Some 1743836400000)
  /\ toISOString (Some 1743836400000) = Ok "2025-04-05T07:00:00.000Z"
  /\ round_trip reference_host "2025-04-05T17:00:00" "Australia/Sydney"
     = Ok "2025-04-05T18:00:00GMT+11:00"
  /\ formatDateForTripGo reference_host "2025-04-05T17:00:00"
                         "Australia/Sydney" = Ok (Some 1743836400)
  /\ formatDateForTripGo reference_host "2025-04-05T17:00:00+11:00"
                         "Australia/Sydney" = Ok (Some 1743832800).
Proof. repeat split; vm_compute; reflexivity. Qed.

(** ** Region lookup *)

Lemma findM_some {A} (p : A -> result bool) (l : list A) (r : A) :
  findM p l = Ok (Some r)
  <-> exists before after,
        l = before ++ r :: after
        /\ Forall (fun x => p x = Ok false) before
        /\ p r = Ok true.
Proof.
  induction l as [|x l IH]; cbn [findM].
  - split; [discriminate|]. intros (b & a & H & _). now destruct b.
  - destruct (p x) as [[|]|e] eqn:E; cbn [bind].
    + split.
      * intros [= <-]. exists [], l. repeat split; auto.
      * intros (b & a & H & Hb & Hr). destruct b as [|y b]; cbn in H.
        -- now injection H as -> _.
        -- injection H as -> _. inversion Hb; congruence.
    + rewrite IH. split.
      * intros (b & a & -> & Hb & Hr). exists (x :: b), a.
        repeat split; auto.
      * intros (b & a & H & Hb & Hr). destruct b as [|y b]; cbn in H.
        -- injection H as -> _. congruence.
        -- injection H as -> ->. inversion Hb; subst. now exists b, a.
    + split; [discriminate|]. intros (b & a & H & Hb & Hr).
      destruct b as [|y b]; cbn in H; injection H as -> _.
      * congruence.
      * inversion Hb; congruence.
Qed.

Lemma findM_none {A} (p : A -> result bool) (l : list A) :
  findM p l = Ok None <-> Forall (fun x => p x = Ok false) l.
Proof.
  induction l as [|x l IH]; cbn [findM].
  - split; auto.
  - destruct (p x) as [[|]|e] eqn:E; cbn [bind].
    + split; [discriminate|]. inversion 1; congruence.
    + rewrite IH. split; [now constructor|]. now inversion 1.
    + split; [discriminate|]. inversion 1; congruence.
Qed.

(** C2.  For every coordinate and every list of regions,
    [getRegionForCoordinate] returns a region exactly when it is the first
    one in list order whose polygon contains the coordinate, and returns
    none, without raising, exactly when the test is negative for every
    region; in that case [handleRouting] builds its request and renders its
    timestamps in the zone ["UTC"]. *)
Theorem region_lookup_first_match :
  forall (g : Geo) (c : Coordinate) (regions : list Region.t),
    (forall r,
        getRegionForCoordinate g {| RegionsResponse.regions := Some regions |} c
        = Ok (Some r)
        <-> exists before after,
              regions = before ++ r :: after
              /\ Forall (fun x => coordinateInPolygon g c (Region.polygon x)
                                  = Ok false) before
              /\ coordinateInPolygon g c (Region.polygon r) = Ok true)
    /\ (getRegionForCoordinate g {| RegionsResponse.regions := Some regions |} c
        = Ok None
        <-> Forall (fun x => coordinateInPolygon g c (Region.polygon x)
                             = Ok false) regions)
    /\ (forall (h : Host) (data : RoutingResponse.t) (a : RoutingArgs),
           c = {| lat := fromLat a; lng := fromLng a |} ->
           getRegionForCoordinate g
             {| RegionsResponse.regions := Some regions |} c = Ok None ->
           handleRouting g h {| RegionsResponse.regions := Some regions |}
                         data a
           = (url <- routingUrl h "UTC" a ;;
              _ <- throwOnError "Routing failed: "
                                (RoutingResponse.error data) ;;
              selected <- selectedGroups data (limit a) ;;
              formatted <- formattedTrips h "UTC" data selected ;;
              Ok (routingOutput a url formatted))).
Proof.
  intros g c regions. unfold getRegionForCoordinate, fetchRegions.
  cbn [RegionsResponse.regions bind].
  split; [intros r; apply (findM_some (fun region =>
             coordinateInPolygon g c (Region.polygon region)))|].
  split; [apply (findM_none (fun region =>
             coordinateInPolygon g c (Region.polygon region)))|].
  intros h data a -> Hnone. unfold handleRouting, getRegionForCoordinate,
    fetchRegions. cbn [RegionsResponse.regions bind]. rewrite Hnone.
  reflexivity.
Qed.

(** On the sample, Melbourne is tried first and does not contain the
    origin; Sydney does. *)
Lemma sample_region_lookup :
  getRegionForCoordinate reference_geo sample_regions
    {| lat := fromLat sample_args; lng := fromLng sample_args |}
  = Ok (Some sydney)
  /\ getRegionForCoordinate reference_geo
       {| RegionsResponse.regions := Some [melbourne] |}
       {| lat := fromLat sample_args; lng := fromLng sample_args |}
     = Ok None.
Proof. split; vm_compute; reflexivity. Qed.

(** ** Durations *)

Lemma floor_is_truncation x : 0 <= x -> x / 60 = Z.quot x 60.
Proof. intros H. symmetry. apply Z.quot_div_nonneg; lia. Qed.

Lemma formatTrip_fields (h : Host) tz data trip out :
  formatTrip h tz data trip = Ok out ->
  FormattedTrip.totalDuration out = (Trip.arrive trip - Trip.depart trip) / 60
  /\ FormattedTrip.segments out
     = map (formatSegment data) (Trip.segments trip).
Proof.
  unfold formatTrip.
  destruct (toISOStringInTimezone h (TimeClip (Trip.depart trip * 1000)) tz);
    [|discriminate].
  destruct (toISOStringInTimezone h (TimeClip (Trip.arrive trip * 1000)) tz);
    [|discriminate].
  cbn [bind]. intros [= <-]. split; reflexivity.
Qed.

(** C4.  In a formatted trip whose spans are not negative (the trip arrives
    no earlier than it departs, every segment ends no earlier than it
    starts), the total duration is [(arrive - depart) / 60] truncated toward
    zero, and the duration of every segment is
    [(endTime - startTime) / 60] truncated toward zero; on these spans the
    truncation is the floor that the code computes. *)
Theorem durations_are_truncated_minutes :
  forall (h : Host) (tz : string) (data : RoutingResponse.t)
         (trip : Trip.t) (out : FormattedTrip.t),
    Trip.depart trip <= Trip.arrive trip ->
    Forall (fun s => SegmentReference.startTime s <= SegmentReference.endTime s)
           (Trip.segments trip) ->
    formatTrip h tz data trip = Ok out ->
    FormattedTrip.totalDuration out
    = Z.quot (Trip.arrive trip - Trip.depart trip) 60
    /\ Forall2 (fun s f =>
                  FormattedSegment.duration f
                  = Z.quot (SegmentReference.endTime s
                            - SegmentReference.startTime s) 60)
               (Trip.segments trip) (FormattedTrip.segments out)
    /\ Z.quot (Trip.arrive trip - Trip.depart trip) 60
       = (Trip.arrive trip - Trip.depart trip) / 60.
Proof.
  intros h tz data trip out Ht Hs Hf.
  destruct (formatTrip_fields h tz data trip out Hf) as [Hd Hsegs].
  rewrite Hd, Hsegs. split; [apply floor_is_truncation; lia|].
  split; [|symmetry; apply floor_is_truncation; lia].
  clear - Hs.
  induction Hs as [|s r Hsr _ IH]; cbn [map]; [constructor|].
  constructor; [|exact IH].
  cbn [formatSegment FormattedSegment.duration].
  apply floor_is_truncation. lia.
Qed.

(** Where a span is negative the floor is not the truncation: a segment
    that ends 30 seconds before it starts gets the duration -1. *)
Lemma negative_span_is_floored :
  FormattedSegment.duration (formatSegment (routing_response []) (leg 101 100 70))
  = -1
  /\ Z.quot (70 - 100) 60 = 0.
Proof. split; reflexivity. Qed.

Lemma durations_are_truncated_minutes_witness :
  exists out,
    formatTrip reference_host "Australia/Sydney" (routing_response [])
               (sample_trip "b1" 10 1) = Ok out
    /\ FormattedTrip.totalDuration out = Z.quot 600 60
    /\ Forall2 (fun s f =>
                  FormattedSegment.duration f
                  = Z.quot (SegmentReference.endTime s
                            - SegmentReference.startTime s) 60)
               (Trip.segments (sample_trip "b1" 10 1))
               (FormattedTrip.segments out).
Proof.
  eexists. split; [vm_compute; reflexivity|].
  refine (let H := durations_are_truncated_minutes reference_host
                     "Australia/Sydney" (routing_response [])
                     (sample_trip "b1" 10 1) _ _ _ _ in
          conj (proj1 H) (proj1 (proj2 H))).
  - cbn. lia.
  - repeat constructor. cbn. lia.
  - vm_compute. reflexivity.
Defined.

(** ** Groups without trips *)

Lemma mapM_selectGroup_empty groups :
  Exists (fun grp => TripGroup.trips grp = []) groups ->
  mapM selectGroup groups
  = Err (TypeError
           "Cannot read properties of undefined (reading 'weightedScore')").
Proof.
  induction 1 as [grp r H|grp r H IH]; cbn [mapM].
  - unfold selectGroup. rewrite H. reflexivity.
  - rewrite IH. unfold selectGroup at 1.
    destruct (sort byWeightedScore (TripGroup.trips grp)); reflexivity.
Qed.

(** C5, as amended.  For a routing response in which some group has no
    trips, the selection raises a type error on that group: nothing is
    skipped, [handleRouting] returns no output, and the remaining groups are
    not formatted. *)
Theorem empty_group_aborts_routing :
  forall (g : Geo) (h : Host) (regionsData : RegionsResponse.t)
         (data : RoutingResponse.t) (a : RoutingArgs)
         (groups : list TripGroup.t),
    RoutingResponse.groups data = Some groups ->
    Exists (fun grp => TripGroup.trips grp = []) groups ->
    selectedGroups data (limit a)
    = Err (TypeError
             "Cannot read properties of undefined (reading 'weightedScore')")
    /\ is_ok (handleRouting g h regionsData data a) = false.
Proof.
  intros g h regionsData data a groups Hg He.
  assert (Hsel : selectedGroups data (limit a)
                 = Err (TypeError
             "Cannot read properties of undefined (reading 'weightedScore')")).
  { unfold selectedGroups. rewrite Hg, mapM_selectGroup_empty by exact He.
    reflexivity. }
  split; [exact Hsel|]. unfold handleRouting. rewrite Hsel.
  destruct (getRegionForCoordinate _ _ _); [|reflexivity]. cbn [bind].
  destruct (routingUrl _ _ _); [|reflexivity]. cbn [bind].
  destruct (throwOnError _ _); reflexivity.
Qed.

Lemma empty_group_aborts_routing_witness :
  selectedGroups (routing_response (group [] :: sample_groups))
                 (limit sample_args)
  = Err (TypeError
           "Cannot read properties of undefined (reading 'weightedScore')")
  /\ is_ok (handleRouting reference_geo reference_host sample_regions
              (routing_response (group [] :: sample_groups)) sample_args)
     = false.
Proof.
  apply (empty_group_aborts_routing reference_geo reference_host
           sample_regions (routing_response (group [] :: sample_groups))
           sample_args (group [] :: sample_groups)).
  - reflexivity.
  - left. reflexivity.
Defined.

(** C5, counterexample.  A response with one group without trips ahead of
    three groups with trips: the type error of the first group is the whole
    result, and no trip of the other groups is formatted. *)
Lemma empty_group_is_fatal :
  handleRouting reference_geo reference_host sample_regions
                (routing_response (group [] :: sample_groups)) sample_args
  = Err (TypeError
           "Cannot read properties of undefined (reading 'weightedScore')")
  /\ is_ok (handleRouting reference_geo reference_host sample_regions
              (routing_response sample_groups) sample_args) = true.
Proof. split; vm_compute; reflexivity. Qed.

(** ** Upstream errors *)

Lemma throwOnError_truthy prefix msg :
  msg <> EmptyString ->
  throwOnError prefix (Some msg) = Err (Error (prefix +++ msg)).
Proof.
  intros H. unfold throwOnError, if_truthy. destruct msg; [contradiction|].
  reflexivity.
Qed.

Lemma zonedTimeToUtc_UTC_total (h : Host) s :
  exists d, zonedTimeToUtc h s "UTC" = Ok d.
Proof.
  destruct (timeZone_UTC h) as (utc & Hutc & _).
  unfold zonedTimeToUtc, Date_via_locale, toLocaleString. rewrite Hutc.
  cbn [bind]. eexists. reflexivity.
Qed.

Lemma departuresBody_total (h : Host) region stopCodes timeStamp limit :
  exists body, departuresBody h region stopCodes timeStamp limit = Ok body.
Proof.
  unfold departuresBody, whenSome.
  destruct (if_truthy timeStamp) as [t|]; cbn [bind]; [|eexists; reflexivity].
  unfold formatDateForTripGo.
  destruct (includes_char "Z" t || ends_with_offset t); cbn [bind].
  - eexists. reflexivity.
  - destruct (zonedTimeToUtc_UTC_total h t) as (d & ->). cbn [bind].
    eexists. reflexivity.
Qed.

(** C6.  When the body of the upstream answer carries a non-empty [error],
    each of the four handlers raises an error whose message ends with the
    upstream message, and its tool rethrows it; nothing is formatted and no
    result is returned.  For routing this is the answer to the routing
    request, which is sent once the region lookup and the request
    parameters have succeeded. *)
Theorem upstream_error_aborts_the_tool :
  forall msg : string,
    msg <> EmptyString ->
    (forall (g : Geo) (h : Host) regionsData data a region url,
        RoutingResponse.error data = Some msg ->
        getRegionForCoordinate g regionsData
          {| lat := fromLat a; lng := fromLng a |} = Ok region ->
        routingUrl h (displayTimezone region) a = Ok url ->
        handleRouting g h regionsData data a
        = Err (Error ("Routing failed: " +++ msg))
        /\ tripgoRoutingTool_execute g h regionsData data a
           = Err (Error ("Error in tripgo_routing: Routing failed: " +++ msg)))
    /\ (forall data,
           SaveTripResponse.error data = Some msg ->
           handleSaveTrip data = Err (Error ("Routing failed: " +++ msg))
           /\ tripgoSaveTool_execute data
              = Err (Error ("Error in tripgo_save: Routing failed: " +++ msg)))
    /\ (forall data,
           LocationsResponse.error data = Some msg ->
           handleLocationsSearch data
           = Err (Error ("Locations search failed: " +++ msg))
           /\ tripgoLocationsTool_execute data
              = Err (Error ("Error in tripgo_locations: Locations search failed: "
                            +++ msg)))
    /\ (forall (h : Host) data region stopCodes timeStamp limit,
           DeparturesResponse.error data = Some msg ->
           handleDepartures h data region stopCodes timeStamp limit
           = Err (Error ("Departures search failed: " +++ msg))
           /\ tripgoDeparturesTool_execute h data region stopCodes timeStamp
                                           limit
              = Err (Error ("Error in tripgo_departures: Departures search failed: "
                            +++ msg))).
Proof.
  intros msg Hmsg. split; [|split; [|split]].
  - intros g h regionsData data a region url He Hr Hu. split.
    + unfold handleRouting. rewrite Hr. cbn [bind]. rewrite Hu. cbn [bind].
      rewrite He, throwOnError_truthy by exact Hmsg. reflexivity.
    + unfold tripgoRoutingTool_execute, handleRouting.
      cbn [fromLat fromLng]. rewrite Hr. cbn [bind].
      change (routingUrl h (displayTimezone region) _)
        with (routingUrl h (displayTimezone region) a).
      rewrite Hu. cbn [bind].
      rewrite He, throwOnError_truthy by exact Hmsg. reflexivity.
  - intros data He. unfold tripgoSaveTool_execute, handleSaveTrip.
    rewrite He, throwOnError_truthy by exact Hmsg. split; reflexivity.
  - intros data He. unfold tripgoLocationsTool_execute, handleLocationsSearch.
    rewrite He, throwOnError_truthy by exact Hmsg. split; reflexivity.
  - intros h data region stopCodes timeStamp lim He. split.
    + unfold handleDepartures.
      destruct (departuresBody_total h region stopCodes timeStamp lim)
        as (body & ->).
      cbn [bind]. rewrite He, throwOnError_truthy by exact Hmsg. reflexivity.
    + unfold tripgoDeparturesTool_execute, handleDepartures.
      destruct (departuresBody_total h region stopCodes timeStamp
                  (Some match lim with Some n => n | None => 10 end))
        as (body & ->).
      cbn [bind]. rewrite He, throwOnError_truthy by exact Hmsg. reflexivity.
Qed.

Definition failed_routing (msg : string) : RoutingResponse.t :=
  {| RoutingResponse.error := Some msg;
     RoutingResponse.errorMessage := None;
     RoutingResponse.groups := Some sample_groups;
     RoutingResponse.segmentTemplates := Some [walk] |}.

Definition failed_departures (msg : string) : DeparturesResponse.t :=
  {| DeparturesResponse.error := Some msg;
     DeparturesResponse.errorMessage := None;
     DeparturesResponse.embarkationStops :=
       DeparturesResponse.embarkationStops (departures_response None);
     DeparturesResponse.stops := Some [sample_stop] |}.

Lemma upstream_error_aborts_the_tool_witness :
  handleRouting reference_geo reference_host sample_regions
                (failed_routing "Destination lies outside covered area")
                sample_args
  = Err (Error "Routing failed: Destination lies outside covered area")
  /\ handleSaveTrip {| SaveTripResponse.error :=
                         Some "Destination lies outside covered area";
                       SaveTripResponse.errorMessage := None;
                       SaveTripResponse.url := Some "https://example.org/t" |}
     = Err (Error "Routing failed: Destination lies outside covered area")
  /\ handleLocationsSearch
       {| LocationsResponse.error :=
            Some "Destination lies outside covered area";
          LocationsResponse.errorMessage := None;
          LocationsResponse.groups := Some [] |}
     = Err (Error
              "Locations search failed: Destination lies outside covered area")
  /\ handleDepartures reference_host
       (failed_departures "Destination lies outside covered area")
       "AU_NSW_Sydney" ["200060"] (Some "2025-07-18T19:00:00") None
     = Err (Error
              "Departures search failed: Destination lies outside covered area").
Proof.
  destruct (upstream_error_aborts_the_tool
              "Destination lies outside covered area"
              ltac:(discriminate)) as (Hr & Hs & Hl & Hd).
  split; [|split; [|split]].
  - refine (proj1 (Hr reference_geo reference_host sample_regions
                      (failed_routing "Destination lies outside covered area")
                      sample_args (Some sydney)
                      [("from", PPoint (-3387 # 100) (15121 # 100));
                       ("to", PPoint (-3386 # 100) (15120 # 100));
                       ("v", PText "11")] _ _ _)).
    + reflexivity.
    + vm_compute. reflexivity.
    + vm_compute. reflexivity.
  - refine (proj1 (Hs _ _)). reflexivity.
  - refine (proj1 (Hl _ _)). reflexivity.
  - refine (proj1 (Hd reference_host _ _ _ _ _ _)). reflexivity.
Defined.

(** ** Closing the ring *)

(** A decoded vertex sequence that does not end on its first vertex. *)
Definition unclosed (vs : list Position) : Prop :=
  match vs with
  | [] => False
  | first :: _ =>
      ~ ((fst first == fst (last vs first))%Q
         /\ (snd first == snd (last vs first))%Q)
  end.

Lemma number_neq_refl x : number_neq x x = false.
Proof.
  unfold number_neq. replace (Qeq_bool x x) with true; [reflexivity|].
  symmetry. apply Qeq_bool_iff. reflexivity.
Qed.

Lemma last_map {A B} (f : A -> B) (l : list A) (d : A) :
  last (map f l) (f d) = f (last l d).
Proof.
  induction l as [|x [|y r] IH]; [reflexivity|reflexivity|].
  exact IH.
Qed.

Lemma close_ring_unclosed first rest :
  unclosed (first :: rest) ->
  close_ring (first :: rest) = Ok ((first :: rest) ++ [first]).
Proof.
  intros H. unfold close_ring.
  destruct (number_neq (fst first) (fst (last (first :: rest) first))
            || number_neq (snd first) (snd (last (first :: rest) first)))
    eqn:E; [reflexivity|].
  exfalso. apply H. apply orb_false_iff in E. destruct E as [E1 E2].
  unfold number_neq in *. apply negb_false_iff in E1, E2.
  split; now apply Qeq_bool_iff.
Qed.

Lemma close_ring_closed first rest :
  close_ring ((first :: rest) ++ [first]) = Ok ((first :: rest) ++ [first]).
Proof.
  unfold close_ring. cbn [app].
  change (first :: rest ++ [first]) with ((first :: rest) ++ [first]).
  rewrite last_last, !number_neq_refl. reflexivity.
Qed.

Lemma close_ring_idempotent ring closed :
  close_ring ring = Ok closed -> close_ring closed = Ok closed.
Proof.
  destruct ring as [|first rest]; [discriminate|].
  unfold close_ring at 1.
  destruct (number_neq (fst first) (fst (last (first :: rest) first))
            || number_neq (snd first) (snd (last (first :: rest) first)))
    eqn:E; intros [= <-].
  - apply close_ring_closed.
  - unfold close_ring. rewrite E. reflexivity.
Qed.

Lemma unclosed_swap first rest :
  unclosed (first :: rest) ->
  unclosed (map (fun coord : Position => (snd coord, fst coord))
                (first :: rest)).
Proof.
  unfold unclosed. cbn [map]. intros H [H1 H2]. apply H.
  change ((snd first, fst first)
          :: map (fun coord : Position => (snd coord, fst coord)) rest)
    with (map (fun coord : Position => (snd coord, fst coord))
              (first :: rest)) in H1, H2.
  rewrite (last_map (fun coord : Position => (snd coord, fst coord)))
    in H1, H2.
  cbn [fst snd] in H1, H2. split; assumption.
Qed.

(** C7.  When one encoded polygon decodes to an unclosed vertex sequence
    and another decodes to the same sequence followed by its first vertex,
    [coordinateInPolygon] gives the same result on both, for every point;
    and closing a ring that has been closed changes nothing.  This covers
    every polygon of three vertices or more. *)
Theorem containment_ignores_explicit_closure :
  forall (g : Geo) (c : Coordinate) (e1 e2 : string)
         (first : Position) (rest : list Position),
    unclosed (first :: rest) ->
    polyline_decode g e1 = Ok (first :: rest) ->
    polyline_decode g e2 = Ok ((first :: rest) ++ [first]) ->
    coordinateInPolygon g c e1 = coordinateInPolygon g c e2
    /\ (forall ring closed,
           close_ring ring = Ok closed -> close_ring closed = Ok closed).
Proof.
  intros g c e1 e2 first rest Hu H1 H2.
  split; [|exact close_ring_idempotent].
  unfold coordinateInPolygon. rewrite H1, H2. cbn [bind].
  rewrite map_app. cbn [map].
  change ((snd first, fst first)
          :: map (fun coord : Position => (snd coord, fst coord)) rest)
    with ((fun coord : Position => (snd coord, fst coord)) first
          :: map (fun coord : Position => (snd coord, fst coord)) rest).
  rewrite close_ring_unclosed by exact (unclosed_swap first rest Hu).
  rewrite close_ring_closed. reflexivity.
Qed.

Lemma containment_ignores_explicit_closure_witness :
  coordinateInPolygon reference_geo {| lat := -3387 # 100; lng := 15121 # 100 |}
                      "~tvoE_pqu[?_ibE_g{C??~hbE"
  = coordinateInPolygon reference_geo
                        {| lat := -3387 # 100; lng := 15121 # 100 |}
                        "~tvoE_pqu[?_ibE_g{C??~hbE~f{C?".
Proof.
  refine (proj1 (containment_ignores_explicit_closure reference_geo
             {| lat := -3387 # 100; lng := 15121 # 100 |}
             "~tvoE_pqu[?_ibE_g{C??~hbE" "~tvoE_pqu[?_ibE_g{C??~hbE~f{C?"
             (-3420000 # 100000, 15050000 # 100000)%Q
             [(-3420000 # 100000, 15150000 # 100000)%Q;
              (-3340000 # 100000, 15150000 # 100000)%Q;
              (-3340000 # 100000, 15050000 # 100000)%Q] _ _ _)).
  - intros [H _]. vm_compute in H. discriminate H.
  - vm_compute. reflexivity.
  - vm_compute. reflexivity.
Defined.

(** ** The empty polygon *)

(** C10.  When the encoded polygon decodes to no vertex at all,
    [coordinateInPolygon] raises the type error of reading index 0 of
    [undefined], for every coordinate; it neither returns [false] nor
    raises an error of the decoder. *)
Theorem empty_polygon_raises_type_error :
  forall (g : Geo) (c : Coordinate) (e : string),
    polyline_decode g e = Ok [] ->
    coordinateInPolygon g c e
    = Err (TypeError "Cannot read properties of undefined (reading '0')").
Proof.
  intros g c e H. unfold coordinateInPolygon. rewrite H. reflexivity.
Qed.

Lemma empty_polygon_raises_type_error_witness :
  coordinateInPolygon reference_geo {| lat := -3387 # 100; lng := 15121 # 100 |}
                      EmptyString
  = Err (TypeError "Cannot read properties of undefined (reading '0')").
Proof.
  apply (empty_polygon_raises_type_error reference_geo
           {| lat := -3387 # 100; lng := 15121 # 100 |} EmptyString).
  reflexivity.
Defined.

(** ** Departures and the list of stops *)

Definition with_stops (data : DeparturesResponse.t)
  (stops : option (list Location.t)) : DeparturesResponse.t :=
  {| DeparturesResponse.error := DeparturesResponse.error data;
     DeparturesResponse.errorMessage := DeparturesResponse.errorMessage data;
     DeparturesResponse.embarkationStops :=
       DeparturesResponse.embarkationStops data;
     DeparturesResponse.stops := stops |}.

Lemma mapM_ext {A B} (f f' : A -> result B) (l : list A) :
  (forall a, f a = f' a) -> mapM f l = mapM f' l.
Proof.
  intros H. induction l as [|x r IH]; [reflexivity|].
  cbn [mapM]. now rewrite H, IH.
Qed.

(** C8, on the code.  The departures that [handleDepartures] returns do not
    depend on the list of stops of the response: the stop of each
    embarkation group is looked up and then left out of the entries, which
    carry neither its name nor its code.  On the sample response the entry
    is the same with and without the stop in the list, while the earlier
    revision of the function attaches "Central Station" when the stop is
    listed and an absent name when it is not. *)
Theorem departures_do_not_depend_on_stops :
  (forall (h : Host) (data : DeparturesResponse.t)
          (stops : option (list Location.t)) (region : string)
          (stopCodes : list string) (timeStamp : option string)
          (limit : option Z),
      handleDepartures h (with_stops data stops) region stopCodes timeStamp
                       limit
      = handleDepartures h data region stopCodes timeStamp limit)
  /\ handleDepartures reference_host (departures_response (Some [sample_stop]))
                      "AU_NSW_Sydney" ["200060"] None None
     = handleDepartures reference_host (departures_response None)
                        "AU_NSW_Sydney" ["200060"] None None
  /\ is_ok (handleDepartures reference_host
              (departures_response (Some [sample_stop]))
              "AU_NSW_Sydney" ["200060"] None None) = true
  /\ match Earlier.handleDepartures (departures_response (Some [sample_stop]))
                                    "AU_NSW_Sydney" ["200060"] with
     | Ok out => map Earlier.FormattedDeparture.stopName
                     (Earlier.DeparturesOutput.departures out)
     | Err _ => []
     end = [Some "Central Station"]
  /\ match Earlier.handleDepartures (departures_response (Some []))
                                    "AU_NSW_Sydney" ["200060"] with
     | Ok out => map Earlier.FormattedDeparture.stopName
                     (Earlier.DeparturesOutput.departures out)
     | Err _ => [Some "failed"]
     end = [None].
Proof.
  split.
  - intros h data stops region stopCodes timeStamp lim.
    unfold handleDepartures. cbn [with_stops DeparturesResponse.error
      DeparturesResponse.embarkationStops].
    rewrite (mapM_ext (formatEmbarkationStop (with_stops data stops))
                      (formatEmbarkationStop data)) by reflexivity.
    reflexivity.
  - repeat split; vm_compute; reflexivity.
Qed.

(** ** Departure and arrival times *)

Definition without_arrival (a : RoutingArgs) : RoutingArgs :=
  {| fromLat := fromLat a; fromLng := fromLng a;
     toLat := toLat a; toLng := toLng a;
     departureTime := departureTime a;
     arrivalTime := None;
     modes := modes a;
     maxWalkingTime := maxWalkingTime a;
     wheelchair := wheelchair a;
     limit := limit a |}.

(** The time parameters of a request are those that [timeParams] yields. *)
Lemma routingUrl_time_params (h : Host) tz a url :
  routingUrl h tz a = Ok url ->
  exists time,
    timeParams h tz (departureTime a) (arrivalTime a) = Ok time
    /\ forall k v,
         k = "departAfter" \/ k = "arriveBefore" ->
         (In (k, v) url <-> In (k, v) time).
Proof.
  unfold routingUrl.
  destruct (timeParams h tz (departureTime a) (arrivalTime a)) as [time|e];
    [|discriminate].
  cbn [bind]. intros [= <-]. exists time. split; [reflexivity|].
  intros k v Hk.
  assert (Hclash : forall k' v', (k', v') = (k, v) ->
                     k' <> "departAfter" -> k' <> "arriveBefore" -> False).
  { intros k' v' [= -> _] H1 H2. destruct Hk; contradiction. }
  assert (Hmodes : forall l : list string,
             ~ In (k, v) (map (fun mode => ("modes", PText mode)) l)).
  { intros l Hin. apply in_map_iff in Hin. destruct Hin as (m & Hm & _).
    apply (Hclash _ _ Hm); discriminate. }
  split.
  - intros Hin. cbn [In] in Hin.
    destruct Hin as [Hin|[Hin|Hin]];
      [exfalso; apply (Hclash _ _ Hin); discriminate
      |exfalso; apply (Hclash _ _ Hin); discriminate|].
    apply in_app_or in Hin. destruct Hin as [Hin|Hin]; [exact Hin|exfalso].
    apply in_app_or in Hin. destruct Hin as [Hin|Hin].
    { destruct (modes a) as [[|m ms]|]; try contradiction.
      destruct Hin as [Hin|Hin]; [apply (Hclash _ _ Hin); discriminate|].
      apply in_app_or in Hin. destruct Hin as [Hin|Hin].
      - exact (Hmodes _ Hin).
      - destruct Hin as [Hin|[]]. apply (Hclash _ _ Hin); discriminate. }
    destruct Hin as [Hin|Hin]; [apply (Hclash _ _ Hin); discriminate|].
    apply in_app_or in Hin. destruct Hin as [Hin|Hin].
    { destruct (maxWalkingTime a) as [n|]; [|contradiction].
      destruct (Qeq_bool n 0); [contradiction|].
      destruct Hin as [Hin|[]]. apply (Hclash _ _ Hin); discriminate. }
    destruct (wheelchair a) as [b|]; [|contradiction].
    destruct Hin as [Hin|[]]. apply (Hclash _ _ Hin); discriminate.
  - intros Hin. cbn [In]. right. right. apply in_or_app. now left.
Qed.

(** C9.  When a routing request has a non-empty [departureTime], its
    parameters are those of the same request without [arrivalTime]: they
    hold [departAfter] with the departure time and no [arriveBefore].  In
    any request, [arriveBefore] is present only if [departureTime] is
    absent or empty. *)
Theorem departure_time_takes_priority :
  forall (h : Host) (tz : string) (a : RoutingArgs) (d : string),
    departureTime a = Some d ->
    d <> EmptyString ->
    routingUrl h tz a = routingUrl h tz (without_arrival a)
    /\ (forall url,
           routingUrl h tz a = Ok url ->
           (exists t, formatDateForTripGo h d tz = Ok t
                      /\ In ("departAfter", PSeconds t) url)
           /\ forall v, ~ In ("arriveBefore", v) url)
    /\ (forall a' url v,
           routingUrl h tz a' = Ok url ->
           In ("arriveBefore", v) url ->
           if_truthy (departureTime a') = None).
Proof.
  intros h tz a d Hd Hne.
  assert (Htruthy : if_truthy (Some d) = Some d)
    by (destruct d; [contradiction|reflexivity]).
  split; [|split].
  - unfold routingUrl, without_arrival, timeParams.
    cbn [departureTime arrivalTime modes maxWalkingTime wheelchair
         fromLat fromLng toLat toLng].
    rewrite Hd, Htruthy. reflexivity.
  - intros url Hurl.
    destruct (routingUrl_time_params h tz a url Hurl) as (time & Ht & Hin).
    unfold timeParams in Ht. rewrite Hd, Htruthy in Ht.
    destruct (formatDateForTripGo h d tz) as [t|e]; [|discriminate].
    cbn [bind] in Ht. injection Ht as <-. split.
    + exists t. split; [reflexivity|]. apply Hin; [now left|]. now left.
    + intros v Hv. apply Hin in Hv; [|now right].
      destruct Hv as [Hv|[]]. discriminate Hv.
  - intros a' url v Hurl Hv.
    destruct (routingUrl_time_params h tz a' url Hurl) as (time & Ht & Hin).
    apply Hin in Hv; [|now right]. unfold timeParams in Ht.
    destruct (if_truthy (departureTime a')) as [d'|]; [|reflexivity].
    destruct (formatDateForTripGo h d' tz) as [t|e]; [|discriminate].
    cbn [bind] in Ht. injection Ht as <-.
    destruct Hv as [Hv|[]]. discriminate Hv.
Qed.

(** A request with both times: leave after 19:00, arrive before 21:00. *)
Definition both_times : RoutingArgs :=
  {| fromLat := -3387 # 100; fromLng := 15121 # 100;
     toLat := -3386 # 100; toLng := 15120 # 100;
     departureTime := Some "2025-07-18T19:00:00";
     arrivalTime := Some "2025-07-18T21:00:00";
     modes := Some ["pt_pub"]; maxWalkingTime := Some (15 # 1);
     wheelchair := Some false; limit := None |}.

Lemma both_times_request :
  routingUrl reference_host "Australia/Sydney" both_times
  = Ok [("from", PPoint (-3387 # 100) (15121 # 100));
        ("to", PPoint (-3386 # 100) (15120 # 100));
        ("departAfter", PSeconds (Some 1752829200));
        ("modes", PText "pt_pub"); ("allModes", PText "1");
        ("v", PText "11"); ("wm", PNumber (15 # 1)); ("wheelchair", PText "0")].
Proof. vm_compute. reflexivity. Qed.

Lemma departure_time_takes_priority_witness :
  routingUrl reference_host "Australia/Sydney" both_times
  = routingUrl reference_host "Australia/Sydney" (without_arrival both_times)
  /\ (forall url,
         routingUrl reference_host "Australia/Sydney" both_times = Ok url ->
         (exists t,
             formatDateForTripGo reference_host "2025-07-18T19:00:00"
                                 "Australia/Sydney" = Ok t
             /\ In ("departAfter", PSeconds t) url)
         /\ forall v, ~ In ("arriveBefore", v) url).
Proof.
  refine (let H := departure_time_takes_priority reference_host
                     "Australia/Sydney" both_times "2025-07-18T19:00:00" _ _
          in conj (proj1 H) (proj1 (proj2 H))).
  - reflexivity.
  - discriminate.
Defined.

(** * Further properties of the code *)

(** ** What a successful routing call returns *)

Lemma mapM_Forall2 {A B} (f : A -> result B) (l : list A) (l' : list B) :
  mapM f l = Ok l' -> Forall2 (fun a b => f a = Ok b) l l'.
Proof.
  revert l'. induction l as [|x r IH]; cbn [mapM]; intros l'.
  - intros [= <-]. constructor.
  - destruct (f x) as [b|e] eqn:E; [|discriminate]. cbn [bind].
    destruct (mapM f r) as [bs|e]; [|discriminate]. cbn [bind].
    intros [= <-]. constructor; [exact E|now apply IH].
Qed.

Lemma mapM_length {A B} (f : A -> result B) (l : list A) (l' : list B) :
  mapM f l = Ok l' -> length l' = length l.
Proof.
  intros H. apply mapM_Forall2 in H. symmetry.
  induction H; cbn; congruence.
Qed.

Lemma selectGroup_inv grp s :
  selectGroup grp = Ok s ->
  TripGroup.trips grp <> []
  /\ SelectedGroup.trips s = bestTwo grp
  /\ SelectedGroup.score s = representativeScore (bestTwo grp).
Proof.
  intros H. destruct (TripGroup.trips grp) as [|t r] eqn:E.
  - unfold selectGroup in H. rewrite E in H. discriminate H.
  - rewrite selectGroup_total in H by congruence. injection H as <-.
    repeat split. congruence.
Qed.

(** What [selectedGroups] has when it returns under a limit that is not
    negative: every group has a trip, and the groups kept are the first ones
    of the ranking of the groups' best two trips. *)
Lemma selectedGroups_inv data groups N sel :
  RoutingResponse.groups data = Some groups ->
  0 <= N ->
  selectedGroups data (Some N) = Ok sel ->
  Forall (fun grp => TripGroup.trips grp <> []) groups
  /\ map SelectedGroup.trips sel
     = firstn (Z.to_nat N)
         (sort (fun a b => representativeScore a - representativeScore b)%Q
               (map bestTwo groups)).
Proof.
  intros Hg HN Hsel.
  assert (Hne : Forall (fun grp => TripGroup.trips grp <> []) groups).
  { unfold selectedGroups in Hsel. rewrite Hg in Hsel.
    destruct (mapM selectGroup groups) as [mapped|e] eqn:E; [|discriminate].
    apply mapM_Forall2 in E. clear - E.
    induction E as [|grp s gs ss H _ IH]; constructor; [|exact IH].
    now apply selectGroup_inv in H. }
  split; [exact Hne|].
  destruct (selectedGroups_total data groups (Some N) Hg Hne)
    as (selected & Hs & Hr).
  rewrite Hs, slice0_nonneg in Hsel by exact HN. injection Hsel as <-.
  rewrite <- firstn_map. now rewrite Hr.
Qed.

(** The stages a successful [handleRouting] went through. *)
Lemma handleRouting_inv (g : Geo) (h : Host) regionsData data a out :
  handleRouting g h regionsData data a = Ok out ->
  exists region url sel,
    getRegionForCoordinate g regionsData
      {| lat := fromLat a; lng := fromLng a |} = Ok region
    /\ routingUrl h (displayTimezone region) a = Ok url
    /\ if_truthy (RoutingResponse.error data) = None
    /\ selectedGroups data (limit a) = Ok sel
    /\ mapM (formatTrip h (displayTimezone region) data)
            (concat (map SelectedGroup.trips sel))
       = Ok (RoutingOutput.trips out)
    /\ RoutingOutput.query_url out = url.
Proof.
  unfold handleRouting. intros H.
  destruct (getRegionForCoordinate _ _ _) as [region|e] eqn:Er;
    [|discriminate]. cbn [bind] in H.
  destruct (routingUrl _ _ _) as [url|e] eqn:Eu; [|discriminate].
  cbn [bind] in H. unfold throwOnError in H.
  destruct (if_truthy (RoutingResponse.error data)) as [msg|] eqn:Ee;
    [discriminate|]. cbn [bind] in H.
  destruct (selectedGroups data (limit a)) as [sel|e] eqn:Es; [|discriminate].
  cbn [bind] in H. unfold formattedTrips in H. rewrite mapM_concat in H.
  destruct (mapM _ (concat _)) as [formatted|e] eqn:Ef; [|discriminate].
  cbn [bind] in H. injection H as <-.
  exists region, url, sel. repeat split; try reflexivity; assumption.
Qed.

Lemma formatTrip_copies (h : Host) tz data trip out :
  formatTrip h tz data trip = Ok out ->
  FormattedTrip.id out = Trip.id trip
  /\ FormattedTrip.score out = Trip.weightedScore trip
  /\ FormattedTrip.cost out = Trip.moneyCost trip
  /\ FormattedTrip.currency out = Trip.currencySymbol trip
  /\ FormattedTrip.url out = Trip.saveURL trip.
Proof.
  unfold formatTrip.
  destruct (toISOStringInTimezone h (TimeClip (Trip.depart trip * 1000)) tz);
    [|discriminate].
  destruct (toISOStringInTimezone h (TimeClip (Trip.arrive trip * 1000)) tz);
    [|discriminate].
  cbn [bind]. intros [= <-]. repeat split; reflexivity.
Qed.

Lemma sort_length {A} (c : A -> A -> Q) (l : list A) :
  length (sort c l) = length l.
Proof.
  induction l as [|x r IH]; [reflexivity|]. cbn [sort length].
  rewrite <- IH. generalize (sort c r). clear. intros s.
  induction s as [|y s IH]; [reflexivity|]. cbn [sort_insert].
  destruct (Qle_bool (c x y) 0); cbn [length]; [reflexivity|].
  now rewrite IH.
Qed.

Lemma sort_In {A} (c : A -> A -> Q) (l : list A) (x : A) :
  In x (sort c l) -> In x l.
Proof.
  induction l as [|y r IH]; [tauto|]. cbn [sort].
  assert (Hi : forall s, In x (sort_insert c y s) -> x = y \/ In x s).
  { clear. induction s as [|z s IH]; cbn [sort_insert].
    - intros [->|[]]. now left.
    - destruct (Qle_bool (c y z) 0).
      + intros [->|H]; [now left|now right].
      + intros [->|H]; [right; now left|].
        destruct (IH H); [now left|right; now right]. }
  intros H. destruct (Hi _ H) as [->|H']; [now left|right; auto].
Qed.

Lemma In_sort {A} (c : A -> A -> Q) (l : list A) (x : A) :
  In x l -> In x (sort c l).
Proof.
  induction l as [|y r IH]; [tauto|]. cbn [sort].
  assert (Hi : forall s, x = y \/ In x s -> In x (sort_insert c y s)).
  { clear. induction s as [|z s IH]; cbn [sort_insert].
    - intros [->|[]]. now left.
    - destruct (Qle_bool (c y z) 0).
      + intros [->|H]; [now left|now right].
      + intros [->|[->|H]]; [right; apply IH; now left|now left|].
        right. apply IH. now right. }
  intros [->|H]; apply Hi; [now left|right; auto].
Qed.

Lemma In_firstn {A} (n : nat) (l : list A) (x : A) :
  In x (firstn n l) -> In x l.
Proof.
  revert l. induction n as [|n IH]; intros [|y r]; cbn; try tauto.
  intros [->|H]; [now left|right; now apply IH].
Qed.

Lemma concat_length_bound {A} (ls : list (list A)) (k : nat) :
  Forall (fun l => (length l <= k)%nat) ls ->
  (length (concat ls) <= k * length ls)%nat.
Proof.
  induction 1 as [|l r Hl _ IH]; cbn [concat length]; [lia|].
  rewrite length_app. lia.
Qed.



Lemma Forall2_In_r {A B} (R : A -> B -> Prop) (l : list A) (l' : list B) b :
  Forall2 R l l' -> In b l' -> exists a, In a l /\ R a b.
Proof.
  induction 1 as [|x y r r' Hxy _ IH]; [contradiction|].
  intros [<-|Hb].
  - exists x. split; [now left|exact Hxy].
  - destruct (IH Hb) as (a & Ha & HR). exists a. split; [now right|exact HR].
Qed.

Lemma In_slice0 {A} (l : list A) (e : option Z) (x : A) :
  In x (slice0 l e) -> In x l.
Proof.
  unfold slice0. destruct e as [n|]; [|tauto].
  destruct (n <? 0); apply In_firstn.
Qed.

(** Every trip that [selectedGroups] keeps is a trip of a group of the
    response, whatever the limit. *)
Lemma selected_trips_come_from_groups data groups lim sel s t :
  RoutingResponse.groups data = Some groups ->
  selectedGroups data lim = Ok sel ->
  In s sel -> In t (SelectedGroup.trips s) ->
  exists grp, In grp groups /\ In t (TripGroup.trips grp).
Proof.
  intros Hg Hsel Hs Ht. unfold selectedGroups in Hsel. rewrite Hg in Hsel.
  destruct (mapM selectGroup groups) as [mapped|e] eqn:E; [|discriminate].
  cbn [bind] in Hsel. injection Hsel as <-.
  apply In_slice0, sort_In in Hs. apply mapM_Forall2 in E.
  destruct (Forall2_In_r _ _ _ _ E Hs) as (grp & Hgrp & Hsg).
  apply selectGroup_inv in Hsg. destruct Hsg as (_ & Htrips & _).
  exists grp. split; [exact Hgrp|]. rewrite Htrips in Ht. unfold bestTwo in Ht.
  now apply In_firstn, sort_In in Ht.
Qed.

(** X2.  Every trip that a routing call returns is the rendering of a trip
    of some group of the response: it has that trip's id, score, cost,
    currency and URL.  Nothing is invented, whatever the limit. *)
Theorem routing_returns_trips_of_the_response :
  forall (g : Geo) (h : Host) (regionsData : RegionsResponse.t)
         (data : RoutingResponse.t) (a : RoutingArgs)
         (groups : list TripGroup.t) (out : RoutingOutput.t)
         (f : FormattedTrip.t),
    RoutingResponse.groups data = Some groups ->
    handleRouting g h regionsData data a = Ok out ->
    In f (RoutingOutput.trips out) ->
    exists grp t,
      In grp groups /\ In t (TripGroup.trips grp)
      /\ FormattedTrip.id f = Trip.id t
      /\ FormattedTrip.score f = Trip.weightedScore t
      /\ FormattedTrip.cost f = Trip.moneyCost t
      /\ FormattedTrip.currency f = Trip.currencySymbol t
      /\ FormattedTrip.url f = Trip.saveURL t.
Proof.
  intros g h regionsData data a groups out f Hg Hout Hf.
  destruct (handleRouting_inv g h regionsData data a out Hout)
    as (region & url & sel & _ & _ & _ & Hsel & Hfmt & _).
  apply mapM_Forall2 in Hfmt.
  destruct (Forall2_In_r _ _ _ _ Hfmt Hf) as (t & Ht & Hft).
  apply in_concat in Ht. destruct Ht as (ts & Hts & Ht).
  apply in_map_iff in Hts. destruct Hts as (s & <- & Hs).
  destruct (selected_trips_come_from_groups data groups (limit a) sel s t
              Hg Hsel Hs Ht) as (grp & Hgrp & Htg).
  exists grp, t. split; [exact Hgrp|]. split; [exact Htg|].
  exact (formatTrip_copies _ _ _ _ _ Hft).
Qed.

Lemma routing_returns_trips_of_the_response_witness :
  exists out f,
    handleRouting reference_geo reference_host sample_regions
                  (routing_response sample_groups) sample_args = Ok out
    /\ In f (RoutingOutput.trips out)
    /\ exists grp t,
         In grp sample_groups /\ In t (TripGroup.trips grp)
         /\ FormattedTrip.id f = Trip.id t
         /\ FormattedTrip.score f = Trip.weightedScore t
         /\ FormattedTrip.cost f = Trip.moneyCost t
         /\ FormattedTrip.currency f = Trip.currencySymbol t
         /\ FormattedTrip.url f = Trip.saveURL t.
Proof.
  eexists. eexists. split; [vm_compute; reflexivity|].
  split; [left; reflexivity|].
  refine (routing_returns_trips_of_the_response reference_geo reference_host
            sample_regions (routing_response sample_groups) sample_args
            sample_groups _ _ _ _ _).
  - reflexivity.
  - vm_compute. reflexivity.
  - left. reflexivity.
Defined.

Lemma concat_firstn_head {A} (n : nat) (ls : list (list A)) (x : A) xs :
  Forall (fun l => l <> []) ls ->
  concat (firstn n ls) = x :: xs ->
  exists tl rest, ls = (x :: tl) :: rest.
Proof.
  intros Hne H. destruct n as [|n]; [discriminate|].
  destruct ls as [|l rest]; [discriminate|]. cbn [firstn concat] in H.
  inversion Hne as [|? ? Hl _]; subst.
  destruct l as [|y tl]; [contradiction|]. cbn in H. injection H as -> _.
  now exists tl, rest.
Qed.

(** X3.  When a routing call returns at least one trip (the limit is not
    negative), the first trip returned has the lowest weighted score of all
    the trips of all the groups of the response. *)
Theorem first_returned_trip_is_the_best :
  forall (g : Geo) (h : Host) (regionsData : RegionsResponse.t)
         (data : RoutingResponse.t) (a : RoutingArgs)
         (groups : list TripGroup.t) (N : Z) (out : RoutingOutput.t)
         (first : FormattedTrip.t) (rest : list FormattedTrip.t),
    RoutingResponse.groups data = Some groups ->
    limit a = Some N ->
    0 <= N ->
    handleRouting g h regionsData data a = Ok out ->
    RoutingOutput.trips out = first :: rest ->
    forall grp t,
      In grp groups -> In t (TripGroup.trips grp) ->
      (FormattedTrip.score first <= Trip.weightedScore t)%Q.
Proof.
  intros g h regionsData data a groups N out first rest Hg Hlim HN Hout Hfirst
         grp t Hgrp Ht.
  destruct (handleRouting_inv g h regionsData data a out Hout)
    as (region & url & sel & _ & _ & _ & Hsel & Hfmt & _).
  rewrite Hlim in Hsel.
  destruct (selectedGroups_inv data groups N sel Hg HN Hsel) as [Hne Hmap].
  rewrite Hmap, Hfirst in Hfmt. apply mapM_Forall2 in Hfmt.
  set (ranked := sort (fun a b => representativeScore a - representativeScore b)%Q
                      (map bestTwo groups)) in *.
  inversion Hfmt as [|t0 f0 ts fs Hf0 _ Hconcat Hf]; subst f0 fs.
  symmetry in Hconcat.
  assert (Hall : Forall (fun l : list Trip.t => l <> []) ranked).
  { apply Forall_forall. intros l Hl. subst ranked. apply sort_In in Hl.
    apply in_map_iff in Hl. destruct Hl as (grp' & <- & Hgrp').
    rewrite Forall_forall in Hne. specialize (Hne grp' Hgrp').
    unfold bestTwo.
    destruct (sort byWeightedScore (TripGroup.trips grp')) as [|b s] eqn:E.
    - apply sort_nil_inv in E. contradiction.
    - discriminate. }
  destruct (concat_firstn_head _ _ _ _ Hall Hconcat) as (tl & others & Hr).
  apply formatTrip_copies in Hf0. destruct Hf0 as (_ & Hscore & _).
  rewrite Hscore.
  pose proof (sort_sorted representativeScore (map bestTwo groups)) as Hs.
  fold ranked in Hs. rewrite Hr in Hs.
  assert (Hin : In (bestTwo grp) ranked)
    by (subst ranked; apply In_sort, in_map; exact Hgrp).
  assert (Hrep : (Trip.weightedScore t0 <= representativeScore (bestTwo grp))%Q).
  { rewrite Hr in Hin. inversion Hs as [|? ? _ Hle]; subst.
    destruct Hin as [<-|Hin]; [cbn; lra|].
    rewrite Forall_forall in Hle. exact (Hle _ Hin). }
  unfold bestTwo in Hrep. rewrite representativeScore_firstn in Hrep.
  pose proof (representativeScore_lowest (TripGroup.trips grp) _
                (sort_stable_sorted Trip.weightedScore (TripGroup.trips grp))
                t Ht) as Hlow.
  unfold byWeightedScore in Hrep. lra.
Qed.

Lemma first_returned_trip_is_the_best_witness :
  exists out first rest,
    handleRouting reference_geo reference_host sample_regions
                  (routing_response sample_groups) sample_args = Ok out
    /\ RoutingOutput.trips out = first :: rest
    /\ forall grp t,
         In grp sample_groups -> In t (TripGroup.trips grp) ->
         (FormattedTrip.score first <= Trip.weightedScore t)%Q.
Proof.
  eexists. eexists. eexists. split; [vm_compute; reflexivity|].
  split; [reflexivity|].
  refine (first_returned_trip_is_the_best reference_geo reference_host
            sample_regions (routing_response sample_groups) sample_args
            sample_groups 2 _ _ _ _ _ _ _ _).
  - reflexivity.
  - reflexivity.
  - lia.
  - vm_compute. reflexivity.
  - reflexivity.
Defined.

(** ** Segments and their templates *)

Definition templatesOf (data : RoutingResponse.t) : list SegmentTemplate.t :=
  match RoutingResponse.segmentTemplates data with
  | Some templates => templates
  | None => []
  end.

Lemma find_none_iff {A} (p : A -> bool) (l : list A) :
  find p l = None <-> forall x, In x l -> p x = false.
Proof.
  induction l as [|y r IH]; cbn [find].
  - split; [intros _ x []|reflexivity].
  - destruct (p y) eqn:E.
    + split; [discriminate|]. intros H. rewrite (H y) in E by now left.
      discriminate.
    + rewrite IH. split.
      * intros H x [<-|Hx]; auto.
      * intros H x Hx. apply H. now right.
Qed.

Lemma find_first {A} (p : A -> bool) (before after : list A) (t : A) :
  (forall x, In x before -> p x = false) -> p t = true ->
  find p (before ++ t :: after) = Some t.
Proof.
  intros Hb Ht. induction before as [|y r IH]; cbn [app find].
  - now rewrite Ht.
  - rewrite (Hb y) by now left. apply IH. intros x Hx. apply Hb. now right.
Qed.

(** X4.  A segment whose hash code is the hash code of no template of the
    response (or of a response without templates) is still formatted: its
    mode is "Unknown Mode", its action, origin and destination are absent,
    and its duration and service fields are those of the segment. *)
Theorem segment_without_template_is_unknown_mode :
  forall (data : RoutingResponse.t) (segment : SegmentReference.t),
    (forall t, In t (templatesOf data) ->
               SegmentTemplate.hashCode t
               <> SegmentReference.segmentTemplateHashCode segment) ->
    formatSegment data segment
    = {| FormattedSegment.mode := "Unknown Mode";
         FormattedSegment.duration :=
           (SegmentReference.endTime segment
            - SegmentReference.startTime segment) / 60;
         FormattedSegment.action := None;
         FormattedSegment.serviceName := SegmentReference.serviceName segment;
         FormattedSegment.serviceNumber :=
           SegmentReference.serviceNumber segment;
         FormattedSegment.from := None;
         FormattedSegment.to := None |}.
Proof.
  intros data segment H. unfold formatSegment.
  assert (E : findTemplate data
                (SegmentReference.segmentTemplateHashCode segment) = None).
  { unfold findTemplate, templatesOf in *.
    destruct (RoutingResponse.segmentTemplates data) as [ts|]; [|reflexivity].
    cbn [option_bind]. apply find_none_iff. intros t Ht.
    apply Z.eqb_neq. now apply H. }
  rewrite E. reflexivity.
Qed.

Lemma segment_without_template_is_unknown_mode_witness :
  formatSegment (routing_response []) (leg 999 1752829200 1752829500)
  = {| FormattedSegment.mode := "Unknown Mode";
       FormattedSegment.duration := (1752829500 - 1752829200) / 60;
       FormattedSegment.action := None;
       FormattedSegment.serviceName := None;
       FormattedSegment.serviceNumber := None;
       FormattedSegment.from := None;
       FormattedSegment.to := None |}.
Proof.
  apply (segment_without_template_is_unknown_mode (routing_response [])
           (leg 999 1752829200 1752829500)).
  intros t [<-|[]]. discriminate.
Defined.

(** X5.  When several templates have the hash code of a segment, the first
    one in the list of the response describes it: the mode is its [alt] text
    (or "Unknown Mode" when that text is empty), and the action and the
    addresses are its own.  The templates after it do not matter. *)
Theorem segment_takes_first_matching_template :
  forall (data : RoutingResponse.t) (segment : SegmentReference.t)
         (before after : list SegmentTemplate.t) (t : SegmentTemplate.t),
    RoutingResponse.segmentTemplates data = Some (before ++ t :: after) ->
    (forall x, In x before ->
               SegmentTemplate.hashCode x
               <> SegmentReference.segmentTemplateHashCode segment) ->
    SegmentTemplate.hashCode t
    = SegmentReference.segmentTemplateHashCode segment ->
    formatSegment data segment
    = {| FormattedSegment.mode :=
           if truthy (ModeInfo.alt (SegmentTemplate.modeInfo t))
           then ModeInfo.alt (SegmentTemplate.modeInfo t)
           else "Unknown Mode";
         FormattedSegment.duration :=
           (SegmentReference.endTime segment
            - SegmentReference.startTime segment) / 60;
         FormattedSegment.action := SegmentTemplate.action t;
         FormattedSegment.serviceName := SegmentReference.serviceName segment;
         FormattedSegment.serviceNumber :=
           SegmentReference.serviceNumber segment;
         FormattedSegment.from :=
           option_bind (SegmentTemplate.from t) Location.address;
         FormattedSegment.to :=
           option_bind (SegmentTemplate.to t) Location.address |}.
Proof.
  intros data segment before after t Hd Hb Ht. unfold formatSegment.
  assert (E : findTemplate data
                (SegmentReference.segmentTemplateHashCode segment) = Some t).
  { unfold findTemplate. rewrite Hd. cbn [option_bind]. apply find_first.
    - intros x Hx. apply Z.eqb_neq. now apply Hb.
    - now apply Z.eqb_eq. }
  rewrite E. reflexivity.
Qed.

(** A second template with the hash code of [walk] and another text. *)
Definition stroll : SegmentTemplate.t :=
  {| SegmentTemplate.hashCode := 101;
     SegmentTemplate.modeInfo :=
       {| ModeInfo.identifier := "wa_wal"; ModeInfo.alt := "Stroll" |};
     SegmentTemplate.from := None; SegmentTemplate.to := None;
     SegmentTemplate.action := None;
     SegmentTemplate.notes := None |}.

Lemma segment_takes_first_matching_template_witness :
  FormattedSegment.mode
    (formatSegment
       {| RoutingResponse.error := None;
          RoutingResponse.errorMessage := None;
          RoutingResponse.groups := None;
          RoutingResponse.segmentTemplates := Some [walk; stroll] |}
       (leg 101 1752829200 1752829500))
  = "Walk".
Proof.
  rewrite (segment_takes_first_matching_template _
             (leg 101 1752829200 1752829500) [] [stroll] walk).
  - reflexivity.
  - reflexivity.
  - intros x [].
  - reflexivity.
Defined.

(** ** Local times and instants *)




(** A digit is not a letter or a sign. *)
Lemma is_digit_digit n : is_digit (digit n) = true.
Proof.
  unfold is_digit, digit.
  pose proof (Z.mod_pos_bound n 10 ltac:(lia)) as Hb.
  rewrite N_ascii_embedding by lia.
  apply andb_true_iff. split; apply N.leb_le; lia.
Qed.

Lemma digit_neq (n : Z) (c : ascii) :
  is_digit c = false -> Ascii.eqb (digit n) c = false.
Proof.
  intros H. destruct (Ascii.eqb_spec (digit n) c) as [E|]; [|reflexivity].
  rewrite <- E, is_digit_digit in H. discriminate H.
Qed.

(** The naive local text of a reading has no [Z] and no offset at its end:
    [formatDateForTripGo] takes it to be a time of the zone. *)
Lemma isoLocal_is_naive w :
  includes_char "Z" (isoLocal w) || ends_with_offset (isoLocal w) = false.
Proof.
  unfold isoLocal, pad4, pad3, pad2. cbn [String.append].
  apply orb_false_iff. split.
  - cbn [includes_char]. rewrite !(digit_neq _ "Z") by reflexivity.
    reflexivity.
  - unfold ends_with_offset. cbn [list_ascii_of_string rev app].
    reflexivity.
Qed.

(** X7.  For a valid wall-clock reading with a four-digit year, written as
    a naive text [YYYY-MM-DDTHH:MM:SS], and a zone the host knows,
    [formatDateForTripGo] sends upstream the epoch seconds of the reading
    taken as UTC less the offset that the zone has at that instant. *)
Theorem naive_time_is_taken_in_the_zone :
  forall (h : Host) (zone : string) (off : Z -> Z) (w : WallClock),
    timeZone h zone = Some off ->
    valid_wall w ->
    1000 <= year w <= 9999 ->
    formatDateForTripGo h (isoLocal w) zone
    = Ok (Some (wall_to_epoch w - off (wall_to_epoch w))).
Proof.
  intros h zone off w Hz Hv Hy. unfold formatDateForTripGo.
  rewrite isoLocal_is_naive.
  rewrite (zonedTimeToUtc_value h zone off) by assumption.
  cbn [bind floor_seconds]. now rewrite seconds_of_millis.
Qed.

Lemma naive_time_is_taken_in_the_zone_witness :
  formatDateForTripGo reference_host "2025-07-18T19:00:00" "Australia/Sydney"
  = Ok (Some (1752865200 - sydney_offset 1752865200)).
Proof.
  refine (naive_time_is_taken_in_the_zone reference_host "Australia/Sydney"
            sydney_offset
            {| year := 2025; month := 7; day := 18;
               hour := 19; minute := 0; second := 0 |} _ _ _).
  - reflexivity.
  - unfold valid_wall, valid_date. cbn. lia.
  - cbn. lia.
Defined.

(** A text that says its own offset. *)
Definition explicit (text : string) : bool :=
  includes_char "Z" text || ends_with_offset text.

(** X8.  When the departure and arrival times that a request uses carry a
    [Z] or end with an offset [+HH:MM] or [-HH:MM], the request does not
    depend on the zone of the region: it is built, and is the same, for
    every zone name, known to the host or not. *)
Theorem explicit_times_do_not_use_the_zone :
  forall (h : Host) (a : RoutingArgs) (tz1 tz2 : string),
    (forall text, if_truthy (departureTime a) = Some text ->
                  explicit text = true) ->
    (forall text, if_truthy (arrivalTime a) = Some text ->
                  explicit text = true) ->
    routingUrl h tz1 a = routingUrl h tz2 a
    /\ exists url, routingUrl h tz1 a = Ok url.
Proof.
  intros h a tz1 tz2 Hd Ha.
  assert (Ht : forall tz,
             timeParams h tz (departureTime a) (arrivalTime a)
             = match if_truthy (departureTime a) with
               | Some d =>
                   Ok [("departAfter",
                        PSeconds (floor_seconds (Date_parse h d)))]
               | None =>
                   match if_truthy (arrivalTime a) with
                   | Some t =>
                       Ok [("arriveBefore",
                            PSeconds (floor_seconds (Date_parse h t)))]
                   | None => Ok []
                   end
               end).
  { intros tz. unfold timeParams, formatDateForTripGo.
    destruct (if_truthy (departureTime a)) as [d|].
    - specialize (Hd d eq_refl). unfold explicit in Hd. rewrite Hd.
      reflexivity.
    - destruct (if_truthy (arrivalTime a)) as [t|]; [|reflexivity].
      specialize (Ha t eq_refl). unfold explicit in Ha. rewrite Ha.
      reflexivity. }
  unfold routingUrl. rewrite !Ht. split; [reflexivity|].
  destruct (if_truthy (departureTime a)) as [d|];
    [|destruct (if_truthy (arrivalTime a)) as [t|]];
    cbn [bind]; eexists; reflexivity.
Qed.

Definition with_offset : RoutingArgs :=
  {| fromLat := -3387 # 100; fromLng := 15121 # 100;
     toLat := -3386 # 100; toLng := 15120 # 100;
     departureTime := Some "2025-07-18T19:00:00+10:00";
     arrivalTime := None; modes := None; maxWalkingTime := None;
     wheelchair := None; limit := None |}.

Lemma explicit_times_do_not_use_the_zone_witness :
  routingUrl reference_host "Australia/Sydney" with_offset
  = routingUrl reference_host "Mars/Olympus" with_offset
  /\ exists url, routingUrl reference_host "Australia/Sydney" with_offset
                 = Ok url.
Proof.
  apply (explicit_times_do_not_use_the_zone reference_host with_offset
           "Australia/Sydney" "Mars/Olympus").
  - intros text [= <-]. vm_compute. reflexivity.
  - intros text H. discriminate H.
Defined.

(** X9.  A departure time that is not empty, carries no offset, and that
    [Date.parse] cannot read is not refused: for a zone the host knows the
    request is built, with [departAfter] set to NaN. *)
Theorem unreadable_departure_time_is_sent_as_NaN :
  forall (h : Host) (tz : string) (off : Z -> Z) (a : RoutingArgs)
         (text : string),
    departureTime a = Some text ->
    text <> EmptyString ->
    explicit text = false ->
    Date_parse h (text +++ "Z") = None ->
    timeZone h tz = Some off ->
    formatDateForTripGo h text tz = Ok None
    /\ exists url, routingUrl h tz a = Ok url
                   /\ In ("departAfter", PSeconds None) url.
Proof.
  intros h tz off a text Hd Hne He Hp Hz.
  assert (Hf : formatDateForTripGo h text tz = Ok None).
  { unfold formatDateForTripGo. unfold explicit in He. rewrite He.
    unfold zonedTimeToUtc, Date_via_locale, toLocaleString.
    rewrite Hp, Hz. destruct (timeZone_UTC h) as (utc & -> & _).
    reflexivity. }
  split; [exact Hf|].
  unfold routingUrl, timeParams. rewrite Hd.
  replace (if_truthy (Some text)) with (Some text)
    by (destruct text; [contradiction|reflexivity]).
  rewrite Hf. cbn [bind]. eexists. split; [reflexivity|].
  cbn [app In]. right. right. now left.
Qed.

Definition vague : RoutingArgs :=
  {| fromLat := -3387 # 100; fromLng := 15121 # 100;
     toLat := -3386 # 100; toLng := 15120 # 100;
     departureTime := Some "tomorrow morning";
     arrivalTime := None; modes := None; maxWalkingTime := None;
     wheelchair := None; limit := None |}.

Lemma unreadable_departure_time_is_sent_as_NaN_witness :
  formatDateForTripGo reference_host "tomorrow morning" "Australia/Sydney"
  = Ok None
  /\ exists url, routingUrl reference_host "Australia/Sydney" vague = Ok url
                 /\ In ("departAfter", PSeconds None) url.
Proof.
  apply (unreadable_departure_time_is_sent_as_NaN reference_host
           "Australia/Sydney" sydney_offset vague "tomorrow morning").
  - reflexivity.
  - discriminate.
  - vm_compute. reflexivity.
  - vm_compute. reflexivity.
  - reflexivity.
Defined.

Lemma epoch_to_wall_year t :
  0 <= t <= 253370764800 -> 1000 <= year (epoch_to_wall t) <= 9999.
Proof.
  intros Ht. unfold epoch_to_wall, civil_from_days. cbv zeta.
  set (z' := t / 86400 + 719468).
  set (era := z' / 146097).
  set (doe := z' - era * 146097).
  assert (Hz : 719468 <= z' <= 3652000)
    by (subst z'; Z.div_mod_to_equations; lia).
  assert (Hdoe : 0 <= doe < 146097)
    by (subst doe era; Z.div_mod_to_equations; lia).
  destruct (yoe_of_range doe Hdoe) as [Hyoe _].
  assert (Hup : era * 400 + yoe_of doe <= 9998).
  { subst doe era. unfold yoe_of. Z.div_mod_to_equations. lia. }
  assert (Hlo : 4 <= era) by (subst era; Z.div_mod_to_equations; lia).
  destruct (month_day_of (doe - doe_of (yoe_of doe) 0)) as [m d].
  cbn [year]. destruct (m <=? 2); lia.
Qed.

(** X10.  For a zone the host knows and a trip that departs and arrives
    between 1970-01-02 and the end of the year 9998, [formatTrip] succeeds,
    and the departure and arrival texts are the wall-clock readings of the
    two instants in that zone, each followed by the offset text of the zone
    at that instant. *)
Theorem trip_times_are_shown_in_the_zone :
  forall (h : Host) (zone : string) (off : Z -> Z)
         (data : RoutingResponse.t) (trip : Trip.t),
    timeZone h zone = Some off ->
    86400 <= Trip.depart trip <= 253370678400 ->
    86400 <= Trip.arrive trip <= 253370678400 ->
    exists out,
      formatTrip h zone data trip = Ok out
      /\ FormattedTrip.depart out
         = isoLocal (epoch_to_wall (Trip.depart trip + off (Trip.depart trip)))
           +++ or_else (Some (longOffset h (off (Trip.depart trip)))) "+00:00"
      /\ FormattedTrip.arrive out
         = isoLocal (epoch_to_wall (Trip.arrive trip + off (Trip.arrive trip)))
           +++ or_else (Some (longOffset h (off (Trip.arrive trip)))) "+00:00".
Proof.
  intros h zone off data trip Hz Hd Ha.
  assert (Hshow : forall u, 86400 <= u <= 253370678400 ->
            toISOStringInTimezone h (TimeClip (u * 1000)) zone
            = Ok (isoLocal (epoch_to_wall (u + off u))
                  +++ or_else (Some (longOffset h (off u))) "+00:00")).
  { intros u Hu. rewrite TimeClip_id by lia. rewrite (Z.mul_comm u 1000).
    pose proof (timeZone_bounded h zone off u Hz) as Ho.
    apply (toISOStringInTimezone_value h zone off); [exact Hz|reflexivity|].
    apply epoch_to_wall_year. lia. }
  unfold formatTrip. rewrite (Hshow _ Hd), (Hshow _ Ha). cbn [bind].
  eexists. split; [reflexivity|]. split; reflexivity.
Qed.

Lemma trip_times_are_shown_in_the_zone_witness :
  exists out,
    formatTrip reference_host "Australia/Sydney" (routing_response [])
               (sample_trip "b1" 10 1) = Ok out
    /\ FormattedTrip.depart out = "2025-07-18T19:00:00GMT+10:00"
    /\ FormattedTrip.arrive out = "2025-07-18T19:10:00GMT+10:00".
Proof.
  refine (trip_times_are_shown_in_the_zone reference_host "Australia/Sydney"
            sydney_offset (routing_response []) (sample_trip "b1" 10 1)
            _ _ _).
  - reflexivity.
  - cbn. lia.
  - cbn. lia.
Defined.

(** ** A region whose zone the host does not know *)






(** ** Failures of the region lookup *)

Lemma findM_error {A} (p : A -> result bool) (before after : list A)
  (x : A) (e : exn) :
  Forall (fun y => p y = Ok false) before -> p x = Err e ->
  findM p (before ++ x :: after) = Err e.
Proof.
  intros Hb Hx. induction Hb as [|y r Hy _ IH]; cbn [app findM].
  - now rewrite Hx.
  - rewrite Hy. cbn [bind]. exact IH.
Qed.

(** X12.  Routing needs the regions first.  An answer of the regions
    endpoint without a [regions] list fails routing with "Failed to fetch
    regions"; and a region on which the containment test raises, met before
    any region that contains the origin, fails routing with that error,
    whatever regions follow it and whatever the routing answer is. *)
Theorem region_lookup_failure_fails_routing :
  forall (g : Geo) (h : Host) (data : RoutingResponse.t) (a : RoutingArgs),
    handleRouting g h {| RegionsResponse.regions := None |} data a
    = Err (Error "Failed to fetch regions")
    /\ tripgoRoutingTool_execute g h {| RegionsResponse.regions := None |}
                                 data a
       = Err (Error "Error in tripgo_routing: Failed to fetch regions")
    /\ forall (before after : list Region.t) (bad : Region.t) (e : exn),
         Forall (fun r => coordinateInPolygon g
                            {| lat := fromLat a; lng := fromLng a |}
                            (Region.polygon r) = Ok false) before ->
         coordinateInPolygon g {| lat := fromLat a; lng := fromLng a |}
                             (Region.polygon bad) = Err e ->
         handleRouting g h
           {| RegionsResponse.regions := Some (before ++ bad :: after) |}
           data a
         = Err e.
Proof.
  intros g h data a. split; [reflexivity|]. split; [reflexivity|].
  intros before after bad e Hb He.
  unfold handleRouting, getRegionForCoordinate, fetchRegions.
  cbn [RegionsResponse.regions bind].
  rewrite (findM_error
             (fun region => coordinateInPolygon g
                              {| lat := fromLat a; lng := fromLng a |}
                              (Region.polygon region))
             before after bad e Hb He).
  reflexivity.
Qed.

(** A region with an empty polygon ahead of Sydney makes routing from
    Sydney fail. *)
Lemma empty_region_polygon_fails_routing :
  handleRouting reference_geo reference_host
    {| RegionsResponse.regions :=
         Some [melbourne;
               {| Region.name := "Nowhere"; Region.polygon := EmptyString;
                  Region.timezone := "UTC" |};
               sydney] |}
    (routing_response sample_groups) sample_args
  = Err (TypeError "Cannot read properties of undefined (reading '0')").
Proof. vm_compute. reflexivity. Qed.

(** ** The ring handed to Turf *)

(** X13.  The closing step fails on the empty sequence only.  On any other
    sequence it returns the sequence itself or the sequence followed by its
    first position, and what it returns starts and ends on equal
    positions. *)
Theorem closed_ring_starts_and_ends_on_the_same_position :
  forall ring : list Position,
    (is_ok (close_ring ring) = false <-> ring = [])
    /\ forall closed,
         close_ring ring = Ok closed ->
         exists first rest,
           ring = first :: rest
           /\ (closed = ring \/ closed = ring ++ [first])
           /\ (fst first == fst (last closed first))%Q
           /\ (snd first == snd (last closed first))%Q.
Proof.
  intros ring. split.
  - destruct ring as [|first rest]; cbn [close_ring is_ok].
    + tauto.
    + destruct (_ || _); cbn [is_ok]; split; discriminate.
  - intros closed H. destruct ring as [|first rest]; [discriminate|].
    exists first, rest. split; [reflexivity|]. unfold close_ring in H.
    destruct (number_neq (fst first) (fst (last (first :: rest) first))
              || number_neq (snd first) (snd (last (first :: rest) first)))
      eqn:E; injection H as <-.
    + split; [now right|].
      change (last _ first) with (last ((first :: rest) ++ [first]) first).
      rewrite last_last. split; reflexivity.
    + split; [now left|]. apply orb_false_iff in E. destruct E as [E1 E2].
      unfold number_neq in E1, E2. apply negb_false_iff in E1, E2.
      split; now apply Qeq_bool_iff.
Qed.

(** ** The parameters of the routing request *)

Lemma timeParams_shape (h : Host) tz departure arrival time :
  timeParams h tz departure arrival = Ok time ->
  time = []
  \/ (exists s, time = [("departAfter", PSeconds s)])
  \/ (exists s, time = [("arriveBefore", PSeconds s)]).
Proof.
  unfold timeParams.
  destruct (if_truthy departure) as [d|].
  - destruct (formatDateForTripGo h d tz) as [s|e]; [|discriminate].
    cbn [bind]. intros [= <-]. right. left. now exists s.
  - destruct (if_truthy arrival) as [t|]; [|intros [= <-]; now left].
    destruct (formatDateForTripGo h t tz) as [s|e]; [|discriminate].
    cbn [bind]. intros [= <-]. right. right. now exists s.
Qed.

(** X14.  Without a departure time (absent or empty), a non-empty arrival
    time is sent as [arriveBefore], with no [departAfter]; when it cannot be
    taken to UTC the request is not built.  Without either time the request
    is always built and has no time parameter. *)
Theorem arrival_time_is_used_without_departure_time :
  forall (h : Host) (tz : string) (a : RoutingArgs),
    if_truthy (departureTime a) = None ->
    (forall t, if_truthy (arrivalTime a) = Some t ->
       (forall s, formatDateForTripGo h t tz = Ok s ->
                  exists url,
                    routingUrl h tz a = Ok url
                    /\ In ("arriveBefore", PSeconds s) url
                    /\ forall v, ~ In ("departAfter", v) url)
       /\ (forall e, formatDateForTripGo h t tz = Err e ->
                     routingUrl h tz a = Err e))
    /\ (if_truthy (arrivalTime a) = None ->
        exists url,
          routingUrl h tz a = Ok url
          /\ forall v, ~ In ("departAfter", v) url
                       /\ ~ In ("arriveBefore", v) url).
Proof.
  intros h tz a Hd. split.
  - intros t Ha. split.
    + intros s Hs.
      assert (Ht : timeParams h tz (departureTime a) (arrivalTime a)
                   = Ok [("arriveBefore", PSeconds s)])
        by (unfold timeParams; rewrite Hd, Ha, Hs; reflexivity).
      destruct (routingUrl h tz a) as [url|e] eqn:Eu.
      * destruct (routingUrl_time_params h tz a url Eu) as (time & Ht' & Hin).
        rewrite Ht in Ht'. injection Ht' as <-.
        exists url. split; [reflexivity|]. split.
        -- apply Hin; [now right|now left].
        -- intros v Hv. apply Hin in Hv; [|now left].
           destruct Hv as [Hv|[]]. discriminate Hv.
      * unfold routingUrl in Eu. rewrite Ht in Eu. discriminate Eu.
    + intros e He. unfold routingUrl, timeParams. rewrite Hd, Ha, He.
      reflexivity.
  - intros Ha.
    assert (Ht : timeParams h tz (departureTime a) (arrivalTime a) = Ok [])
      by (unfold timeParams; rewrite Hd, Ha; reflexivity).
    destruct (routingUrl h tz a) as [url|e] eqn:Eu.
    + destruct (routingUrl_time_params h tz a url Eu) as (time & Ht' & Hin).
      rewrite Ht in Ht'. injection Ht' as <-.
      exists url. split; [reflexivity|]. intros v. split; intros Hv.
      * apply Hin in Hv; [contradiction|now left].
      * apply Hin in Hv; [contradiction|now right].
    + unfold routingUrl in Eu. rewrite Ht in Eu. discriminate Eu.
Qed.

Definition arrive_only : RoutingArgs :=
  {| fromLat := -3387 # 100; fromLng := 15121 # 100;
     toLat := -3386 # 100; toLng := 15120 # 100;
     departureTime := Some EmptyString;
     arrivalTime := Some "2025-07-18T21:00:00";
     modes := None; maxWalkingTime := None;
     wheelchair := None; limit := None |}.

Lemma arrival_time_is_used_without_departure_time_witness :
  exists url,
    routingUrl reference_host "Australia/Sydney" arrive_only = Ok url
    /\ In ("arriveBefore", PSeconds (Some 1752836400)) url
    /\ forall v, ~ In ("departAfter", v) url.
Proof.
  refine (proj1 (proj1 (arrival_time_is_used_without_departure_time
                          reference_host "Australia/Sydney" arrive_only _)
                       "2025-07-18T21:00:00" _) (Some 1752836400) _).
  - reflexivity.
  - reflexivity.
  - vm_compute. reflexivity.
Defined.

(** The values of the parameters of a request that have a given name, in
    order. *)
Definition paramsNamed (name : string) (url : SearchParams) : list param :=
  map snd (filter (fun p => String.eqb (fst p) name) url).

Definition requestedModes (a : RoutingArgs) : list string :=
  match modes a with Some l => l | None => [] end.

(** X15.  A request that is built carries one [modes] parameter per
    requested mode, in the order given, and [allModes=1] exactly when some
    mode was requested; it carries [v=11] once, and its [from] and [to] are
    the two points. *)
Theorem request_lists_the_requested_modes :
  forall (h : Host) (tz : string) (a : RoutingArgs) (url : SearchParams),
    routingUrl h tz a = Ok url ->
    paramsNamed "modes" url = map PText (requestedModes a)
    /\ paramsNamed "allModes" url
       = match requestedModes a with [] => [] | _ => [PText "1"] end
    /\ paramsNamed "v" url = [PText "11"]
    /\ paramsNamed "from" url = [PPoint (fromLat a) (fromLng a)]
    /\ paramsNamed "to" url = [PPoint (toLat a) (toLng a)].
Proof.
  intros h tz a url H. unfold routingUrl in H.
  destruct (timeParams h tz (departureTime a) (arrivalTime a)) as [time|e]
    eqn:Et; [|discriminate].
  cbn [bind] in H. injection H as <-.
  assert (Hmap : forall (name : string) (l : list string),
             filter (fun p : string * param => String.eqb (fst p) name)
                    (map (fun mode => ("modes", PText mode)) l)
             = if String.eqb "modes" name
               then map (fun mode => ("modes", PText mode)) l else []).
  { intros name l. induction l as [|m r IH]; cbn [map filter fst].
    - now destruct (String.eqb "modes" name).
    - rewrite IH. now destruct (String.eqb "modes" name). }
  unfold paramsNamed, requestedModes.
  apply timeParams_shape in Et.
  destruct Et as [->|[[s ->]|[s ->]]];
    destruct (modes a) as [[|m ms]|];
    destruct (maxWalkingTime a) as [n|];
    try destruct (Qeq_bool n 0);
    destruct (wheelchair a) as [b|];
    cbn [app];
    repeat split;
    repeat (rewrite ?filter_app, ?Hmap; cbn [filter fst app map snd];
            cbn [String.eqb Ascii.eqb Bool.eqb]);
    rewrite ?app_nil_r, ?map_map; reflexivity.
Qed.

Lemma request_lists_the_requested_modes_witness :
  exists url,
    routingUrl reference_host "Australia/Sydney" both_times = Ok url
    /\ paramsNamed "modes" url = [PText "pt_pub"]
    /\ paramsNamed "allModes" url = [PText "1"]
    /\ paramsNamed "v" url = [PText "11"].
Proof.
  eexists. split; [vm_compute; reflexivity|].
  refine (let H := request_lists_the_requested_modes reference_host
                     "Australia/Sydney" both_times _ _ in
          conj (proj1 H) (conj (proj1 (proj2 H)) (proj1 (proj2 (proj2 H))))).
  vm_compute. reflexivity.
Defined.

(** ** Locations *)

Definition countsTotal (c : LocationCounts.t) : nat :=
  LocationCounts.stops c + LocationCounts.bikePods c
  + LocationCounts.carParks c + LocationCounts.carPods c
  + LocationCounts.carRentals c + LocationCounts.freeFloating c.

Lemma each_length {A B} (xs : option (list A)) (f : A -> B) :
  length (each xs f) = count xs.
Proof. destruct xs; [apply length_map|reflexivity]. Qed.

Lemma formatLocationGroup_length grp :
  length (formatLocationGroup grp) = countsTotal (locationCounts grp).
Proof.
  unfold formatLocationGroup, countsTotal, locationCounts.
  cbn [LocationCounts.stops LocationCounts.bikePods LocationCounts.carParks
       LocationCounts.carPods LocationCounts.carRentals
       LocationCounts.freeFloating].
  rewrite !length_app, !each_length. lia.
Qed.

(** X16.  When the locations answer carries no error, the search returns;
    the total it reports is the number of locations it lists, and it is the
    sum of the six per-category counts of all the groups, where a category
    that a group lacks counts for 0. *)
Theorem locations_total_is_the_sum_of_the_counts :
  forall data : LocationsResponse.t,
    if_truthy (LocationsResponse.error data) = None ->
    exists out,
      handleLocationsSearch data = Ok out
      /\ LocationsOutput.totalLocations out
         = length (LocationsOutput.locations out)
      /\ LocationsOutput.totalLocations out
         = list_sum (map countsTotal
                         (match LocationsOutput.groups out with
                          | Some counts => counts
                          | None => []
                          end))
      /\ LocationsOutput.groups out
         = option_map (map locationCounts) (LocationsResponse.groups data).
Proof.
  intros data He. unfold handleLocationsSearch, throwOnError. rewrite He.
  cbn [bind]. eexists. split; [reflexivity|].
  cbn [LocationsOutput.totalLocations LocationsOutput.locations
       LocationsOutput.groups].
  split; [reflexivity|]. split; [|reflexivity].
  destruct (LocationsResponse.groups data) as [groups|];
    cbn [each option_map]; [|reflexivity].
  induction groups as [|grp r IH]; [reflexivity|].
  cbn [map concat list_sum]. rewrite length_app, IH.
  now rewrite formatLocationGroup_length.
Qed.

Definition place (name code : string) : Location.t :=
  {| Location.lat := -3388 # 100; Location.lng := 15120 # 100;
     Location.address := None; Location.name := Some name;
     Location.code := Some code; Location.region := Some "AU_NSW_Sydney";
     Location.services := None |}.

(** One group with two stops, one bike pod, an empty list of car parks and
    no other category. *)
Definition locations_response : LocationsResponse.t :=
  {| LocationsResponse.error := None;
     LocationsResponse.errorMessage := None;
     LocationsResponse.groups :=
       Some [{| LocationGroup.key := "cell";
                LocationGroup.hashCode := 7;
                LocationGroup.stops :=
                  Some [sample_stop; place "Town Hall" "200070"];
                LocationGroup.bikePods := Some [place "Bikes" "B1"];
                LocationGroup.carParks := Some [];
                LocationGroup.carPods := None;
                LocationGroup.carRentals := None;
                LocationGroup.freeFloating := None |}] |}.

Lemma locations_total_is_the_sum_of_the_counts_witness :
  exists out,
    handleLocationsSearch locations_response = Ok out
    /\ LocationsOutput.totalLocations out
       = length (LocationsOutput.locations out)
    /\ LocationsOutput.totalLocations out
       = list_sum (map countsTotal
                       (match LocationsOutput.groups out with
                        | Some counts => counts
                        | None => []
                        end))
    /\ LocationsOutput.groups out
       = option_map (map locationCounts)
                    (LocationsResponse.groups locations_response).
Proof.
  apply (locations_total_is_the_sum_of_the_counts locations_response).
  reflexivity.
Defined.






(** ** Departures *)

(** The services of a departures answer, stop by stop, in upstream order. *)
Definition servicesOf (embarkationStop : EmbarkationStop.t)
  : list ServiceInfo.t :=
  match EmbarkationStop.services embarkationStop with
  | Some services => services
  | None => []
  end.

Definition allServices (data : DeparturesResponse.t) : list ServiceInfo.t :=
  concat (map servicesOf
              (match DeparturesResponse.embarkationStops data with
               | Some l => l
               | None => []
               end)).

(** Epoch seconds that [Date] can hold. *)
Definition in_Date_range (seconds : Z) : Prop :=
  Z.abs (seconds * 1000) <= 8640000000000000.

Definition service_in_range (s : ServiceInfo.t) : Prop :=
  in_Date_range (ServiceInfo.startTime s)
  /\ (forall n, if_nonzero (ServiceInfo.realTimeDeparture s) = Some n ->
                in_Date_range n)
  /\ (forall v, ServiceInfo.realtimeVehicle s = Some v ->
                in_Date_range (RealtimeVehicle.lastUpdate v)).

Lemma isoOfSeconds_total n :
  in_Date_range n -> exists text, isoOfSeconds n = Ok text.
Proof.
  intros H. unfold isoOfSeconds. rewrite TimeClip_id by exact H.
  cbn [toISOString]. eexists. reflexivity.
Qed.

Lemma isoOfSeconds_error n e :
  isoOfSeconds n = Err e -> e = RangeError "Invalid time value".
Proof.
  unfold isoOfSeconds, TimeClip.
  destruct (Z.abs (n * 1000) <=? 8640000000000000); cbn [toISOString].
  - discriminate.
  - now intros [= <-].
Qed.

Lemma isoOfSeconds_out_of_range n :
  ~ in_Date_range n -> isoOfSeconds n = Err (RangeError "Invalid time value").
Proof.
  intros H. unfold isoOfSeconds, TimeClip, in_Date_range in *.
  destruct (Z.leb_spec (Z.abs (n * 1000)) 8640000000000000);
    [contradiction|reflexivity].
Qed.

Lemma formatDeparture_total s :
  service_in_range s ->
  exists d,
    formatDeparture s = Ok d
    /\ FormattedService.id (FormattedDeparture.service d)
       = ServiceInfo.serviceTripID s
    /\ FormattedDeparture.realTime d
       = is_real_time (ServiceInfo.realTimeStatus s).
Proof.
  intros (Hs & Hr & Hv). unfold formatDeparture.
  destruct (isoOfSeconds_total _ Hs) as (t1 & ->). cbn [bind].
  assert (E2 : exists r,
             whenSome (if_nonzero (ServiceInfo.realTimeDeparture s))
                      isoOfSeconds = Ok r).
  { destruct (if_nonzero (ServiceInfo.realTimeDeparture s)) as [n|];
      cbn [whenSome]; [|eexists; reflexivity].
    destruct (isoOfSeconds_total n (Hr n eq_refl)) as (t & ->).
    cbn [bind]. eexists. reflexivity. }
  destruct E2 as (r & ->). cbn [bind].
  assert (E3 : exists v,
             whenSome (ServiceInfo.realtimeVehicle s) formatVehicle = Ok v).
  { destruct (ServiceInfo.realtimeVehicle s) as [v|];
      cbn [whenSome]; [|eexists; reflexivity].
    unfold formatVehicle.
    destruct (isoOfSeconds_total _ (Hv v eq_refl)) as (t & ->).
    cbn [bind]. eexists. reflexivity. }
  destruct E3 as (v & ->). cbn [bind].
  eexists. split; [reflexivity|]. split; reflexivity.
Qed.

Lemma formatDeparture_error s e :
  formatDeparture s = Err e -> e = RangeError "Invalid time value".
Proof.
  unfold formatDeparture.
  destruct (isoOfSeconds (ServiceInfo.startTime s)) as [t1|e1] eqn:E1;
    cbn [bind]; [|intros [= <-]; now apply isoOfSeconds_error in E1].
  destruct (if_nonzero (ServiceInfo.realTimeDeparture s)) as [n|];
    cbn [whenSome bind].
  - destruct (isoOfSeconds n) as [t2|e2] eqn:E2; cbn [bind];
      [|intros [= <-]; now apply isoOfSeconds_error in E2].
    destruct (ServiceInfo.realtimeVehicle s) as [v|]; cbn [whenSome bind];
      [|discriminate].
    unfold formatVehicle.
    destruct (isoOfSeconds (RealtimeVehicle.lastUpdate v)) as [t3|e3] eqn:E3;
      cbn [bind]; [discriminate|].
    intros [= <-]. now apply isoOfSeconds_error in E3.
  - destruct (ServiceInfo.realtimeVehicle s) as [v|]; cbn [whenSome bind];
      [|discriminate].
    unfold formatVehicle.
    destruct (isoOfSeconds (RealtimeVehicle.lastUpdate v)) as [t3|e3] eqn:E3;
      cbn [bind]; [discriminate|].
    intros [= <-]. now apply isoOfSeconds_error in E3.
Qed.

Lemma mapM_total_with {A B} (f : A -> result B) (P : A -> B -> Prop)
  (l : list A) :
  Forall (fun a => exists b, f a = Ok b /\ P a b) l ->
  exists bs, mapM f l = Ok bs /\ Forall2 P l bs.
Proof.
  induction 1 as [|a r Ha _ IH]; cbn [mapM].
  - exists []. split; [reflexivity|constructor].
  - destruct Ha as (b & Hb & HP). destruct IH as (bs & Hbs & HF).
    rewrite Hb, Hbs. cbn [bind]. exists (b :: bs).
    split; [reflexivity|now constructor].
Qed.

(** When every failure of [f] is the same error, one failing element makes
    the map fail with it. *)
Lemma mapM_one_error {A B} (f : A -> result B) (E : exn) (l : list A) :
  (forall a e, f a = Err e -> e = E) ->
  Exists (fun a => f a = Err E) l ->
  mapM f l = Err E.
Proof.
  intros Hu. induction 1 as [a r Ha|a r _ IH]; cbn [mapM].
  - now rewrite Ha.
  - rewrite IH. destruct (f a) as [b|e] eqn:Ea; cbn [bind]; [reflexivity|].
    now rewrite (Hu a e Ea).
Qed.

Lemma handleDepartures_unfold (h : Host) data region stopCodes timeStamp lim :
  if_truthy (DeparturesResponse.error data) = None ->
  handleDepartures h data region stopCodes timeStamp lim
  = (formatted <- mapM formatDeparture (allServices data) ;;
     Ok {| DeparturesOutput.departures := formatted;
           DeparturesOutput.query_region := region;
           DeparturesOutput.query_stopCodes := stopCodes |}).
Proof.
  intros He. unfold handleDepartures.
  destruct (departuresBody_total h region stopCodes timeStamp lim)
    as (body & ->).
  cbn [bind]. unfold throwOnError. rewrite He. cbn [bind].
  unfold allServices.
  rewrite <- (mapM_concat formatDeparture servicesOf).
  rewrite (mapM_ext (formatEmbarkationStop data)
                    (fun x => mapM formatDeparture (servicesOf x))).
  - destruct (mapM _ _); reflexivity.
  - intros es. unfold formatEmbarkationStop, servicesOf.
    destruct (EmbarkationStop.services es); reflexivity.
Qed.

(** X18.  When the departures answer carries no error and the times of all
    its services can be held by [Date], the call returns exactly one entry
    per service, stop by stop in upstream order: the entries have the
    services' trip ids and are real-time exactly for the status
    "IS_REAL_TIME". *)
Theorem departures_has_one_entry_per_service :
  forall (h : Host) (data : DeparturesResponse.t) (region : string)
         (stopCodes : list string) (timeStamp : option string)
         (lim : option Z),
    if_truthy (DeparturesResponse.error data) = None ->
    Forall service_in_range (allServices data) ->
    exists out,
      handleDepartures h data region stopCodes timeStamp lim = Ok out
      /\ map (fun d => FormattedService.id (FormattedDeparture.service d))
             (DeparturesOutput.departures out)
         = map ServiceInfo.serviceTripID (allServices data)
      /\ map FormattedDeparture.realTime (DeparturesOutput.departures out)
         = map (fun s => is_real_time (ServiceInfo.realTimeStatus s))
               (allServices data).
Proof.
  intros h data region stopCodes timeStamp lim He Hall.
  rewrite handleDepartures_unfold by exact He.
  destruct (mapM_total_with formatDeparture
              (fun s d =>
                 FormattedService.id (FormattedDeparture.service d)
                 = ServiceInfo.serviceTripID s
                 /\ FormattedDeparture.realTime d
                    = is_real_time (ServiceInfo.realTimeStatus s))
              (allServices data)) as (ds & -> & HF).
  { eapply Forall_impl; [|exact Hall]. intros s Hs.
    exact (formatDeparture_total s Hs). }
  cbn [bind]. eexists. split; [reflexivity|].
  cbn [DeparturesOutput.departures].
  clear Hall. induction HF as [|s d ss ds' H12 _ IH]; [split; reflexivity|].
  destruct H12 as [H1 H2]. destruct IH as [IH1 IH2].
  cbn [map]. rewrite H1, H2, IH1, IH2. split; reflexivity.
Qed.

Lemma departures_has_one_entry_per_service_witness :
  exists out,
    handleDepartures reference_host (departures_response None)
                     "AU_NSW_Sydney" ["200060"] None None = Ok out
    /\ map (fun d => FormattedService.id (FormattedDeparture.service d))
           (DeparturesOutput.departures out)
       = ["T1-0900"]
    /\ map FormattedDeparture.realTime (DeparturesOutput.departures out)
       = [false].
Proof.
  refine (departures_has_one_entry_per_service reference_host
            (departures_response None) "AU_NSW_Sydney" ["200060"] None None
            _ _).
  - reflexivity.
  - repeat constructor.
    + unfold in_Date_range. cbn. lia.
    + intros n H. discriminate H.
    + intros v H. discriminate H.
Defined.

(** X19.  When the departures answer carries no error and some service,
    of any stop, starts at a time that [Date] cannot hold, the call fails
    with the range error "Invalid time value": no entry is returned, not
    even those of the other services. *)
Theorem one_invalid_time_fails_all_departures :
  forall (h : Host) (data : DeparturesResponse.t) (region : string)
         (stopCodes : list string) (timeStamp : option string)
         (lim : option Z),
    if_truthy (DeparturesResponse.error data) = None ->
    Exists (fun s => ~ in_Date_range (ServiceInfo.startTime s))
           (allServices data) ->
    handleDepartures h data region stopCodes timeStamp lim
    = Err (RangeError "Invalid time value").
Proof.
  intros h data region stopCodes timeStamp lim He Hex.
  rewrite handleDepartures_unfold by exact He.
  rewrite (mapM_one_error formatDeparture (RangeError "Invalid time value")).
  - reflexivity.
  - exact formatDeparture_error.
  - eapply Exists_impl; [|exact Hex]. intros s Hs. unfold formatDeparture.
    now rewrite isoOfSeconds_out_of_range.
Qed.

(** A second service, a thousand times too far in the future. *)
Definition far_service : ServiceInfo.t :=
  {| ServiceInfo.startTime := 9000000000000;
     ServiceInfo.serviceTripID := "T9";
     ServiceInfo.serviceName := None;
     ServiceInfo.serviceDirection := None;
     ServiceInfo.serviceNumber := None;
     ServiceInfo.serviceColor := None;
     ServiceInfo.serviceTextColor := None;
     ServiceInfo.routeID := None;
     ServiceInfo.operatorID := None;
     ServiceInfo.operator := None;
     ServiceInfo.mode := None;
     ServiceInfo.wheelchairAccessible := None;
     ServiceInfo.realTimeStatus := None;
     ServiceInfo.realtimeVehicle := None;
     ServiceInfo.realTimeDeparture := None |}.

Definition far_departures : DeparturesResponse.t :=
  {| DeparturesResponse.error := None;
     DeparturesResponse.errorMessage := None;
     DeparturesResponse.embarkationStops :=
       Some [{| EmbarkationStop.stopCode := "200060";
                EmbarkationStop.wheelchairAccessible := None;
                EmbarkationStop.services :=
                  Some [sample_service; far_service] |}];
     DeparturesResponse.stops := None |}.

Lemma one_invalid_time_fails_all_departures_witness :
  handleDepartures reference_host far_departures "AU_NSW_Sydney" ["200060"]
                   None None
  = Err (RangeError "Invalid time value").
Proof.
  apply (one_invalid_time_fails_all_departures reference_host far_departures
           "AU_NSW_Sydney" ["200060"] None None).
  - reflexivity.
  - right. left. unfold in_Date_range. cbn. lia.
Defined.

(** X20.  The departures that are returned do not depend on the host: the
    times of the entries are rendered in UTC from the answer alone, never in
    a zone of the host's database. *)
Theorem departures_are_rendered_without_the_host :
  forall (h1 h2 : Host) (data : DeparturesResponse.t) (region : string)
         (stopCodes : list string) (timeStamp : option string)
         (lim : option Z),
    handleDepartures h1 data region stopCodes timeStamp lim
    = handleDepartures h2 data region stopCodes timeStamp lim.
Proof.
  intros h1 h2 data region stopCodes ts lim.
  unfold handleDepartures.
  destruct (departuresBody_total h1 region stopCodes ts lim) as (b1 & ->).
  destruct (departuresBody_total h2 region stopCodes ts lim) as (b2 & ->).
  reflexivity.
Qed.

(** ** Limits that are absent or negative *)

Lemma slice0_negative {A} (l : list A) (n : Z) :
  n < 0 -> slice0 l (Some n) = firstn (length l - Z.to_nat (- n)) l.
Proof.
  intros H. unfold slice0. destruct (Z.ltb_spec n 0); [|lia].
  f_equal. lia.
Qed.

(** X21.  [handleRouting] hands its limit to [slice] as it is.  For a
    response whose groups all have trips: without a limit every ranked
    group is kept; with a negative limit [-k], all ranked groups but the
    last [k] are kept, not none. *)
Theorem absent_or_negative_limit_keeps_groups :
  forall (data : RoutingResponse.t) (groups : list TripGroup.t),
    RoutingResponse.groups data = Some groups ->
    Forall (fun grp => TripGroup.trips grp <> []) groups ->
    (exists sel,
        selectedGroups data None = Ok sel
        /\ map SelectedGroup.trips sel
           = sort (fun a b => representativeScore a - representativeScore b)%Q
                  (map bestTwo groups))
    /\ (forall N, N < 0 ->
         exists sel,
           selectedGroups data (Some N) = Ok sel
           /\ map SelectedGroup.trips sel
              = firstn (length groups - Z.to_nat (- N))
                  (sort (fun a b =>
                           representativeScore a - representativeScore b)%Q
                        (map bestTwo groups))).
Proof.
  intros data groups Hg Hne. split.
  - destruct (selectedGroups_total data groups None Hg Hne)
      as (selected & Hs & Hr).
    exists selected. split; [exact Hs|exact Hr].
  - intros N HN.
    destruct (selectedGroups_total data groups (Some N) Hg Hne)
      as (selected & Hs & Hr).
    eexists. split; [exact Hs|].
    rewrite slice0_negative by exact HN. rewrite <- firstn_map, Hr.
    f_equal. rewrite <- (length_map SelectedGroup.trips selected), Hr.
    now rewrite sort_length, length_map.
Qed.

Lemma absent_or_negative_limit_keeps_groups_witness :
  exists sel,
    selectedGroups (routing_response sample_groups) (Some (-1)) = Ok sel
    /\ map SelectedGroup.trips sel
       = firstn (length sample_groups - Z.to_nat (- -1))
           (sort (fun a b => representativeScore a - representativeScore b)%Q
                 (map bestTwo sample_groups)).
Proof.
  refine (proj2 (absent_or_negative_limit_keeps_groups
                   (routing_response sample_groups) sample_groups _ _)
                (-1) _).
  - reflexivity.
  - repeat constructor; discriminate.
  - lia.
Defined.

(** With the limit -1 the sample keeps two of its three groups. *)
Lemma sample_negative_limit :
  match selectedGroups (routing_response sample_groups) (Some (-1)) with
  | Ok sel => map (fun s => map Trip.id (SelectedGroup.trips s)) sel
  | Err _ => []
  end = [["b1"; "b2"]; ["c1"]].
Proof. vm_compute. reflexivity. Qed.


(** ** helpers.ts: [utcToZonedTime] *)

Lemma is_space_digit n : is_space (digit n) = false.
Proof.
  unfold is_space, digit.
  pose proof (Z.mod_pos_bound n 10 ltac:(lia)) as Hb.
  rewrite N_ascii_embedding by lia.
  apply orb_false_iff. split.
  - apply N.eqb_neq. lia.
  - apply andb_false_iff. right. apply N.leb_gt. lia.
Qed.

Lemma digit_value_digit n : digit_value 10 (digit n) = Some (n mod 10).
Proof.
  unfold digit_value, digit.
  pose proof (Z.mod_pos_bound n 10 ltac:(lia)) as Hb.
  rewrite N_ascii_embedding by lia. cbv zeta.
  replace (Z.of_N (48 + Z.to_N (n mod 10))) with (48 + n mod 10) by lia.
  destruct (Z.leb_spec 48 (48 + n mod 10)); [|lia].
  destruct (Z.leb_spec (48 + n mod 10) 57); [|lia].
  cbn [andb].
  destruct (Z.ltb_spec (48 + n mod 10 - 48) 10); [|lia].
  f_equal. lia.
Qed.

Ltac not_a_digit :=
  rewrite ?(digit_neq _ "-"), ?(digit_neq _ "+"), ?(digit_neq _ "x"),
    ?(digit_neq _ "X"), ?(digit_neq _ ","), ?(digit_neq _ ":"),
    ?(digit_neq _ " ") by reflexivity.

Lemma parseInt_pad2 n : 0 <= n < 100 -> parseInt (Some (pad2 n)) = Some n.
Proof.
  intros H. unfold parseInt, pad2. cbn [skip_space].
  rewrite is_space_digit. not_a_digit. rewrite andb_false_r.
  cbn [leading_digits]. rewrite !digit_value_digit. f_equal.
  Z.div_mod_to_equations. lia.
Qed.

Lemma parseInt_pad4 y : 0 <= y <= 9999 -> parseInt (Some (pad4 y)) = Some y.
Proof.
  intros H. unfold parseInt, pad4, pad3, pad2. cbn [skip_space].
  rewrite is_space_digit. not_a_digit. rewrite andb_false_r.
  cbn [leading_digits]. rewrite !digit_value_digit. f_equal.
  Z.div_mod_to_equations. lia.
Qed.

(** [split] passes a character that does not start the separator, and cuts
    at a separator. *)
Lemma split_go_pass b sep acc c r :
  Ascii.eqb c b = false ->
  split_go (String b sep) 0 acc (String c r)
  = split_go (String b sep) 0 (fun x => acc (String c x)) r.
Proof. intros H. cbn [split_go starts_with]. rewrite H. reflexivity. Qed.

Lemma split_go_hit sep acc c r :
  starts_with (String c r) sep = true ->
  split_go sep 0 acc (String c r)
  = acc EmptyString :: split_go sep (String.length sep - 1) (fun x => x) r.
Proof. intros H. cbn [split_go]. rewrite H. reflexivity. Qed.

Lemma split_go_skip sep k acc c r :
  split_go sep (S k) acc (String c r) = split_go sep k acc r.
Proof. reflexivity. Qed.

Ltac split_step :=
  first [ rewrite split_go_pass
            by (first [reflexivity | apply digit_neq; reflexivity])
        | rewrite split_go_hit by reflexivity;
          cbn [String.length Nat.sub]
        | rewrite split_go_skip ].

(** The pieces of the text that [toLocaleString] prints. *)
Lemma split_date_and_time y mo d hh mi ss :
  split ", " (pad4 y +++ "-" +++ pad2 mo +++ "-" +++ pad2 d +++ ", "
              +++ pad2 hh +++ ":" +++ pad2 mi +++ ":" +++ pad2 ss)
  = [pad4 y +++ "-" +++ pad2 mo +++ "-" +++ pad2 d;
     pad2 hh +++ ":" +++ pad2 mi +++ ":" +++ pad2 ss].
Proof.
  unfold split, pad4, pad3, pad2. cbn [String.append].
  repeat split_step. reflexivity.
Qed.

Lemma split_date y mo d :
  split "-" (pad4 y +++ "-" +++ pad2 mo +++ "-" +++ pad2 d)
  = [pad4 y; pad2 mo; pad2 d].
Proof.
  unfold split, pad4, pad3, pad2. cbn [String.append].
  repeat split_step. reflexivity.
Qed.

Lemma split_time hh mi ss :
  split ":" (pad2 hh +++ ":" +++ pad2 mi +++ ":" +++ pad2 ss)
  = [pad2 hh; pad2 mi; pad2 ss].
Proof.
  unfold split, pad2. cbn [String.append].
  repeat split_step. reflexivity.
Qed.

(** The fields of a reading of the clock are in their ranges. *)
Lemma epoch_to_wall_fields t :
  let w := epoch_to_wall t in
  1 <= month w <= 12 /\ 1 <= day w <= 31 /\ 0 <= hour w < 24
  /\ 0 <= minute w < 60 /\ 0 <= second w < 60.
Proof.
  unfold epoch_to_wall, civil_from_days. cbv zeta.
  set (z' := t / 86400 + 719468).
  set (era := z' / 146097).
  set (doe := z' - era * 146097).
  assert (Hdoe : 0 <= doe < 146097)
    by (subst doe era; Z.div_mod_to_equations; lia).
  destruct (yoe_of_range doe Hdoe) as [_ Hdoy].
  set (doy := doe - doe_of (yoe_of doe) 0) in *.
  destruct (doy_of_month_day doy Hdoy) as [_ Hm].
  assert (Hd : 1 <= snd (month_day_of doy) <= 31).
  { unfold month_day_of. cbv zeta. cbn [snd]. Z.div_mod_to_equations. lia. }
  destruct (month_day_of doy) as [m d]. cbn [fst snd] in *.
  cbn [year month day hour minute second].
  pose proof (Z.mod_pos_bound t 86400 ltac:(lia)).
  repeat split; try lia; Z.div_mod_to_equations; lia.
Qed.

(** [new Date] on the fields of a reading, with the month counted from 0. *)
Lemma Date_of_fields_wall w :
  1 <= month w <= 12 -> 100 <= year w ->
  Date_of_fields (Some (year w)) (Some (month w - 1)) (Some (day w))
                 (Some (hour w)) (Some (minute w)) (Some (second w))
  = TimeClip (1000 * wall_to_epoch w).
Proof.
  intros Hm Hy. unfold Date_of_fields. cbv zeta.
  destruct (Z.leb_spec 0 (year w)); [|lia].
  destruct (Z.leb_spec (year w) 99); [lia|]. cbn [andb].
  replace ((month w - 1) / 12) with 0 by (Z.div_mod_to_equations; lia).
  replace ((month w - 1) mod 12 + 1) with (month w)
    by (Z.div_mod_to_equations; lia).
  rewrite Z.add_0_r. unfold wall_to_epoch. f_equal. f_equal.
  unfold days_from_civil, doy_of, doe_of. cbv zeta. lia.
Qed.

Lemma fields_to_epoch_bound w :
  1 <= month w <= 12 -> 1 <= day w <= 31 -> 0 <= hour w < 24 ->
  0 <= minute w < 60 -> 0 <= second w < 60 -> 1000 <= year w <= 9999 ->
  -31000000000 <= wall_to_epoch w <= 254000000000.
Proof.
  intros Hm Hd Hh Hmi Hs Hy.
  unfold wall_to_epoch, days_from_civil, doe_of, doy_of.
  destruct (month w <=? 2); destruct (2 <? month w);
    cbv zeta; Z.div_mod_to_equations; lia.
Qed.

Lemma utcToZonedTime_value (h : Host) zone off ms :
  timeZone h zone = Some off ->
  1000 <= year (epoch_to_wall (ms / 1000 + off (ms / 1000))) <= 9999 ->
  utcToZonedTime h (Some ms) zone
  = Ok (Some (1000 * (ms / 1000 + off (ms / 1000)))).
Proof.
  intros Hz Hy. unfold utcToZonedTime, toLocaleString_enCA. rewrite Hz.
  cbv zeta. set (t := ms / 1000 + off (ms / 1000)) in *.
  pose proof (epoch_to_wall_fields t) as (Hm & Hd & Hh & Hmi & Hs).
  pose proof (wall_to_epoch_to_wall t) as Hw.
  set (w := epoch_to_wall t) in *. cbv zeta in Hm, Hd, Hh, Hmi, Hs.
  pose proof (fields_to_epoch_bound w Hm Hd Hh Hmi Hs Hy) as Hb.
  rewrite decimal_pad4 by exact Hy. cbn [bind].
  rewrite split_date_and_time. cbn [nth nth_error].
  rewrite split_date, split_time. cbn [nth_error].
  rewrite parseInt_pad4 by lia. rewrite !parseInt_pad2 by lia.
  cbn [pred_number]. rewrite Date_of_fields_wall by lia.
  rewrite Hw in *. rewrite TimeClip_id by lia. reflexivity.
Qed.

(** X22.  For a zone the host knows and an instant whose year in the zone
    has four digits, [utcToZonedTime] returns a date whose UTC reading is
    what the clock of the zone shows at the instant.  The milliseconds of
    the instant are dropped. *)
Theorem utcToZonedTime_shows_the_zone_clock :
  forall (h : Host) (zone : string) (off : Z -> Z) (ms : Z),
    timeZone h zone = Some off ->
    1000 <= year (epoch_to_wall (ms / 1000 + off (ms / 1000))) <= 9999 ->
    exists shown,
      utcToZonedTime h (Some ms) zone = Ok (Some shown)
      /\ epoch_to_wall (shown / 1000)
         = epoch_to_wall (ms / 1000 + off (ms / 1000))
      /\ shown mod 1000 = 0.
Proof.
  intros h zone off ms Hz Hy. eexists. split; [|split].
  - now apply (utcToZonedTime_value h zone off).
  - now rewrite seconds_of_millis.
  - rewrite Z.mul_comm. apply Z.mod_mul. lia.
Qed.

Lemma utcToZonedTime_shows_the_zone_clock_witness :
  exists shown,
    utcToZonedTime reference_host (Some 1752829200123) "Australia/Sydney"
    = Ok (Some shown)
    /\ epoch_to_wall (shown / 1000)
       = epoch_to_wall (1752829200123 / 1000
                        + sydney_offset (1752829200123 / 1000))
    /\ shown mod 1000 = 0.
Proof.
  apply (utcToZonedTime_shows_the_zone_clock
           reference_host "Australia/Sydney" sydney_offset).
  - reflexivity.
  - vm_compute. split; discriminate.
Defined.

(** 09:00:00.123 UTC on 18 July 2025 is 19:00:00 in Sydney. *)
Lemma sample_utcToZonedTime :
  utcToZonedTime reference_host (Some 1752829200123) "Australia/Sydney"
  = Ok (Some 1752865200000)
  /\ toISOString (Some 1752865200000) = Ok "2025-07-18T19:00:00.000Z".
Proof. split; vm_compute; reflexivity. Qed.

(** X23.  An invalid date prints as [Invalid Date], which has no comma:
    for a zone the host knows, [utcToZonedTime] on an invalid date throws a
    [TypeError], where [toISOStringInTimezone] throws a [RangeError]; it
    does not return an invalid date. *)
Theorem utcToZonedTime_rejects_an_invalid_date :
  forall (h : Host) (zone : string) (off : Z -> Z),
    timeZone h zone = Some off ->
    (exists msg, utcToZonedTime h None zone = Err (TypeError msg))
    /\ (exists msg, toISOStringInTimezone h None zone = Err (RangeError msg)).
Proof.
  intros h zone off Hz. split.
  - unfold utcToZonedTime, toLocaleString_enCA. rewrite Hz.
    cbn [bind]. eexists. vm_compute. reflexivity.
  - unfold toISOStringInTimezone, formatToParts. rewrite Hz.
    cbn [bind]. eexists. reflexivity.
Qed.

Lemma utcToZonedTime_rejects_an_invalid_date_witness :
  (exists msg, utcToZonedTime reference_host None "UTC" = Err (TypeError msg))
  /\ (exists msg,
        toISOStringInTimezone reference_host None "UTC"
        = Err (RangeError msg)).
Proof.
  apply (utcToZonedTime_rejects_an_invalid_date
           reference_host "UTC" (fun _ => 0)).
  reflexivity.
Defined.

(** X24.  [utcToZonedTime] undoes [zonedTimeToUtc].  For a valid reading
    with a four-digit year whose text is taken to UTC in a zone, when the
    zone has the same offset at the instant so obtained, showing that
    instant in the zone gives back the date that the text denotes when it
    is read as UTC. *)
Theorem utcToZonedTime_undoes_zonedTimeToUtc :
  forall (h : Host) (zone : string) (off : Z -> Z) (w : WallClock),
    timeZone h zone = Some off ->
    valid_wall w ->
    1000 <= year w <= 9999 ->
    off (wall_to_epoch w - off (wall_to_epoch w)) = off (wall_to_epoch w) ->
    (d <- zonedTimeToUtc h (isoLocal w) zone ;; utcToZonedTime h d zone)
    = Ok (Date_parse h (isoLocal w +++ "Z")).
Proof.
  intros h zone off w Hz Hv Hy Hoff.
  rewrite (zonedTimeToUtc_value h zone off) by assumption.
  cbn [bind]. rewrite (Date_parse_iso h) by (try exact Hv; lia).
  rewrite (utcToZonedTime_value h zone off).
  - rewrite seconds_of_millis, Hoff. do 3 f_equal. lia.
  - exact Hz.
  - rewrite seconds_of_millis, Hoff.
    replace (wall_to_epoch w - off (wall_to_epoch w) + off (wall_to_epoch w))
      with (wall_to_epoch w) by lia.
    rewrite epoch_to_wall_to_epoch by exact Hv. exact Hy.
Qed.

Lemma utcToZonedTime_undoes_zonedTimeToUtc_witness :
  (d <- zonedTimeToUtc reference_host
          (isoLocal {| year := 2025; month := 7; day := 18;
                       hour := 19; minute := 0; second := 0 |})
          "Australia/Sydney" ;;
   utcToZonedTime reference_host d "Australia/Sydney")
  = Ok (Date_parse reference_host
          (isoLocal {| year := 2025; month := 7; day := 18;
                       hour := 19; minute := 0; second := 0 |} +++ "Z")).
Proof.
  apply (utcToZonedTime_undoes_zonedTimeToUtc
           reference_host "Australia/Sydney" sydney_offset).
  - reflexivity.
  - vm_compute. repeat split; discriminate.
  - vm_compute. split; discriminate.
  - vm_compute. reflexivity.
Defined.

(** ** The routing tool *)

Lemma ranked_groups_have_two_trips (groups : list TripGroup.t) (n : nat) :
  Forall (fun l : list Trip.t => (length l <= 2)%nat)
    (firstn n (sort (fun a b => representativeScore a - representativeScore b)%Q
                    (map bestTwo groups))).
Proof.
  apply Forall_forall. intros l Hl. apply In_firstn in Hl.
  apply sort_In in Hl. apply in_map_iff in Hl.
  destruct Hl as (grp & <- & _). unfold bestTwo.
  rewrite length_firstn. lia.
Qed.

(** X25.  The schema of the routing tool sets the limit 3 when the caller
    gives none: a call of the tool without a limit that returns, returns at
    most six trips. *)
Theorem routing_tool_returns_six_trips_by_default :
  forall (g : Geo) (h : Host) (regionsData : RegionsResponse.t)
         (data : RoutingResponse.t) (params : RoutingArgs)
         (out : RoutingOutput.t),
    limit params = None ->
    tripgoRoutingTool_execute g h regionsData data params = Ok out ->
    (length (RoutingOutput.trips out) <= 6)%nat.
Proof.
  intros g h regionsData data params out Hlim Hout.
  unfold tripgoRoutingTool_execute, rethrow in Hout. rewrite Hlim in Hout.
  match type of Hout with
  | match ?r with _ => _ end = _ => destruct r as [o|e] eqn:Hr
  end; [|discriminate]. injection Hout as ->.
  destruct (handleRouting_inv _ _ _ _ _ _ Hr)
    as (region & url & sel & _ & _ & _ & Hsel & Hfmt & _).
  cbn [limit] in Hsel. apply mapM_length in Hfmt. rewrite Hfmt.
  destruct (RoutingResponse.groups data) as [groups|] eqn:Hg.
  - destruct (selectedGroups_inv data groups 3 sel Hg ltac:(lia) Hsel)
      as [_ Hmap].
    rewrite Hmap.
    pose proof (concat_length_bound _ 2
                  (ranked_groups_have_two_trips groups (Z.to_nat 3))) as Hb.
    rewrite length_firstn in Hb. lia.
  - unfold selectedGroups in Hsel. rewrite Hg in Hsel. injection Hsel as <-.
    cbn [map concat length]. lia.
Qed.

Definition unlimited_args : RoutingArgs :=
  {| fromLat := fromLat sample_args; fromLng := fromLng sample_args;
     toLat := toLat sample_args; toLng := toLng sample_args;
     departureTime := None; arrivalTime := None; modes := None;
     maxWalkingTime := None; wheelchair := None; limit := None |}.

Lemma routing_tool_returns_six_trips_by_default_witness :
  exists out,
    tripgoRoutingTool_execute reference_geo reference_host sample_regions
      (routing_response sample_groups) unlimited_args = Ok out
    /\ (length (RoutingOutput.trips out) <= 6)%nat.
Proof.
  eexists. split; [vm_compute; reflexivity|].
  refine (routing_tool_returns_six_trips_by_default
            reference_geo reference_host sample_regions
            (routing_response sample_groups) unlimited_args _ _ _).
  - reflexivity.
  - vm_compute. reflexivity.
Defined.
